(** * EPMD client: protocol codec and client dispatcher

    A shallow embedding of [src/protocol/encoder.js], of the constants
    and the [Client] class that [src/protocol/constants.js] carries and
    of the frame builders of [src/test/decoder.js], together with the
    properties of the wire format that the specification states.
    [decoder.js] itself is not among the sources: its [decode] is
    modelled from the specification, over [NODE_REGEXP] of the
    constants.

    Conventions.
    - A Node.js [Buffer] is a list of bytes, each byte an integer in
      [0, 256).  Methods that mutate their receiver take the buffer as
      the last argument and return the updated buffer.
    - JavaScript numbers that the code uses as lengths, offsets and
      field values are integers ([Z]).
    - A JavaScript string is its sequence of UTF-16 code units.
    - A JavaScript [throw] is the [Throw] constructor of [result]. *)

From Stdlib Require Import ZArith Lia.
From stdpp Require Import base option list gmap strings.

Open Scope Z_scope.

(** ** Exceptions *)

Inductive result (E A : Type) : Type :=
  | Ok (a : A)
  | Throw (e : E).
Arguments Ok {E A} a.
Arguments Throw {E A} e.

Global Instance result_ret {E} : MRet (result E) := λ A a, Ok a.
Global Instance result_bind {E} : MBind (result E) := λ A B f m,
  match m with
  | Ok a => f a
  | Throw e => Throw e
  end.

(** Errors raised by the Node.js runtime functions the encoder calls. *)
Inductive JsError : Type :=
  | ERR_OUT_OF_RANGE
  | ERR_BUFFER_OUT_OF_BOUNDS
  | RangeError
  | TypeError.

(** ** JavaScript strings and their UTF-8 encoding *)

Abbreviation jsstring := (list Z) (only parsing).

(** An ASCII literal as a JavaScript string. *)
Definition js (s : string) : jsstring :=
  (λ a, Z.of_N (Ascii.N_of_ascii a)) <$> String.list_ascii_of_string s.

Definition isLeadSurrogate (c : Z) : bool := (0xD800 <=? c) && (c <=? 0xDBFF).
Definition isTrailSurrogate (c : Z) : bool := (0xDC00 <=? c) && (c <=? 0xDFFF).

(** UTF-8 encoding of one code point. *)
Definition utf8CodePoint (cp : Z) : list Z :=
  if cp <? 0x80 then [cp]
  else if cp <? 0x800 then [0xC0 + cp / 64; 0x80 + cp mod 64]
  else if cp <? 0x10000 then
    [0xE0 + cp / 4096; 0x80 + (cp / 64) mod 64; 0x80 + cp mod 64]
  else
    [0xF0 + cp / 262144; 0x80 + (cp / 4096) mod 64;
     0x80 + (cp / 64) mod 64; 0x80 + cp mod 64].

(** The encoding of U+FFFD, which replaces an unpaired surrogate. *)
Definition utf8Replacement : list Z := [0xEF; 0xBF; 0xBD].

(** The UTF-8 encoding of a string, one chunk per character: a surrogate
    pair is one character of four bytes, an unpaired surrogate is
    replaced by U+FFFD. *)
Fixpoint utf8Chars (s : jsstring) : list (list Z) :=
  match s with
  | [] => []
  | c :: s' =>
    if isLeadSurrogate c then
      match s' with
      | d :: s'' =>
        if isTrailSurrogate d
        then utf8CodePoint (0x10000 + (c - 0xD800) * 1024 + (d - 0xDC00))
             :: utf8Chars s''
        else utf8Replacement :: utf8Chars s'
      | [] => [utf8Replacement]
      end
    else if isTrailSurrogate c then utf8Replacement :: utf8Chars s'
    else utf8CodePoint c :: utf8Chars s'
  end.

Definition utf8Bytes (s : jsstring) : list Z := concat (utf8Chars s).

(** [s.isWellFormed()]: every code unit is a 16-bit number and every
    surrogate is part of a pair. *)
Fixpoint wellFormed (s : jsstring) : bool :=
  match s with
  | [] => true
  | c :: s' =>
    if isLeadSurrogate c then
      match s' with
      | d :: s'' => isTrailSurrogate d && wellFormed s''
      | [] => false
      end
    else negb (isTrailSurrogate c) && (0 <=? c) && (c <? 0x10000) && wellFormed s'
  end.

(** ** Node.js Buffer *)

Module Buffer.

Abbreviation t := (list Z) (only parsing).

(** [buf.length] *)
Definition length (buf : t) : Z := Z.of_nat (List.length buf).

(** [Buffer.alloc(size)]: a zero-filled buffer; a negative size is
    rejected.  The largest size the platform allows ([kMaxLength]) is
    not modelled. *)
Definition alloc (size : Z) : result JsError t :=
  if size <? 0 then Throw ERR_OUT_OF_RANGE
  else Ok (replicate (Z.to_nat size) 0).

(** [Buffer.byteLength(string, 'utf8')] *)
Definition byteLength (s : jsstring) : Z := length (utf8Bytes s).

(** [buf[i] = v] on a typed array of unsigned bytes, [i] in range. *)
Definition store (buf : t) (i v : Z) : t := <[Z.to_nat i := v mod 256]> buf.

(** The bounds check of the integer writers: the first and the last
    byte written must exist. *)
Definition checkBounds (buf : t) (offset byteLength : Z) : result JsError unit :=
  if (0 <=? offset) && (offset + byteLength <? length buf) then Ok ()
  else if length buf - (byteLength + 1) <? 0 then Throw ERR_BUFFER_OUT_OF_BOUNDS
  else Throw ERR_OUT_OF_RANGE.

(** [buf.writeUInt8(value, offset)] *)
Definition writeUInt8 (value offset : Z) (buf : t) : result JsError t :=
  if (value >? 255) || (value <? 0) then Throw ERR_OUT_OF_RANGE
  else _ ← checkBounds buf offset 0; Ok (store buf offset value).

(** [buf.writeUInt16BE(value, offset)] *)
Definition writeUInt16BE (value offset : Z) (buf : t) : result JsError t :=
  if (value >? 65535) || (value <? 0) then Throw ERR_OUT_OF_RANGE
  else _ ← checkBounds buf offset 1;
       Ok (store (store buf offset (Z.shiftr value 8)) (offset + 1) value).

(** The bytes [utf8Write] puts in [room] bytes: whole characters only. *)
Fixpoint utf8Fit (chars : list (list Z)) (room : Z) : list Z :=
  match chars with
  | [] => []
  | c :: chars' =>
    if length c <=? room then c ++ utf8Fit chars' (room - length c) else []
  end.

(** [buf.write(string, offset)] and [buf.write(string, offset, 'utf8')]:
    the offset may be anything from 0 to [buf.length]; the string is
    written up to the end of the buffer. *)
Definition write (s : jsstring) (offset : Z) (buf : t) : result JsError t :=
  if (offset <? 0) || (length buf <? offset) then Throw ERR_OUT_OF_RANGE
  else Ok (list_inserts (Z.to_nat offset)
             (utf8Fit (utf8Chars s) (length buf - offset)) buf).

(** [source.copy(target, targetStart, sourceStart)] *)
Definition copy (source target : t) (targetStart sourceStart : Z)
  : result JsError t :=
  if targetStart <? 0 then Throw ERR_OUT_OF_RANGE
  else if (sourceStart <? 0) || (length source <? sourceStart)
  then Throw ERR_OUT_OF_RANGE
  else if (length target <=? targetStart) || (length source <=? sourceStart)
  then Ok target
  else
    let nb := Z.min (length source - sourceStart) (length target - targetStart) in
    Ok (list_inserts (Z.to_nat targetStart)
          (take (Z.to_nat nb) (drop (Z.to_nat sourceStart) source)) target).

(** [target.set(source, offset)] of typed arrays. *)
Definition set (source : t) (offset : Z) (target : t) : result JsError t :=
  if (offset <? 0) || (length target <? length source + offset)
  then Throw RangeError
  else Ok (list_inserts (Z.to_nat offset) source target).

End Buffer.

(** ** [src/protocol/constants.js] *)

Module constants.

Definition KILL_REQ : Z := 107.
Definition DUMP_REQ : Z := 100.
Definition NAMES_REQ : Z := 110.
Definition PORT2_RESP : Z := 119.
Definition ALIVE2_REQ : Z := 120.
Definition ALIVE_RESP : Z := 121.
Definition ALIVE2_X_RESP : Z := 118.
Definition PORT_PLEASE2_REQ : Z := 122.

Definition NODE_TYPE_NORMAL : Z := 77.
Definition NODE_TYPE_HIDDEN : Z := 72.
Definition PROTOCOL_IPV4 : Z := 0.
Definition HIGHEST_VERSION : Z := 6.
Definition LOWEST_VERSION : Z := 5.

End constants.

(** ** [src/protocol/encoder.js] *)

Module encoder.

Definition requestWrapper (req : Buffer.t) : result JsError Buffer.t :=
  let baseLength := 2 in
  buf ← Buffer.alloc (baseLength + Buffer.length req);
  buf ← Buffer.writeUInt16BE (Buffer.length req) 0 buf;
  buf ← Buffer.copy req buf 2 0;
  Ok buf.

Definition alive2Request (port : Z) (nodeName : jsstring)
  : result JsError Buffer.t :=
  let nodeLength := Buffer.byteLength nodeName in
  extra ← Buffer.alloc 0;
  let length := 1 + 2 + 1 + 1 + 2 + 2 + 2 + nodeLength + 2 + Buffer.length extra in
  buff ← Buffer.alloc length;
  buff ← Buffer.writeUInt8 constants.ALIVE2_REQ 0 buff;
  buff ← Buffer.writeUInt16BE port 1 buff;
  buff ← Buffer.writeUInt8 constants.NODE_TYPE_NORMAL 3 buff;
  buff ← Buffer.writeUInt8 constants.PROTOCOL_IPV4 4 buff;
  buff ← Buffer.writeUInt16BE 6 5 buff;
  buff ← Buffer.writeUInt16BE 5 7 buff;
  buff ← Buffer.writeUInt16BE nodeLength 9 buff;
  buff ← Buffer.write nodeName 11 buff;
  buff ← Buffer.writeUInt16BE (Buffer.length extra) (11 + nodeLength) buff;
  buff ← Buffer.set extra (13 + nodeLength) buff;
  Ok buff.

Definition portPleaseRequest (nodeName : jsstring) : result JsError Buffer.t :=
  let baseLength := 2 in
  let nameLength := Buffer.byteLength nodeName - 1 in
  req ← Buffer.alloc (baseLength + nameLength);
  let offset := 0 in
  req ← Buffer.writeUInt8 constants.PORT_PLEASE2_REQ offset req;
  let offset := 1 in
  req ← Buffer.write nodeName offset req;
  Ok req.

Definition namesRequest : result JsError Buffer.t :=
  req ← Buffer.alloc 1;
  req ← Buffer.writeUInt8 constants.NAMES_REQ 0 req;
  Ok req.

Definition dumpRequest : result JsError Buffer.t :=
  req ← Buffer.alloc 1;
  req ← Buffer.writeUInt8 constants.DUMP_REQ 0 req;
  Ok req.

Definition killRequest : result JsError Buffer.t :=
  req ← Buffer.alloc 1;
  req ← Buffer.writeUInt8 constants.KILL_REQ 0 req;
  Ok req.

End encoder.

(** ** UTF-8 decoding: [buf.toString('utf8')]

    The decoder of the Encoding standard: an ill-formed sequence
    becomes U+FFFD and the offending byte is read again as the start of
    a character; a code point above U+FFFF becomes a surrogate pair. *)

Module utf8.

Record state : Type := State {
  codePoint : Z;
  needed : Z;
  lower : Z;
  upper : Z;
}.

Definition init : state :=
  {| codePoint := 0; needed := 0; lower := 0x80; upper := 0xBF |}.

Definition emit (cp : Z) : list Z :=
  if cp <? 0x10000 then [cp]
  else [0xD800 + (cp - 0x10000) / 1024; 0xDC00 + (cp - 0x10000) mod 1024].

Definition start (b : Z) : state * list Z :=
  if b <=? 0x7F then (init, [b])
  else if (0xC2 <=? b) && (b <=? 0xDF) then
    ({| codePoint := Z.land b 0x1F; needed := 1; lower := 0x80; upper := 0xBF |}, [])
  else if (0xE0 <=? b) && (b <=? 0xEF) then
    ({| codePoint := Z.land b 0xF; needed := 2;
        lower := if b =? 0xE0 then 0xA0 else 0x80;
        upper := if b =? 0xED then 0x9F else 0xBF |}, [])
  else if (0xF0 <=? b) && (b <=? 0xF4) then
    ({| codePoint := Z.land b 0x7; needed := 3;
        lower := if b =? 0xF0 then 0x90 else 0x80;
        upper := if b =? 0xF4 then 0x8F else 0xBF |}, [])
  else (init, [0xFFFD]).

Definition step (st : state) (b : Z) : state * list Z :=
  if needed st =? 0 then start b
  else if (lower st <=? b) && (b <=? upper st) then
    let cp := codePoint st * 64 + Z.land b 0x3F in
    if needed st =? 1 then (init, emit cp)
    else ({| codePoint := cp; needed := needed st - 1;
             lower := 0x80; upper := 0xBF |}, [])
  else let '(st', out) := start b in (st', 0xFFFD :: out).

Fixpoint decodeFrom (st : state) (bytes : list Z) : jsstring :=
  match bytes with
  | [] => if needed st =? 0 then [] else [0xFFFD]
  | b :: bytes' => let '(st', out) := step st b in out ++ decodeFrom st' bytes'
  end.

Definition toString (buf : Buffer.t) : jsstring := decodeFrom init buf.

End utf8.

(** ** Regular expressions

    The fragment of the JavaScript regular expression language that
    [NODE_REGEXP] is written in, with the backtracking order of the
    language: [run] lists the ways an expression matches a prefix of the
    input, the preferred way first. *)

Module RegExp.

Inductive t : Type :=
  | Empty
  | Char (p : Z → bool)
  | Seq (r1 r2 : t)
  | Star (p : Z → bool)
  | Opt (r : t)
  | Group (n : nat) (r : t).

(** One or more characters of a class, greedy. *)
Definition Plus (p : Z → bool) : t := Seq (Char p) (Star p).

(** The remaining inputs after a greedy [p*], longest match first. *)
Fixpoint star (p : Z → bool) (s : jsstring) : list jsstring :=
  match s with
  | c :: s' => if p c then star p s' ++ [s] else [s]
  | [] => [[]]
  end.

Fixpoint run (r : t) (s : jsstring) (caps : gmap nat jsstring)
  : list (jsstring * gmap nat jsstring) :=
  match r with
  | Empty => [(s, caps)]
  | Char p =>
    match s with
    | c :: s' => if p c then [(s', caps)] else []
    | [] => []
    end
  | Seq r1 r2 => '(s', caps') ← run r1 s caps; run r2 s' caps'
  | Star p => (λ s', (s', caps)) <$> star p s
  | Opt r => run r s caps ++ [(s, caps)]
  | Group n r =>
    (λ '(s', caps'), (s', <[n := take (length s - length s') s]> caps'))
      <$> run r s caps
  end.

(** [regexp.exec(s)]: the preferred match at the first position of the
    input that has one; the result is the captures of that match. *)
Fixpoint exec (r : t) (s : jsstring) : option (gmap nat jsstring) :=
  match run r s ∅ with
  | (_, caps) :: _ => Some caps
  | [] =>
    match s with
    | [] => None
    | _ :: s' => exec r s'
    end
  end.

(** [firstly r s caps s' caps']: the preferred match of [r] at the start
    of [s] leaves [s'] and the captures [caps']. *)
Definition firstly (r : t) (s : jsstring) (caps : gmap nat jsstring)
    (s' : jsstring) (caps' : gmap nat jsstring) : Prop :=
  ∃ others, run r s caps = (s', caps') :: others.

(** [Matches r m caps caps']: [r] matches exactly the string [m],
    taking the captures from [caps] to [caps'], in whatever order of
    preference. *)
Inductive Matches : t → jsstring → gmap nat jsstring → gmap nat jsstring → Prop :=
  | Matches_Empty caps : Matches Empty [] caps caps
  | Matches_Char p c caps : p c = true → Matches (Char p) [c] caps caps
  | Matches_Seq r1 r2 m1 m2 caps caps' caps'' :
      Matches r1 m1 caps caps' → Matches r2 m2 caps' caps'' →
      Matches (Seq r1 r2) (m1 ++ m2) caps caps''
  | Matches_Star p m caps :
      Forall (λ c, p c = true) m → Matches (Star p) m caps caps
  | Matches_Opt_skip r caps : Matches (Opt r) [] caps caps
  | Matches_Opt_take r m caps caps' :
      Matches r m caps caps' → Matches (Opt r) m caps caps'
  | Matches_Group n r m caps caps' :
      Matches r m caps caps' → Matches (Group n r) m caps (<[n := m]> caps').

(** *** Character classes *)

Definition chr (s : string) : Z :=
  match s with
  | String a _ => Z.of_N (Ascii.N_of_ascii a)
  | EmptyString => 0
  end.

(** [.]: any character but a line terminator. *)
Definition dot (c : Z) : bool :=
  negb ((c =? 0x0A) || (c =? 0x0D) || (c =? 0x2028) || (c =? 0x2029)).

(** [\s]: white space and line terminators. *)
Definition space (c : Z) : bool :=
  ((0x09 <=? c) && (c <=? 0x0D)) || (c =? 0x20) || (c =? 0xA0) || (c =? 0x1680)
  || ((0x2000 <=? c) && (c <=? 0x200A)) || (c =? 0x2028) || (c =? 0x2029)
  || (c =? 0x202F) || (c =? 0x205F) || (c =? 0x3000) || (c =? 0xFEFF).

(** [\d] *)
Definition digit (c : Z) : bool := (0x30 <=? c) && (c <=? 0x39).

(** An ASCII pattern character under the [i] flag: letters match in
    either case, and no character outside ASCII matches. *)
Definition upper (c : Z) : Z :=
  if (0x61 <=? c) && (c <=? 0x7A) then c - 0x20 else c.
Definition ci (c x : Z) : bool := upper x =? upper c.

(** A literal string of ASCII characters under the [i] flag. *)
Fixpoint lit (cs : jsstring) : t :=
  match cs with
  | [] => Empty
  | c :: cs' => Seq (Char (ci c)) (lit cs')
  end.

End RegExp.

Module constants_regexp.
Import RegExp.

Local Infix ">>>" := Seq (at level 60, right associativity).

(** [/.*name\s*<?([^>\s]+)>?\s.*at port (\d+)(, fd = (\d+))?.*/i] *)
Definition NODE_REGEXP : RegExp.t :=
  Star dot >>> lit (js "name") >>> Star space >>> Opt (Char (ci (chr "<"))) >>>
  Group 1 (Plus (λ c, negb ((c =? chr ">") || space c))) >>>
  Opt (Char (ci (chr ">"))) >>> Char space >>> Star dot >>>
  lit (js "at port ") >>> Group 2 (Plus digit) >>>
  Opt (Group 3 (lit (js ", fd = ") >>> Group 4 (Plus digit))) >>>
  Star dot.

End constants_regexp.

(** ** Decoded values

    The shape of what [decoder.decode] returns, as the tests and the
    client use it: a response object with a [code] and [data], or an
    array of node entries, or [false]. *)

Inductive ResponseData : Type :=
  | AliveAck (creation : Buffer.t)
  | PortInfo (port nodeType protocol highestVersion lowestVersion : Z)
             (name : jsstring) (extra : Buffer.t).

Record Response : Type := mkResponse {
  code : Z;
  data : ResponseData;
}.

Record NodeEntry : Type := mkNodeEntry {
  name : jsstring;
  port : Z;
  fd : option Z;
}.

Inductive Decoded : Type :=
  | DFalse
  | DResponse (resp : Response)
  | DNodeList (entries : list NodeEntry).

(** ** The response decoder *)

Module decoder.

Inductive DecodeError : Type :=
  | ProtocolStatusError (code status : Z)
  | VersionRangeError (highestVersion lowestVersion : Z)
  | MalformedFrameError.

(** Readers of the fixed-width fields: each returns the field and the
    bytes after it, and fails when the field does not fit. *)
Definition readUInt8 (buf : Buffer.t) : result DecodeError (Z * Buffer.t) :=
  match buf with
  | b :: rest => Ok (b, rest)
  | [] => Throw MalformedFrameError
  end.

Definition readUInt16BE (buf : Buffer.t) : result DecodeError (Z * Buffer.t) :=
  match buf with
  | b0 :: b1 :: rest => Ok (256 * b0 + b1, rest)
  | _ => Throw MalformedFrameError
  end.

Definition readBytes (n : Z) (buf : Buffer.t) : result DecodeError (Buffer.t * Buffer.t) :=
  if n <=? Buffer.length buf
  then Ok (take (Z.to_nat n) buf, drop (Z.to_nat n) buf)
  else Throw MalformedFrameError.

(** The value of a string of decimal digits. *)
Definition parseDecimal (digits : jsstring) : Z :=
  foldl (λ acc d, 10 * acc + (d - 0x30)) 0 digits.

(** Modelled from the spec: the node-line parser of [decoder.js], which
    is not among the sources.  A line is matched with [NODE_REGEXP];
    group 1 is the name, group 2 the port and group 4, when it took
    part in the match, the file descriptor. *)
Definition parseNodeLine (line : jsstring) : option NodeEntry :=
  caps ← RegExp.exec constants_regexp.NODE_REGEXP line;
  name ← caps !! 1%nat;
  port ← caps !! 2%nat;
  Some {| name := name; port := parseDecimal port;
          fd := parseDecimal <$> caps !! 4%nat |}.

(** The lines of a text, split at line feeds. *)
Fixpoint splitLines (s : jsstring) : list jsstring :=
  match s with
  | [] => [[]]
  | c :: s' =>
    if c =? 0x0A then [] :: splitLines s'
    else match splitLines s' with
         | line :: lines => (c :: line) :: lines
         | [] => [[c]]
         end
  end.

(** Modelled from the spec: the text-listing path of [decoder.js].  The
    payload is read as UTF-8 text and split into lines; blank lines are
    discarded; every remaining line that matches the grammar gives one
    entry, the others give none. *)
Definition parseNodeList (text : jsstring) : list NodeEntry :=
  omap parseNodeLine (filter (λ line, line ≠ []) (splitLines text)).

(** Modelled from the spec: the fixed fields of a PORT2_RESP after its
    status byte, read in wire order. *)
Definition readPort2 (body : Buffer.t) : result DecodeError ResponseData :=
  '(port, body) ← readUInt16BE body;
  '(nodeType, body) ← readUInt8 body;
  '(protocol, body) ← readUInt8 body;
  '(highestVersion, body) ← readUInt16BE body;
  '(lowestVersion, body) ← readUInt16BE body;
  '(nameLen, body) ← readUInt16BE body;
  '(name, body) ← readBytes nameLen body;
  '(extraLen, body) ← readUInt16BE body;
  '(extra, body) ← readBytes extraLen body;
  Ok (PortInfo port nodeType protocol highestVersion lowestVersion
        (utf8.toString name) extra).

(** The version range a response advertises; an AliveAck has none. *)
Definition versionsOf (info : ResponseData) : option (Z * Z) :=
  match info with
  | PortInfo _ _ _ highestVersion lowestVersion _ _ =>
    Some (highestVersion, lowestVersion)
  | AliveAck _ => None
  end.

(** Modelled from the spec: the advertised range must overlap the range
    the client knows. *)
Definition checkVersions (info : ResponseData) : result DecodeError ResponseData :=
  match versionsOf info with
  | Some (highestVersion, lowestVersion) =>
    if (highestVersion <? constants.LOWEST_VERSION)
       || (lowestVersion >? constants.HIGHEST_VERSION)
    then Throw (VersionRangeError highestVersion lowestVersion)
    else Ok info
  | None => Ok info
  end.

(** Modelled from the spec: the success path of a PORT2_RESP. *)
Definition decodePort2 (body : Buffer.t) : result DecodeError ResponseData :=
  info ← readPort2 body;
  checkVersions info.

(** Modelled from the spec: [decode] of [decoder.js], which is not among
    the sources.  The first byte selects the shape; a frame too short
    for its fixed header, the empty input included, is malformed. *)
Definition decode (buf : Buffer.t) : result DecodeError Decoded :=
  '(code, rest) ← readUInt8 buf;
  if (code =? constants.ALIVE_RESP) || (code =? constants.ALIVE2_X_RESP) then
    '(status, creation) ← readUInt8 rest;
    if status =? 0 then Ok (DResponse (mkResponse code (AliveAck creation)))
    else Throw (ProtocolStatusError code status)
  else if code =? constants.PORT2_RESP then
    '(status, body) ← readUInt8 rest;
    if status =? 0 then
      info ← decodePort2 body;
      Ok (DResponse (mkResponse code info))
    else Throw (ProtocolStatusError code status)
  else Ok (DNodeList (parseNodeList (utf8.toString buf))).

End decoder.

(** ** The frame builders of [src/test/decoder.js] *)

Module test.

Definition createAliveResp (responseCode : Z) : result JsError Buffer.t :=
  buf ← Buffer.alloc 4;
  buf ← Buffer.writeUInt8 constants.ALIVE_RESP 0 buf;
  buf ← Buffer.writeUInt8 responseCode 1 buf;
  buf ← Buffer.writeUInt16BE 1 2 buf;
  Ok buf.

Definition createPort2Resp (responseCode : Z) (nodeName : jsstring)
    (port highestVersion lowestVersion : Z) : result JsError Buffer.t :=
  let nodeLength := Buffer.byteLength nodeName in
  buf ← Buffer.alloc (14 + nodeLength);
  let offset := 0 in
  buf ← Buffer.writeUInt8 constants.PORT2_RESP offset buf;
  let offset := offset + 1 in
  buf ← Buffer.writeUInt8 responseCode offset buf;
  let offset := offset + 1 in
  buf ← Buffer.writeUInt16BE port offset buf;
  let offset := offset + 2 in
  buf ← Buffer.writeUInt8 constants.NODE_TYPE_NORMAL offset buf;
  let offset := offset + 1 in
  buf ← Buffer.writeUInt8 constants.PROTOCOL_IPV4 offset buf;
  let offset := offset + 1 in
  buf ← Buffer.writeUInt16BE highestVersion offset buf;
  let offset := offset + 2 in
  buf ← Buffer.writeUInt16BE lowestVersion offset buf;
  let offset := offset + 2 in
  buf ← Buffer.writeUInt16BE nodeLength offset buf;
  let offset := offset + 2 in
  buf ← Buffer.write nodeName offset buf;
  let offset := offset + nodeLength in
  buf ← Buffer.writeUInt16BE 0 offset buf;
  Ok buf.

(** [nodes.join('\n')] *)
Fixpoint join (nodes : list jsstring) : jsstring :=
  match nodes with
  | [] => []
  | [node] => node
  | node :: nodes' => node ++ 0x0A :: join nodes'
  end.

(** [Buffer.from(nodes.join('\n'), 'utf8')] *)
Definition createNamesOrDumpResp (nodes : list jsstring) : Buffer.t :=
  utf8Bytes (join nodes).

End test.

(** ** The client *)

(** [TYPE_EVENT_MAP]: the object keyed by response opcode. *)
Definition TYPE_EVENT_MAP : gmap Z string :=
  <[constants.PORT2_RESP := "node"%string]>
    (<[constants.ALIVE2_X_RESP := "alive"%string]>
       (<[constants.ALIVE_RESP := "alive"%string]> ∅)).

Module Client.

(** The socket, as far as the client uses it: the chunks handed to
    [write], oldest first. *)
Record Socket : Type := mkSocket {
  written : list Buffer.t;
}.

(** What an event carries: the decoded value or the thrown error. *)
Inductive Payload (E : Type) : Type :=
  | Value (resp : Decoded)
  | Error (e : E).
Arguments Value {E} resp.
Arguments Error {E} e.

(** A client: its fields and the events it has emitted, oldest first.
    An event name is [None] when the emitting expression evaluates to
    [undefined]. *)
Record t (E : Type) : Type := mkClient {
  host : jsstring;
  port : Z;
  client : option Socket;
  emitted : list (option string * Payload E);
}.
Arguments mkClient {E} host port client emitted.
Arguments host {E} _.
Arguments port {E} _.
Arguments client {E} _.
Arguments emitted {E} _.

(** The methods that send a request.  Those that emit events run the
    listeners, and come with the connection, below. *)
Section methods.
Context {E : Type}.

(** [this.client.write(buf)] *)
Definition write (buf : Buffer.t) (this : t E) : result JsError (t E) :=
  match client this with
  | Some sock =>
    Ok (mkClient (host this) (port this)
          (Some (mkSocket (written sock ++ [buf]))) (emitted this))
  | None => Throw TypeError
  end.

Definition _send (req : Buffer.t) (this : t E) : result JsError (t E) :=
  buf ← encoder.requestWrapper req;
  write buf this.

Definition register (port : Z) (name : jsstring) (this : t E) : result JsError (t E) :=
  req ← encoder.alive2Request port name; _send req this.

Definition getNode (name : jsstring) (this : t E) : result JsError (t E) :=
  req ← encoder.portPleaseRequest name; _send req this.

Definition getAllNodes (this : t E) : result JsError (t E) :=
  req ← encoder.namesRequest; _send req this.

Definition dumpEpmd (this : t E) : result JsError (t E) :=
  req ← encoder.dumpRequest; _send req this.

Definition killEpmd (this : t E) : result JsError (t E) :=
  req ← encoder.killRequest; _send req this.

(** [resp.code] of a decoded value other than [false]: arrays have no
    such property. *)
Definition codeOf (resp : Decoded) : option Z :=
  match resp with
  | DResponse r => Some (code r)
  | _ => None
  end.

(** Truthiness of [resp.code]. *)
Definition truthy (c : option Z) : bool :=
  match c with
  | Some n => negb (n =? 0)
  | None => false
  end.

End methods.

End Client.

(** A connected client after one more chunk was handed to its socket. *)
Definition sent {E} (frame : Buffer.t) (sock : Client.Socket) (this : Client.t E)
  : Client.t E :=
  Client.mkClient (Client.host this) (Client.port this)
    (Some (Client.mkSocket (Client.written sock ++ [frame]))) (Client.emitted this).

(** The five requests of the client and their encoders. *)
Inductive Request : Type :=
  | Register (port : Z) (name : jsstring)
  | QueryPort (name : jsstring)
  | ListNames
  | Dump
  | Kill.

Definition encode (r : Request) : result JsError Buffer.t :=
  match r with
  | Register port name => encoder.alive2Request port name
  | QueryPort name => encoder.portPleaseRequest name
  | ListNames => encoder.namesRequest
  | Dump => encoder.dumpRequest
  | Kill => encoder.killRequest
  end.

(** The client method that issues a request. *)
Definition issue {E} (r : Request) (this : Client.t E) : result JsError (Client.t E) :=
  match r with
  | Register port name => Client.register port name this
  | QueryPort name => Client.getNode name this
  | ListNames => Client.getAllNodes this
  | Dump => Client.dumpEpmd this
  | Kill => Client.killEpmd this
  end.

(** ** The node-line grammar, in the words of the specification

    A line of a listing: [name <token> at port <digits>], the token
    optionally wrapped in [<] and [>], optionally followed by
    [, fd = <digits>]. *)

Module grammar.

(** [l] is a prefix of [s], letters compared in either case. *)
Fixpoint prefix_ci (l s : jsstring) : bool :=
  match l, s with
  | [], _ => true
  | c :: l', x :: s' => RegExp.ci c x && prefix_ci l' s'
  | _ :: _, [] => false
  end.

(** [l] occurs somewhere in [s], letters compared in either case. *)
Fixpoint occurs (l s : jsstring) : bool :=
  prefix_ci l s
  || match s with
     | [] => false
     | _ :: s' => occurs l s'
     end.

(** A character of a token: neither white space nor a bracket. *)
Definition tokenChar (c : Z) : bool :=
  negb (RegExp.space c) && negb (c =? RegExp.chr "<") && negb (c =? RegExp.chr ">").

(** The optional file-descriptor clause and the value it denotes. *)
Inductive FdClause : jsstring → option Z → Prop :=
  | fd_absent : FdClause [] None
  | fd_present (digits : jsstring) :
      digits ≠ [] →
      Forall (λ c, RegExp.digit c = true) digits →
      FdClause (js ", fd = " ++ digits) (Some (decoder.parseDecimal digits)).

(** [m] is the literal [l], letters in either case. *)
Definition same_ci (l m : jsstring) : Prop :=
  Forall2 (λ c x, RegExp.ci c x = true) l m.



(** What follows the token in a listing line. *)
Definition afterToken (gt digits clause : jsstring) : jsstring :=
  gt ++ js " at port " ++ digits ++ clause.


End grammar.

(** A name of 65536 bytes: one more than a u16 length field can say. *)
Definition longName : jsstring := replicate (Z.to_nat 65536) 0x61.

(** A client connected to a daemon, with nothing written yet, and a
    client that has not connected. *)
Definition connected : Client.t decoder.DecodeError :=
  Client.mkClient (js "localhost") 4369 (Some (Client.mkSocket [])) [].
Definition idle : Client.t decoder.DecodeError :=
  Client.mkClient (js "localhost") 4369 None [].

(** ** Connections and the module-level requests

    The methods of [Client] that emit events, [_onData], [_onConnect]
    and [_onEnd], those that open and close the connection, and the
    functions [getNode], [getAllNodes] and [dumpEpmd] of the module,
    which wrap one request in a promise.  Here the listeners run, so
    the state is the client together with what the listeners can
    change.  Conventions:
    - a step of the program is a function from the state to the state
      it leaves and the value it throws, if any; what a step did before
      it threw stays done;
    - [emit] calls the listeners of the event in the order of their
      registration, and an exception of a listener leaves [emit];
    - the socket is the environment: it calls back on connect, on
      data and on close, in any order and any number of times, and an
      exception that leaves a callback ends the run;
    - a promise is settled by the first call of [resolve] or [reject],
      or by an exception of its executor; later calls change
      nothing. *)

Module index.

(** The errors that the runtime raises in this part of the code. *)
Inductive RuntimeError : Type :=
  | Js (e : JsError)
  | ERR_SOCKET_BAD_PORT
  | ERR_UNHANDLED_ERROR.

Section program.
Context {E : Type}.

(** The values that can be thrown are the errors of the decoder and
    those of the runtime. *)
Variable thrown : RuntimeError → E.

(** The decoder the client is linked with. *)
Variable decode : Buffer.t → result E Decoded.

Inductive Promise : Type :=
  | Pending
  | Fulfilled (value : option (Client.Payload E))
  | Rejected (reason : option (Client.Payload E)).

(** The state of one call of a module-level request: the client [c]
    it creates, whether [destroy] has been called on the socket of the
    client, the events emitted without an argument, and the promise it
    returns. *)
Record World : Type := mkWorld {
  c : Client.t E;
  destroyed : bool;
  signals : list (option string);
  promise : Promise;
}.

Definition Action : Type := World → World * option E.

Definition skip : Action := λ w, (w, None).

Definition throw (e : E) : Action := λ w, (w, Some e).

(** [a; b] *)
Definition seq (a b : Action) : Action := λ w,
  match a w with
  | (w', None) => b w'
  | (w', Some e) => (w', Some e)
  end.

(** [try { a } catch (e) { handler }] *)
Definition try (a : Action) (handler : E → Action) : Action := λ w,
  match a w with
  | (w', None) => (w', None)
  | (w', Some e) => handler e w'
  end.

(** A method of [Client] run on [c]: when it throws it has changed
    nothing. *)
Definition method (f : Client.t E → result JsError (Client.t E)) : Action := λ w,
  match f (c w) with
  | Ok this => (mkWorld this (destroyed w) (signals w) (promise w), None)
  | Throw e => (w, Some (thrown (Js e)))
  end.

(** *** Promises *)

Definition settle (p : Promise) (w : World) : World :=
  match promise w with
  | Pending => mkWorld (c w) (destroyed w) (signals w) p
  | _ => w
  end.

Definition resolve (value : option (Client.Payload E)) : Action := λ w,
  (settle (Fulfilled value) w, None).

Definition reject (reason : option (Client.Payload E)) : Action := λ w,
  (settle (Rejected reason) w, None).

(** *** EventEmitter *)

(** A listener takes the argument of [emit], [None] when there is
    none. *)
Definition Listeners : Type :=
  option string → list (option (Client.Payload E) → Action).

Fixpoint callAll (fs : list (option (Client.Payload E) → Action))
    (arg : option (Client.Payload E)) : Action :=
  match fs with
  | [] => skip
  | f :: fs' => seq (f arg) (callAll fs' arg)
  end.

(** The trace of the model: an event with an argument is appended to
    the events of the client, one without to the signals. *)
Definition record (event : option string) (arg : option (Client.Payload E))
    (w : World) : World :=
  match arg with
  | Some payload =>
    mkWorld
      (Client.mkClient (Client.host (c w)) (Client.port (c w)) (Client.client (c w))
         (Client.emitted (c w) ++ [(event, payload)]))
      (destroyed w) (signals w) (promise w)
  | None => mkWorld (c w) (destroyed w) (signals w ++ [event]) (promise w)
  end.

(** [this.emit(event, arg)]; an ['error'] event without a listener is
    thrown. *)
Definition emit (on : Listeners) (event : option string)
    (arg : option (Client.Payload E)) : Action :=
  seq (λ w, (record event arg w, None))
    (match on event with
     | [] =>
       if decide (event = Some "error"%string) then
         match arg with
         | Some (Client.Error e) => throw e
         | _ => throw (thrown ERR_UNHANDLED_ERROR)
         end
       else skip
     | fs => callAll fs arg
     end).

(** *** The methods of [Client] *)

(** [connect()]: [net.connect] checks the port and returns a socket at
    once; the socket gets the callbacks [_onConnect], [_onData] and
    [_onEnd], which [callback] below dispatches. *)
Definition connect : Action := λ w,
  let this := c w in
  if (0 <=? Client.port this) && (Client.port this <? 65536) then
    (mkWorld
       (Client.mkClient (Client.host this) (Client.port this)
          (Some (Client.mkSocket [])) (Client.emitted this))
       false (signals w) (promise w), None)
  else (w, Some (thrown ERR_SOCKET_BAD_PORT)).

(** [end()] *)
Definition end_ : Action := λ w,
  match Client.client (c w) with
  | Some _ => (mkWorld (c w) true (signals w) (promise w), None)
  | None => (w, Some (thrown (Js TypeError)))
  end.

Definition _onEnd (on : Listeners) : Action := emit on (Some "end"%string) None.

Definition _onConnect (on : Listeners) : Action := emit on (Some "connect"%string) None.

(** [_onData(data)]: the call of the decoder and the [emit] of what it
    returns are inside the [try]; the [emit] of the [catch] is not. *)
Definition _onData (on : Listeners) (data : Buffer.t) : Action := λ w,
  match decode data with
  | Ok resp =>
    match resp with
    | DFalse => (w, None)
    | _ =>
      try
        (if Client.truthy (Client.codeOf resp)
         then emit on (c ← Client.codeOf resp; TYPE_EVENT_MAP !! c)
                (Some (Client.Value resp))
         else emit on (Some "nodeinfo"%string) (Some (Client.Value resp)))
        (λ e, emit on (Some "error"%string) (Some (Client.Error e))) w
    end
  | Throw e => emit on (Some "error"%string) (Some (Client.Error e)) w
  end.

(** *** The module-level requests *)

(** [new Promise(executor)] around [new Client(host, epmdPort)]: the
    state when the call returns. *)
Definition newPromise (host : jsstring) (epmdPort : Z) (executor : Action) : World :=
  (try executor (λ e, reject (Some (Client.Error e)))
     (mkWorld (Client.mkClient host epmdPort None []) false [] Pending)).1.

(** Each request is its table of listeners, [c.on(...)], and the state
    in which the call returns: the listeners are registered first, then
    [c.connect()] runs. *)
Definition getNode_on (name : jsstring) : Listeners := λ event,
  if decide (event = Some "connect"%string) then [λ _, method (Client.getNode name)]
  else if decide (event = Some "node"%string) then [λ node, seq end_ (resolve node)]
  else if decide (event = Some "error"%string) then [λ err, seq end_ (reject err)]
  else [].

Definition getNode (host : jsstring) (epmdPort : Z) (name : jsstring) : World :=
  newPromise host epmdPort connect.

Definition getAllNodes_on : Listeners := λ event,
  if decide (event = Some "connect"%string) then [λ _, method Client.getAllNodes]
  else if decide (event = Some "nodeinfo"%string) then [λ nodes, seq end_ (resolve nodes)]
  else if decide (event = Some "error"%string) then [λ err, seq end_ (reject err)]
  else [].

Definition getAllNodes (host : jsstring) (epmdPort : Z) : World :=
  newPromise host epmdPort connect.

Definition dumpEpmd_on : Listeners := λ event,
  if decide (event = Some "connect"%string) then [λ _, method Client.dumpEpmd]
  else if decide (event = Some "nodeinfo"%string) then [λ nodes, seq end_ (resolve nodes)]
  else if decide (event = Some "error"%string) then [λ err, seq end_ (reject err)]
  else [].

Definition dumpEpmd (host : jsstring) (epmdPort : Z) : World :=
  newPromise host epmdPort connect.

(** *** The socket calling back *)

Inductive NetEvent : Type :=
  | Connected
  | Data (data : Buffer.t)
  | Closed.

Definition callback (on : Listeners) (ev : NetEvent) : Action :=
  match ev with
  | Connected => _onConnect on
  | Data data => _onData on data
  | Closed => _onEnd on
  end.

Fixpoint run (on : Listeners) (evs : list NetEvent) : Action :=
  match evs with
  | [] => skip
  | ev :: evs' => seq (callback on ev) (run on evs')
  end.

End program.

End index.

(** The client linked with the decoder above, for examples: what can
    be thrown is an error of the runtime or an error of the decoder. *)
Module linked.

Definition thrown (e : index.RuntimeError) : index.RuntimeError + decoder.DecodeError :=
  inl e.

Definition decode (data : Buffer.t)
  : result (index.RuntimeError + decoder.DecodeError) Decoded :=
  match decoder.decode data with
  | Ok resp => Ok resp
  | Throw e => Throw (inr e)
  end.

(** A new client for the daemon of this host, before [connect], and
    two tables of listeners: none registered, and one listener of
    ['alive'] that throws. *)
Definition fresh : index.World (E := index.RuntimeError + decoder.DecodeError) :=
  index.mkWorld (Client.mkClient (js "localhost") 4369 None []) false [] index.Pending.

Definition noListeners : index.Listeners (E := index.RuntimeError + decoder.DecodeError) :=
  λ _, [].

Definition failing : index.Listeners (E := index.RuntimeError + decoder.DecodeError) :=
  λ event,
    if decide (event = Some "alive"%string)
    then [λ _, index.throw (thrown (index.Js TypeError))]
    else [].

End linked.

(** * Properties *)

(** ** Facts about the Buffer model *)

Section buffer_facts.

Implicit Types (buf pre post mid : Buffer.t) (s : jsstring).

Lemma length_nonneg buf : 0 ≤ Buffer.length buf.
Proof. unfold Buffer.length. lia. Qed.

Lemma to_nat_length buf : Z.to_nat (Buffer.length buf) = length buf.
Proof. unfold Buffer.length. apply Nat2Z.id. Qed.

Lemma length_app_Z pre post :
  Buffer.length (pre ++ post) = Buffer.length pre + Buffer.length post.
Proof. unfold Buffer.length. rewrite length_app. lia. Qed.

Lemma length_cons_Z x buf : Buffer.length (x :: buf) = 1 + Buffer.length buf.
Proof. unfold Buffer.length. simpl. lia. Qed.

Lemma alloc_ok n : 0 ≤ n → Buffer.alloc n = Ok (replicate (Z.to_nat n) 0).
Proof.
  intros Hn. unfold Buffer.alloc.
  destruct (Z.ltb_spec n 0); [lia | reflexivity].
Qed.

Lemma alloc_split a b :
  0 ≤ a → 0 ≤ b →
  Buffer.alloc (a + b) = Ok (replicate (Z.to_nat a) 0 ++ replicate (Z.to_nat b) 0).
Proof.
  intros Ha Hb. rewrite alloc_ok by lia.
  by rewrite Z2Nat.inj_add, replicate_add by lia.
Qed.

Lemma alloc_split_list a b :
  0 ≤ a → 0 ≤ b →
  replicate (Z.to_nat (a + b)) 0 = replicate (Z.to_nat a) 0 ++ replicate (Z.to_nat b) 0.
Proof. intros Ha Hb. by rewrite Z2Nat.inj_add, replicate_add by lia. Qed.

Lemma checkBounds_ok buf offset n :
  0 ≤ offset → offset + n < Buffer.length buf →
  Buffer.checkBounds buf offset n = Ok ().
Proof.
  intros H0 H1. unfold Buffer.checkBounds.
  destruct (Z.leb_spec 0 offset); [|lia].
  destruct (Z.ltb_spec (offset + n) (Buffer.length buf)); [reflexivity | lia].
Qed.

Lemma store_middle pre x post v :
  Buffer.store (pre ++ x :: post) (Buffer.length pre) v = pre ++ v mod 256 :: post.
Proof.
  unfold Buffer.store, Buffer.length. rewrite Nat2Z.id.
  replace (length pre) with (length pre + 0)%nat at 1 by lia.
  by rewrite insert_app_r.
Qed.

(** The integer writers, framed: they change the bytes they address and
    nothing else. *)
Lemma writeUInt8_at v offset pre x post :
  offset = Buffer.length pre → 0 ≤ v ≤ 255 →
  Buffer.writeUInt8 v offset (pre ++ x :: post) = Ok (pre ++ v :: post).
Proof.
  intros -> Hv. unfold Buffer.writeUInt8.
  destruct (Z.gtb_spec v 255); [lia|]. destruct (Z.ltb_spec v 0); [lia|]. simpl.
  rewrite checkBounds_ok.
  - simpl. rewrite store_middle. by rewrite Z.mod_small by lia.
  - apply length_nonneg.
  - rewrite length_app_Z, length_cons_Z. pose proof (length_nonneg post). lia.
Qed.

Lemma writeUInt16BE_at v offset pre x y post :
  offset = Buffer.length pre → 0 ≤ v ≤ 65535 →
  Buffer.writeUInt16BE v offset (pre ++ x :: y :: post)
  = Ok (pre ++ v / 256 :: v mod 256 :: post).
Proof.
  intros -> Hv. unfold Buffer.writeUInt16BE.
  destruct (Z.gtb_spec v 65535); [lia|]. destruct (Z.ltb_spec v 0); [lia|]. simpl.
  rewrite checkBounds_ok.
  - simpl. rewrite store_middle.
    replace (pre ++ Z.shiftr v 8 mod 256 :: y :: post)
      with ((pre ++ [Z.shiftr v 8 mod 256]) ++ y :: post) by by rewrite <-app_assoc.
    replace (Buffer.length pre + 1) with (Buffer.length (pre ++ [Z.shiftr v 8 mod 256]))
      by (rewrite length_app_Z; reflexivity).
    rewrite store_middle, <-app_assoc. simpl.
    rewrite Z.shiftr_div_pow2 by lia. change (2 ^ 8) with 256.
    rewrite (Z.mod_small (v / 256)); [reflexivity|].
    split; [apply Z.div_pos; lia | apply Z.div_lt_upper_bound; lia].
  - apply length_nonneg.
  - rewrite length_app_Z, !length_cons_Z. pose proof (length_nonneg post). lia.
Qed.

Lemma writeUInt16BE_value_range v offset buf :
  65535 < v → Buffer.writeUInt16BE v offset buf = Throw ERR_OUT_OF_RANGE.
Proof.
  intros Hv. unfold Buffer.writeUInt16BE.
  destruct (Z.gtb_spec v 65535); [reflexivity | lia].
Qed.

(** A string that fits is written whole. *)
Lemma utf8Fit_all chars room :
  Buffer.length (concat chars) ≤ room → Buffer.utf8Fit chars room = concat chars.
Proof.
  revert room. induction chars as [|c chars IH]; intros room Hroom; [reflexivity|].
  simpl in *. rewrite length_app_Z in Hroom.
  pose proof (length_nonneg (concat chars)).
  destruct (Z.leb_spec (Buffer.length c) room); [|lia].
  rewrite IH by lia. reflexivity.
Qed.

Lemma list_inserts_middle (pre mid post k : list Z) :
  length k = length mid →
  list_inserts (length pre) k (pre ++ mid ++ post) = pre ++ k ++ post.
Proof.
  intros Hk. replace (length pre) with (length pre + 0)%nat by lia.
  by rewrite list_inserts_app_r, list_inserts_0_r.
Qed.

Lemma write_at s offset pre mid post :
  offset = Buffer.length pre →
  Buffer.length mid = Buffer.byteLength s →
  Buffer.write s offset (pre ++ mid ++ post) = Ok (pre ++ utf8Bytes s ++ post).
Proof.
  unfold Buffer.byteLength. intros -> Hmid. unfold Buffer.write.
  pose proof (length_nonneg pre). pose proof (length_nonneg post).
  pose proof (length_nonneg mid).
  destruct (Z.ltb_spec (Buffer.length pre) 0); [lia|].
  rewrite !length_app_Z.
  destruct (Z.ltb_spec (Buffer.length pre + (Buffer.length mid + Buffer.length post))
              (Buffer.length pre)); [lia|]. simpl.
  rewrite utf8Fit_all by (fold (utf8Bytes s); lia). fold (utf8Bytes s).
  rewrite to_nat_length, list_inserts_middle; [reflexivity|].
  unfold Buffer.length in Hmid. lia.
Qed.

Lemma copy_at source pre targetStart :
  targetStart = Buffer.length pre →
  Buffer.copy source (pre ++ replicate (length source) 0) targetStart 0
  = Ok (pre ++ source).
Proof.
  intros ->. unfold Buffer.copy.
  pose proof (length_nonneg pre). pose proof (length_nonneg source).
  destruct (Z.ltb_spec (Buffer.length pre) 0); [lia|].
  destruct (Z.ltb_spec (Buffer.length source) 0); [lia|]. simpl.
  rewrite length_app_Z.
  assert (Hrep : Buffer.length (replicate (length source) 0) = Buffer.length source).
  { unfold Buffer.length. by rewrite length_replicate. }
  rewrite Hrep.
  destruct (Z.leb_spec (Buffer.length pre + Buffer.length source) (Buffer.length pre)).
  - simpl. assert (source = []) as ->.
    { destruct source; [done|]. unfold Buffer.length in *. simpl in *. lia. }
    reflexivity.
  - destruct (Z.leb_spec (Buffer.length source) 0); [lia|]. simpl.
    replace (Z.min (Buffer.length source - 0)
               (Buffer.length pre + Buffer.length source - Buffer.length pre))
      with (Buffer.length source) by lia.
    rewrite !to_nat_length.
    change (Z.to_nat 0) with 0%nat. rewrite drop_0, take_ge by lia.
    rewrite <-(app_nil_r (replicate _ _)), list_inserts_middle, app_nil_r;
      [reflexivity | by rewrite length_replicate].
Qed.

Lemma set_empty_at offset buf :
  offset = Buffer.length buf → Buffer.set [] offset buf = Ok buf.
Proof.
  intros ->. unfold Buffer.set. pose proof (length_nonneg buf).
  destruct (Z.ltb_spec (Buffer.length buf) 0); [lia|].
  change (Buffer.length []) with 0.
  destruct (Z.ltb_spec (Buffer.length buf) (0 + Buffer.length buf)); [lia|].
  reflexivity.
Qed.

End buffer_facts.

(** [rewrite_frame lem] rewrites with a framed writer lemma whose prefix
    is a literal list, once its offset and buffer are in evaluated form. *)
Ltac rewrite_frame lem :=
  let E := fresh "E" in
  pose proof lem as E;
  cbn [app] in E; rewrite E; clear E.

(** ** The request encoder *)

Section encoder_facts.

Implicit Types (req : Buffer.t) (nodeName : jsstring).

Lemma byteLength_nonneg nodeName : 0 ≤ Buffer.byteLength nodeName.
Proof. apply length_nonneg. Qed.

Lemma replicate_byteLength nodeName :
  Buffer.length (replicate (Z.to_nat (Buffer.byteLength nodeName)) 0)
  = Buffer.byteLength nodeName.
Proof.
  pose proof (byteLength_nonneg nodeName).
  unfold Buffer.length at 1. rewrite length_replicate. lia.
Qed.

(** The frame [requestWrapper] builds for a payload that fits a u16. *)
Lemma requestWrapper_ok req :
  Buffer.length req ≤ 65535 →
  encoder.requestWrapper req
  = Ok (Buffer.length req / 256 :: Buffer.length req mod 256 :: req).
Proof.
  intros Hlen. pose proof (length_nonneg req). unfold encoder.requestWrapper.
  rewrite alloc_split by lia. simpl. rewrite to_nat_length.
  rewrite_frame (writeUInt16BE_at (Buffer.length req) 0 [] 0 0
                   (replicate (length req) 0) eq_refl ltac:(lia)).
  simpl.
  rewrite_frame (copy_at req [Buffer.length req / 256; Buffer.length req mod 256]
                   2 eq_refl).
  reflexivity.
Qed.

Lemma requestWrapper_prefix req :
  Buffer.length req ≤ 65535 →
  ∃ b0 b1,
    encoder.requestWrapper req = Ok (b0 :: b1 :: req)
    ∧ 0 ≤ b0 < 256 ∧ 0 ≤ b1 < 256
    ∧ 256 * b0 + b1 = Buffer.length req.
Proof.
  intros Hlen. pose proof (length_nonneg req) as Hnn.
  exists (Buffer.length req / 256), (Buffer.length req mod 256).
  split; [by apply requestWrapper_ok|].
  split; [split; [apply Z.div_pos; lia | apply Z.div_lt_upper_bound; lia]|].
  split; [apply Z.mod_pos_bound; lia|].
  rewrite (Z.div_mod (Buffer.length req) 256) at 3 by lia. reflexivity.
Qed.

Lemma requestWrapper_too_long req :
  65535 < Buffer.length req → encoder.requestWrapper req = Throw ERR_OUT_OF_RANGE.
Proof.
  intros Hlen. pose proof (length_nonneg req). unfold encoder.requestWrapper.
  rewrite alloc_ok by lia. simpl.
  by rewrite writeUInt16BE_value_range.
Qed.

(** The QueryPort payload: the opcode and then the whole name. *)
Lemma portPleaseRequest_ok nodeName :
  encoder.portPleaseRequest nodeName = Ok (122 :: utf8Bytes nodeName).
Proof.
  pose proof (byteLength_nonneg nodeName). unfold encoder.portPleaseRequest.
  cbv zeta.
  replace (2 + (Buffer.byteLength nodeName - 1))
    with (1 + Buffer.byteLength nodeName) by lia.
  rewrite alloc_split by lia. change (Z.to_nat 1) with 1%nat. cbn [replicate app mbind result_bind].
  set (zeros := replicate (Z.to_nat (Buffer.byteLength nodeName)) 0).
  rewrite_frame (writeUInt8_at constants.PORT_PLEASE2_REQ 0 [] 0 zeros
                   eq_refl ltac:(unfold constants.PORT_PLEASE2_REQ; lia)).
  cbn [mbind result_bind].
  rewrite <-(app_nil_r zeros).
  rewrite_frame (write_at nodeName 1 [constants.PORT_PLEASE2_REQ] zeros []
                   eq_refl (replicate_byteLength nodeName)).
  by rewrite app_nil_r.
Qed.

(** The Register payload for a port and a name length that fit a u16. *)
Lemma alive2Request_ok port nodeName :
  0 ≤ port ≤ 65535 →
  Buffer.byteLength nodeName ≤ 65535 →
  encoder.alive2Request port nodeName
  = Ok ([120; port / 256; port mod 256; 77; 0; 0; 6; 0; 5;
         Buffer.byteLength nodeName / 256; Buffer.byteLength nodeName mod 256]
        ++ utf8Bytes nodeName ++ [0; 0]).
Proof.
  intros Hport Hlen. pose proof (byteLength_nonneg nodeName) as Hnn.
  unfold encoder.alive2Request. cbv zeta.
  set (L := Buffer.byteLength nodeName) in *.
  change (Buffer.alloc 0) with (Ok (E:=JsError) (@nil Z)).
  cbn [mbind result_bind]. change (Buffer.length []) with 0.
  replace (1 + 2 + 1 + 1 + 2 + 2 + 2 + L + 2 + 0) with (11 + (L + 2)) by lia.
  rewrite alloc_split, (alloc_split_list L 2) by lia.
  change (Z.to_nat 11) with 11%nat. change (Z.to_nat 2) with 2%nat.
  cbn [replicate app mbind result_bind].
  set (zeros := replicate (Z.to_nat L) 0).
  set (post := zeros ++ [0; 0]).
  rewrite_frame (writeUInt8_at constants.ALIVE2_REQ 0 [] 0
    (0 :: 0 :: 0 :: 0 :: 0 :: 0 :: 0 :: 0 :: 0 :: 0 :: post)
    eq_refl ltac:(unfold constants.ALIVE2_REQ; lia)).
  cbn [mbind result_bind].
  rewrite_frame (writeUInt16BE_at port 1 [constants.ALIVE2_REQ] 0 0
    (0 :: 0 :: 0 :: 0 :: 0 :: 0 :: 0 :: 0 :: post) eq_refl Hport).
  cbn [mbind result_bind].
  rewrite_frame (writeUInt8_at constants.NODE_TYPE_NORMAL 3
    [constants.ALIVE2_REQ; port / 256; port mod 256] 0
    (0 :: 0 :: 0 :: 0 :: 0 :: 0 :: 0 :: post)
    eq_refl ltac:(unfold constants.NODE_TYPE_NORMAL; lia)).
  cbn [mbind result_bind].
  rewrite_frame (writeUInt8_at constants.PROTOCOL_IPV4 4
    [constants.ALIVE2_REQ; port / 256; port mod 256; constants.NODE_TYPE_NORMAL] 0
    (0 :: 0 :: 0 :: 0 :: 0 :: 0 :: post)
    eq_refl ltac:(unfold constants.PROTOCOL_IPV4; lia)).
  cbn [mbind result_bind].
  rewrite_frame (writeUInt16BE_at 6 5
    [constants.ALIVE2_REQ; port / 256; port mod 256; constants.NODE_TYPE_NORMAL;
     constants.PROTOCOL_IPV4] 0 0
    (0 :: 0 :: 0 :: 0 :: post) eq_refl ltac:(lia)).
  cbn [mbind result_bind].
  rewrite_frame (writeUInt16BE_at 5 7
    [constants.ALIVE2_REQ; port / 256; port mod 256; constants.NODE_TYPE_NORMAL;
     constants.PROTOCOL_IPV4; 6 / 256; 6 mod 256] 0 0
    (0 :: 0 :: post) eq_refl ltac:(lia)).
  cbn [mbind result_bind].
  rewrite_frame (writeUInt16BE_at L 9
    [constants.ALIVE2_REQ; port / 256; port mod 256; constants.NODE_TYPE_NORMAL;
     constants.PROTOCOL_IPV4; 6 / 256; 6 mod 256; 5 / 256; 5 mod 256] 0 0
    post eq_refl ltac:(lia)).
  cbn [mbind result_bind].
  set (header := [constants.ALIVE2_REQ; port / 256; port mod 256;
                  constants.NODE_TYPE_NORMAL; constants.PROTOCOL_IPV4;
                  6 / 256; 6 mod 256; 5 / 256; 5 mod 256; L / 256; L mod 256]).
  change (?a :: ?b :: ?c :: ?d :: ?e :: ?f :: ?g :: ?h :: ?i :: ?j :: ?k :: post)
    with (header ++ zeros ++ [0; 0]).
  rewrite (write_at nodeName 11 header zeros [0; 0] eq_refl
             (replicate_byteLength nodeName)).
  cbn [mbind result_bind].
  rewrite (app_assoc header (utf8Bytes nodeName) [0; 0]).
  rewrite (writeUInt16BE_at 0 (11 + L) (header ++ utf8Bytes nodeName) 0 0 []);
    [| rewrite length_app_Z; reflexivity | lia].
  cbn [mbind result_bind].
  rewrite set_empty_at.
  - by rewrite <-app_assoc.
  - rewrite !length_app_Z. change (Buffer.length header) with 11.
    fold (Buffer.byteLength nodeName). fold L.
    change (Buffer.length [0 / 256; 0 mod 256]) with 2. lia.
Qed.

End encoder_facts.

(** ** Claims about the request encoder *)

(** C1: for every payload of at most 65535 bytes, [requestWrapper]
    returns a buffer of length 2 + the payload length, whose first two
    bytes are the payload length as a big-endian u16 and whose remaining
    bytes are the payload. *)
Theorem C1_requestWrapper_length_prefix (p : Buffer.t) :
  Buffer.length p ≤ 65535 →
  ∃ b0 b1,
    encoder.requestWrapper p = Ok (b0 :: b1 :: p)
    ∧ Buffer.length (b0 :: b1 :: p) = 2 + Buffer.length p
    ∧ 0 ≤ b0 < 256 ∧ 0 ≤ b1 < 256
    ∧ 256 * b0 + b1 = Buffer.length p.
Proof.
  intros Hlen.
  destruct (requestWrapper_prefix p Hlen) as (b0 & b1 & Heq & Hb0 & Hb1 & Hval).
  exists b0, b1. rewrite !length_cons_Z. repeat split; (assumption || lia).
Qed.

Lemma C1_witness :
  Buffer.length [1; 2; 3] ≤ 65535
  ∧ ∃ b0 b1,
      encoder.requestWrapper [1; 2; 3] = Ok [b0; b1; 1; 2; 3]
      ∧ Buffer.length [b0; b1; 1; 2; 3] = 2 + Buffer.length [1; 2; 3]
      ∧ 0 ≤ b0 < 256 ∧ 0 ≤ b1 < 256
      ∧ 256 * b0 + b1 = Buffer.length [1; 2; 3].
Proof.
  assert (H : Buffer.length [1; 2; 3] ≤ 65535) by (vm_compute; discriminate).
  split; [exact H | exact (C1_requestWrapper_length_prefix [1; 2; 3] H)].
Defined.

(** C2, as the code has it: for every non-empty name, [portPleaseRequest]
    allocates as many bytes beyond the opcode byte as the name has
    (2 + (byteLength - 1) in all), writes opcode 122 at offset 0 and the
    whole name from offset 1, with no length field. *)
Theorem C2_portPleaseRequest_layout (nodeName : jsstring) :
  nodeName ≠ [] →
  ∃ req,
    encoder.portPleaseRequest nodeName = Ok req
    ∧ Buffer.length req = 1 + Buffer.byteLength nodeName
    ∧ req !! 0%nat = Some constants.PORT_PLEASE2_REQ
    ∧ drop 1 req = utf8Bytes nodeName.
Proof.
  intros _. exists (122 :: utf8Bytes nodeName).
  split; [apply portPleaseRequest_ok|].
  split; [by rewrite length_cons_Z|]. done.
Qed.

Lemma C2_witness :
  js "testing" ≠ []
  ∧ ∃ req,
      encoder.portPleaseRequest (js "testing") = Ok req
      ∧ Buffer.length req = 1 + Buffer.byteLength (js "testing")
      ∧ req !! 0%nat = Some constants.PORT_PLEASE2_REQ
      ∧ drop 1 req = utf8Bytes (js "testing").
Proof.
  assert (H : js "testing" ≠ []) by (vm_compute; discriminate).
  split; [exact H | exact (C2_portPleaseRequest_layout (js "testing") H)].
Defined.

(** C2 as stated fails: for the one-byte name "a" the buffer has one
    byte beyond the opcode, not zero. *)
Lemma C2_counterexample :
  js "a" ≠ []
  ∧ encoder.portPleaseRequest (js "a") = Ok [122; 97]
  ∧ Buffer.length [122; 97] - 1 ≠ Buffer.byteLength (js "a") - 1.
Proof. vm_compute. repeat split; discriminate. Qed.

(** C5: for every valid input, a port in [0, 65535] and a non-empty
    name whose UTF-8 length fits the 16-bit length field of the layout,
    [alive2Request] returns opcode 120, the port, node type 77,
    protocol 0, versions 6 and 5, the byte length of the name, the UTF-8
    bytes of the name and an empty extra field of length 0:
    13 + byteLength bytes in all. *)
Theorem C5_alive2Request_layout (port : Z) (nodeName : jsstring) :
  0 ≤ port ≤ 65535 →
  nodeName ≠ [] →
  Buffer.byteLength nodeName ≤ 65535 →
  ∃ p0 p1 n0 n1 req,
    encoder.alive2Request port nodeName = Ok req
    ∧ req = [120; p0; p1; 77; 0; 0; 6; 0; 5; n0; n1] ++ utf8Bytes nodeName ++ [0; 0]
    ∧ 0 ≤ p0 < 256 ∧ 0 ≤ p1 < 256 ∧ 256 * p0 + p1 = port
    ∧ 0 ≤ n0 < 256 ∧ 0 ≤ n1 < 256 ∧ 256 * n0 + n1 = Buffer.byteLength nodeName
    ∧ Buffer.length req = 13 + Buffer.byteLength nodeName.
Proof.
  intros Hport _ Hlen. pose proof (byteLength_nonneg nodeName) as Hnn.
  exists (port / 256), (port mod 256),
    (Buffer.byteLength nodeName / 256), (Buffer.byteLength nodeName mod 256).
  eexists. split; [by apply alive2Request_ok|]. split; [reflexivity|].
  assert (Hu16 : ∀ v, 0 ≤ v ≤ 65535 →
            0 ≤ v / 256 < 256 ∧ 0 ≤ v mod 256 < 256 ∧ 256 * (v / 256) + v mod 256 = v).
  { intros v Hv. split; [split; [apply Z.div_pos; lia | apply Z.div_lt_upper_bound; lia]|].
    split; [apply Z.mod_pos_bound; lia|]. symmetry. apply Z.div_mod. lia. }
  destruct (Hu16 port Hport) as (? & ? & ?).
  destruct (Hu16 (Buffer.byteLength nodeName) ltac:(lia)) as (? & ? & ?).
  repeat (split; [assumption|]).
  rewrite !length_app_Z. fold (Buffer.byteLength nodeName).
  change (Buffer.length [120; _; _; 77; 0; 0; 6; 0; 5; _; _]) with 11.
  change (Buffer.length [0; 0]) with 2. lia.
Qed.

Lemma C5_witness :
  0 ≤ 1337 ≤ 65535 ∧ js "testing" ≠ [] ∧ Buffer.byteLength (js "testing") ≤ 65535
  ∧ ∃ p0 p1 n0 n1 req,
      encoder.alive2Request 1337 (js "testing") = Ok req
      ∧ req = [120; p0; p1; 77; 0; 0; 6; 0; 5; n0; n1]
              ++ utf8Bytes (js "testing") ++ [0; 0]
      ∧ 0 ≤ p0 < 256 ∧ 0 ≤ p1 < 256 ∧ 256 * p0 + p1 = 1337
      ∧ 0 ≤ n0 < 256 ∧ 0 ≤ n1 < 256
      ∧ 256 * n0 + n1 = Buffer.byteLength (js "testing")
      ∧ Buffer.length req = 13 + Buffer.byteLength (js "testing").
Proof.
  assert (H1 : 0 ≤ 1337 ≤ 65535) by lia.
  assert (H2 : js "testing" ≠ []) by (vm_compute; discriminate).
  assert (H3 : Buffer.byteLength (js "testing") ≤ 65535) by (vm_compute; discriminate).
  repeat (split; [assumption|]).
  exact (C5_alive2Request_layout 1337 (js "testing") H1 H2 H3).
Defined.

(** A name beyond the 16-bit length field is not a valid input: the
    u16 writer of the name length rejects a name of 65536 bytes. *)
Example alive2Request_rejects_longName :
  0 ≤ 4369 ≤ 65535 ∧ longName ≠ []
  ∧ encoder.alive2Request 4369 longName = Throw ERR_OUT_OF_RANGE.
Proof.
  split; [lia|]. split.
  - intros H. apply (f_equal length) in H. unfold longName in H.
    rewrite length_replicate in H. change (length (@nil Z)) with 0%nat in H. lia.
  - vm_compute. reflexivity.
Qed.

(** C9: [portPleaseRequest] returns a buffer for every name; for the
    empty name it allocates 2 + (0 - 1) = 1 byte, the write of the name
    at offset 1 writes nothing, and the result is the single byte 122. *)
Theorem C9_portPleaseRequest_total :
  (∀ nodeName : jsstring, ∃ req, encoder.portPleaseRequest nodeName = Ok req)
  ∧ Buffer.byteLength [] = 0
  ∧ Buffer.alloc (2 + (Buffer.byteLength [] - 1)) = Ok [0]
  ∧ Buffer.write [] 1 [constants.PORT_PLEASE2_REQ] = Ok [constants.PORT_PLEASE2_REQ]
  ∧ encoder.portPleaseRequest [] = Ok [122].
Proof.
  split; [intros nodeName; eexists; apply portPleaseRequest_ok|].
  repeat split.
Qed.

(** C10: for every payload longer than 65535 bytes [requestWrapper]
    throws, the u16 writer rejecting the length; so a frame it returns
    always carries its payload's byte length as prefix. *)
Theorem C10_requestWrapper_rejects_long (p : Buffer.t) :
  (65535 < Buffer.length p → encoder.requestWrapper p = Throw ERR_OUT_OF_RANGE)
  ∧ (∀ frame, encoder.requestWrapper p = Ok frame →
       ∃ b0 b1, frame = b0 :: b1 :: p
         ∧ 0 ≤ b0 < 256 ∧ 0 ≤ b1 < 256 ∧ 256 * b0 + b1 = Buffer.length p).
Proof.
  split; [apply requestWrapper_too_long|].
  intros frame Hframe.
  destruct (Z.le_gt_cases (Buffer.length p) 65535) as [Hle|Hgt].
  - destruct (requestWrapper_prefix p Hle) as (b0 & b1 & Heq & ? & ? & ?).
    rewrite Heq in Hframe. injection Hframe as <-. by exists b0, b1.
  - rewrite requestWrapper_too_long in Hframe by lia. discriminate.
Qed.

Lemma C10_witness :
  (65535 < Buffer.length longName
   ∧ encoder.requestWrapper longName = Throw ERR_OUT_OF_RANGE)
  ∧ (encoder.requestWrapper [7] = Ok [0; 1; 7]
     ∧ ∃ b0 b1, [0; 1; 7] = [b0; b1; 7]
         ∧ 0 ≤ b0 < 256 ∧ 0 ≤ b1 < 256 ∧ 256 * b0 + b1 = Buffer.length [7]).
Proof.
  assert (H1 : 65535 < Buffer.length longName) by (vm_compute; reflexivity).
  assert (H2 : encoder.requestWrapper [7] = Ok [0; 1; 7]) by (vm_compute; reflexivity).
  split.
  - split; [exact H1 | exact (proj1 (C10_requestWrapper_rejects_long longName) H1)].
  - split; [exact H2 | exact (proj2 (C10_requestWrapper_rejects_long [7]) [0; 1; 7] H2)].
Defined.

(** ** Claims about the client *)

Section client_facts.
Context {E : Type}.
Implicit Types (this : Client.t E) (sock : Client.Socket).

Lemma _send_connected req sock this :
  Client.client this = Some sock →
  Client._send req this
  = (frame ← encoder.requestWrapper req; Ok (sent frame sock this)).
Proof.
  intros Hsock. unfold Client._send, Client.write. rewrite Hsock. reflexivity.
Qed.

Lemma issue_unfold (r : Request) this :
  issue r this = (payload ← encode r; Client._send payload this).
Proof. by destruct r. Qed.

End client_facts.

(** C8: every request the client issues is written to the socket as
    one chunk, the encoder's payload behind its own u16 length: the
    wrapper is applied to each of the five payloads, and once. *)
Theorem C8_every_request_wrapped_once {E : Type} (r : Request)
    (this this' : Client.t E) (sock : Client.Socket) :
  Client.client this = Some sock →
  issue r this = Ok this' ↔
  ∃ payload b0 b1,
    encode r = Ok payload
    ∧ encoder.requestWrapper payload = Ok (b0 :: b1 :: payload)
    ∧ 256 * b0 + b1 = Buffer.length payload
    ∧ this' = sent (b0 :: b1 :: payload) sock this.
Proof.
  intros Hsock. rewrite issue_unfold. split.
  - destruct (encode r) as [payload|e] eqn:Hpayload; [|discriminate].
    cbn [mbind result_bind]. rewrite (_send_connected _ sock) by done.
    destruct (Z.le_gt_cases (Buffer.length payload) 65535) as [Hle|Hgt].
    + destruct (requestWrapper_prefix payload Hle) as (b0 & b1 & Heq & ? & ? & ?).
      rewrite Heq. cbn [mbind result_bind]. intros [= <-].
      by exists payload, b0, b1.
    + rewrite requestWrapper_too_long by lia. discriminate.
  - intros (payload & b0 & b1 & -> & Hwrap & _ & ->).
    cbn [mbind result_bind]. rewrite (_send_connected _ sock) by done.
    by rewrite Hwrap.
Qed.

Lemma C8_witness :
  Client.client connected = Some (Client.mkSocket [])
  ∧ issue Kill connected = Ok (sent [0; 1; 107] (Client.mkSocket []) connected)
  ∧ ∃ payload b0 b1,
      encode Kill = Ok payload
      ∧ encoder.requestWrapper payload = Ok (b0 :: b1 :: payload)
      ∧ 256 * b0 + b1 = Buffer.length payload
      ∧ sent [0; 1; 107] (Client.mkSocket []) connected
        = sent (b0 :: b1 :: payload) (Client.mkSocket []) connected.
Proof.
  assert (H1 : Client.client connected = Some (Client.mkSocket [])) by reflexivity.
  assert (H2 : issue Kill connected = Ok (sent [0; 1; 107] (Client.mkSocket []) connected))
    by (vm_compute; reflexivity).
  split; [exact H1|]. split; [exact H2|].
  exact (proj1 (C8_every_request_wrapped_once Kill connected _ _ H1) H2).
Defined.

(** C7: the dispatcher maps a decoded response to one event, whatever
    the listeners are: [_onData] emits "alive" for opcode ALIVE_RESP or
    ALIVE2_X_RESP, "node" for PORT2_RESP and "nodeinfo" for a node list,
    each with the decoded value as it is, inside its [try]; when the
    decoder throws it emits "error" with what was thrown.  When the
    listeners of the event return, nothing else is emitted; with no
    listener the state changes by that one event and nothing else. *)
Theorem C7_dispatch {E : Type} (thrown : index.RuntimeError → E)
    (decode : Buffer.t → result E Decoded) (on : index.Listeners)
    (data : Buffer.t) (w : index.World) :
  (∀ resp, decode data = Ok (DResponse resp) →
     code resp = constants.ALIVE_RESP ∨ code resp = constants.ALIVE2_X_RESP →
     index._onData thrown decode on data w
     = index.try
         (index.emit thrown on (Some "alive"%string)
            (Some (Client.Value (DResponse resp))))
         (λ e, index.emit thrown on (Some "error"%string) (Some (Client.Error e))) w)
  ∧ (∀ resp, decode data = Ok (DResponse resp) →
     code resp = constants.PORT2_RESP →
     index._onData thrown decode on data w
     = index.try
         (index.emit thrown on (Some "node"%string)
            (Some (Client.Value (DResponse resp))))
         (λ e, index.emit thrown on (Some "error"%string) (Some (Client.Error e))) w)
  ∧ (∀ entries, decode data = Ok (DNodeList entries) →
     index._onData thrown decode on data w
     = index.try
         (index.emit thrown on (Some "nodeinfo"%string)
            (Some (Client.Value (DNodeList entries))))
         (λ e, index.emit thrown on (Some "error"%string) (Some (Client.Error e))) w)
  ∧ (∀ e, decode data = Throw e →
     index._onData thrown decode on data w
     = index.emit thrown on (Some "error"%string) (Some (Client.Error e)) w)
  ∧ (∀ event payload w',
     index.emit thrown on event (Some payload) w = (w', None) →
     index.try (index.emit thrown on event (Some payload))
       (λ e, index.emit thrown on (Some "error"%string) (Some (Client.Error e))) w
     = (w', None))
  ∧ (∀ event payload,
     on event = [] → event ≠ Some "error"%string →
     index.emit thrown on event (Some payload) w
     = (index.mkWorld
          (Client.mkClient (Client.host (index.c w)) (Client.port (index.c w))
             (Client.client (index.c w))
             (Client.emitted (index.c w) ++ [(event, payload)]))
          (index.destroyed w) (index.signals w) (index.promise w), None)).
Proof.
  unfold index._onData. split; [|split; [|split; [|split; [|split]]]].
  - intros [c d] -> [Hc|Hc]; simpl in *; subst c; reflexivity.
  - intros [c d] -> Hc; simpl in *; subst c; reflexivity.
  - intros entries ->. reflexivity.
  - intros e ->. reflexivity.
  - intros event payload w' Hemit. unfold index.try. by rewrite Hemit.
  - intros event payload Hon Hevent. unfold index.emit, index.seq. rewrite Hon.
    by destruct (decide (event = Some "error"%string)).
Qed.

(** ** The frames the tests build *)

Section test_frames.

Implicit Types (nodeName : jsstring).

Lemma u16_split v :
  0 ≤ v ≤ 65535 →
  0 ≤ v / 256 < 256 ∧ 0 ≤ v mod 256 < 256 ∧ 256 * (v / 256) + v mod 256 = v.
Proof.
  intros Hv. split; [split; [apply Z.div_pos; lia | apply Z.div_lt_upper_bound; lia]|].
  split; [apply Z.mod_pos_bound; lia|]. symmetry. apply Z.div_mod. lia.
Qed.

Lemma createAliveResp_ok responseCode :
  0 ≤ responseCode ≤ 255 →
  test.createAliveResp responseCode = Ok [121; responseCode; 0; 1].
Proof.
  intros Hcode. unfold test.createAliveResp.
  change (Buffer.alloc 4) with (Ok (E:=JsError) [0; 0; 0; 0]).
  cbn [mbind result_bind].
  change (Buffer.writeUInt8 constants.ALIVE_RESP 0 [0; 0; 0; 0])
    with (Ok (E:=JsError) [121; 0; 0; 0]).
  cbn [mbind result_bind].
  rewrite_frame (writeUInt8_at responseCode 1 [121] 0 [0; 0] eq_refl Hcode).
  reflexivity.
Qed.

(** The PORT2_RESP frame of the tests for fields that fit their width. *)
Lemma createPort2Resp_ok responseCode nodeName port highestVersion lowestVersion :
  0 ≤ responseCode ≤ 255 → 0 ≤ port ≤ 65535 →
  0 ≤ highestVersion ≤ 65535 → 0 ≤ lowestVersion ≤ 65535 →
  Buffer.byteLength nodeName ≤ 65535 →
  test.createPort2Resp responseCode nodeName port highestVersion lowestVersion
  = Ok (119 :: responseCode ::
        [port / 256; port mod 256; 77; 0;
         highestVersion / 256; highestVersion mod 256;
         lowestVersion / 256; lowestVersion mod 256;
         Buffer.byteLength nodeName / 256; Buffer.byteLength nodeName mod 256]
        ++ utf8Bytes nodeName ++ [0; 0]).
Proof.
  intros Hcode Hport Hhv Hlv Hlen. pose proof (byteLength_nonneg nodeName) as Hnn.
  unfold test.createPort2Resp. cbv zeta.
  set (L := Buffer.byteLength nodeName) in *.
  replace (14 + L) with (12 + (L + 2)) by lia.
  rewrite alloc_split, (alloc_split_list L 2) by lia.
  change (Z.to_nat 12) with 12%nat. change (Z.to_nat 2) with 2%nat.
  cbn [replicate app mbind result_bind].
  set (zeros := replicate (Z.to_nat L) 0).
  set (post := zeros ++ [0; 0]).
  change (0 + 1 + 1 + 2 + 1 + 1 + 2 + 2 + 2 + L) with (12 + L).
  change (0 + 1 + 1 + 2 + 1 + 1 + 2 + 2 + 2) with 12.
  change (0 + 1 + 1 + 2 + 1 + 1 + 2 + 2) with 10.
  change (0 + 1 + 1 + 2 + 1 + 1 + 2) with 8.
  change (0 + 1 + 1 + 2 + 1 + 1) with 6.
  change (0 + 1 + 1 + 2 + 1) with 5.
  change (0 + 1 + 1 + 2) with 4.
  change (0 + 1 + 1) with 2.
  change (0 + 1) with 1.
  rewrite_frame (writeUInt8_at constants.PORT2_RESP 0 [] 0
    (0 :: 0 :: 0 :: 0 :: 0 :: 0 :: 0 :: 0 :: 0 :: 0 :: 0 :: post)
    eq_refl ltac:(unfold constants.PORT2_RESP; lia)).
  cbn [mbind result_bind].
  rewrite_frame (writeUInt8_at responseCode 1 [constants.PORT2_RESP] 0
    (0 :: 0 :: 0 :: 0 :: 0 :: 0 :: 0 :: 0 :: 0 :: 0 :: post) eq_refl Hcode).
  cbn [mbind result_bind].
  rewrite_frame (writeUInt16BE_at port 2 [constants.PORT2_RESP; responseCode] 0 0
    (0 :: 0 :: 0 :: 0 :: 0 :: 0 :: 0 :: 0 :: post) eq_refl Hport).
  cbn [mbind result_bind].
  rewrite_frame (writeUInt8_at constants.NODE_TYPE_NORMAL 4
    [constants.PORT2_RESP; responseCode; port / 256; port mod 256] 0
    (0 :: 0 :: 0 :: 0 :: 0 :: 0 :: 0 :: post)
    eq_refl ltac:(unfold constants.NODE_TYPE_NORMAL; lia)).
  cbn [mbind result_bind].
  rewrite_frame (writeUInt8_at constants.PROTOCOL_IPV4 5
    [constants.PORT2_RESP; responseCode; port / 256; port mod 256;
     constants.NODE_TYPE_NORMAL] 0
    (0 :: 0 :: 0 :: 0 :: 0 :: 0 :: post)
    eq_refl ltac:(unfold constants.PROTOCOL_IPV4; lia)).
  cbn [mbind result_bind].
  rewrite_frame (writeUInt16BE_at highestVersion 6
    [constants.PORT2_RESP; responseCode; port / 256; port mod 256;
     constants.NODE_TYPE_NORMAL; constants.PROTOCOL_IPV4] 0 0
    (0 :: 0 :: 0 :: 0 :: post) eq_refl Hhv).
  cbn [mbind result_bind].
  rewrite_frame (writeUInt16BE_at lowestVersion 8
    [constants.PORT2_RESP; responseCode; port / 256; port mod 256;
     constants.NODE_TYPE_NORMAL; constants.PROTOCOL_IPV4;
     highestVersion / 256; highestVersion mod 256] 0 0
    (0 :: 0 :: post) eq_refl Hlv).
  cbn [mbind result_bind].
  rewrite_frame (writeUInt16BE_at L 10
    [constants.PORT2_RESP; responseCode; port / 256; port mod 256;
     constants.NODE_TYPE_NORMAL; constants.PROTOCOL_IPV4;
     highestVersion / 256; highestVersion mod 256;
     lowestVersion / 256; lowestVersion mod 256] 0 0
    post eq_refl ltac:(lia)).
  cbn [mbind result_bind].
  set (header := [constants.PORT2_RESP; responseCode; port / 256; port mod 256;
                  constants.NODE_TYPE_NORMAL; constants.PROTOCOL_IPV4;
                  highestVersion / 256; highestVersion mod 256;
                  lowestVersion / 256; lowestVersion mod 256; L / 256; L mod 256]).
  change (?a :: ?b :: ?c :: ?d :: ?e :: ?f :: ?g :: ?h :: ?i :: ?j :: ?k :: ?l :: post)
    with (header ++ zeros ++ [0; 0]).
  rewrite (write_at nodeName 12 header zeros [0; 0] eq_refl
             (replicate_byteLength nodeName)).
  cbn [mbind result_bind].
  rewrite (app_assoc header (utf8Bytes nodeName) [0; 0]).
  rewrite (writeUInt16BE_at 0 (12 + L) (header ++ utf8Bytes nodeName) 0 0 []);
    [| rewrite length_app_Z; reflexivity | lia].
  cbn [mbind result_bind]. by rewrite <-app_assoc.
Qed.

(** Reading back the fields of such a frame. *)
Lemma readPort2_frame nodeName port nodeType protocol highestVersion lowestVersion :
  0 ≤ port ≤ 65535 → 0 ≤ highestVersion ≤ 65535 → 0 ≤ lowestVersion ≤ 65535 →
  Buffer.byteLength nodeName ≤ 65535 →
  decoder.readPort2
    ([port / 256; port mod 256; nodeType; protocol;
      highestVersion / 256; highestVersion mod 256;
      lowestVersion / 256; lowestVersion mod 256;
      Buffer.byteLength nodeName / 256; Buffer.byteLength nodeName mod 256]
     ++ utf8Bytes nodeName ++ [0; 0])
  = Ok (PortInfo port nodeType protocol highestVersion lowestVersion
          (utf8.toString (utf8Bytes nodeName)) []).
Proof.
  intros Hport Hhv Hlv Hlen. pose proof (byteLength_nonneg nodeName) as Hnn.
  destruct (u16_split port Hport) as (_ & _ & Eport).
  destruct (u16_split highestVersion Hhv) as (_ & _ & Ehv).
  destruct (u16_split lowestVersion Hlv) as (_ & _ & Elv).
  destruct (u16_split (Buffer.byteLength nodeName) ltac:(lia)) as (_ & _ & Elen).
  unfold decoder.readPort2.
  cbn [app decoder.readUInt16BE decoder.readUInt8 mbind result_bind].
  rewrite Eport, Ehv, Elv, Elen.
  unfold decoder.readBytes. rewrite length_app_Z. fold (Buffer.byteLength nodeName).
  destruct (Z.leb_spec (Buffer.byteLength nodeName)
              (Buffer.byteLength nodeName + Buffer.length [0; 0])) as [_|Hlt];
    [|unfold Buffer.length in Hlt; simpl in Hlt; lia].
  cbn [mbind result_bind].
  unfold Buffer.byteLength at 1 2. rewrite to_nat_length.
  rewrite take_app_length, drop_app_length.
  reflexivity.
Qed.

End test_frames.

(** ** Claims about the response decoder *)

Lemma decode_alive (code status : Z) (rest : Buffer.t) :
  code = constants.ALIVE_RESP ∨ code = constants.ALIVE2_X_RESP →
  (status = 0 →
     decoder.decode (code :: status :: rest)
     = Ok (DResponse (mkResponse code (AliveAck rest))))
  ∧ (status ≠ 0 →
     decoder.decode (code :: status :: rest)
     = Throw (decoder.ProtocolStatusError code status)).
Proof.
  intros Hcode. unfold decoder.decode. cbn [decoder.readUInt8 mbind result_bind].
  assert ((code =? constants.ALIVE_RESP) || (code =? constants.ALIVE2_X_RESP) = true) as ->.
  { destruct Hcode as [-> | ->]; reflexivity. }
  split.
  - intros ->. reflexivity.
  - intros Hstatus. by destruct (Z.eqb_spec status 0).
Qed.

(** C6: an ALIVE_RESP or ALIVE2_X_RESP with status byte 0 decodes to an
    AliveAck whose creation is the bytes after the two-byte header; with
    any other status byte the decoder throws a protocol error and
    returns no value; so do the frames the tests build with
    [createAliveResp]. *)
Theorem C6_alive_status :
  (∀ (code status : Z) (rest : Buffer.t),
     code = constants.ALIVE_RESP ∨ code = constants.ALIVE2_X_RESP →
     (status = 0 →
        decoder.decode (code :: status :: rest)
        = Ok (DResponse (mkResponse code (AliveAck rest))))
     ∧ (status ≠ 0 →
        decoder.decode (code :: status :: rest)
        = Throw (decoder.ProtocolStatusError code status)))
  ∧ (∀ responseCode : Z,
       0 ≤ responseCode ≤ 255 →
       ∃ buf,
         test.createAliveResp responseCode = Ok buf
         ∧ (responseCode = 0 →
            decoder.decode buf
            = Ok (DResponse (mkResponse constants.ALIVE_RESP (AliveAck (drop 2 buf)))))
         ∧ (responseCode ≠ 0 →
            decoder.decode buf
            = Throw (decoder.ProtocolStatusError constants.ALIVE_RESP responseCode))).
Proof.
  split; [exact decode_alive|].
  intros responseCode Hcode. exists [121; responseCode; 0; 1].
  split; [by apply createAliveResp_ok|].
  apply (decode_alive constants.ALIVE_RESP responseCode [0; 1]). by left.
Qed.

Lemma C6_witness :
  (∃ buf,
     test.createAliveResp 0 = Ok buf
     ∧ decoder.decode buf
       = Ok (DResponse (mkResponse constants.ALIVE_RESP (AliveAck (drop 2 buf)))))
  ∧ (∃ buf,
       test.createAliveResp 1 = Ok buf
       ∧ decoder.decode buf = Throw (decoder.ProtocolStatusError constants.ALIVE_RESP 1))
  ∧ decoder.decode [118; 0; 0; 0; 0; 7]
    = Ok (DResponse (mkResponse 118 (AliveAck [0; 0; 0; 7])))
  ∧ decoder.decode [118; 255]
    = Throw (decoder.ProtocolStatusError 118 255).
Proof.
  split; [|split; [|split]].
  - destruct (proj2 C6_alive_status 0) as (buf & Hbuf & Hok & _); [lia|].
    exists buf. split; [exact Hbuf | by apply Hok].
  - destruct (proj2 C6_alive_status 1) as (buf & Hbuf & _ & Hthrow); [lia|].
    exists buf. split; [exact Hbuf | by apply Hthrow].
  - refine (proj1 (proj1 C6_alive_status 118 0 [0; 0; 0; 7] _) eq_refl). by right.
  - refine (proj2 (proj1 C6_alive_status 118 255 [] _) _); [by right | discriminate].
Defined.

(** The outcome of a PORT2_RESP with status 0 whose fields can be read. *)
Lemma decode_port2_versions (body : Buffer.t) (info : ResponseData) (hv lv : Z) :
  decoder.readPort2 body = Ok info →
  decoder.versionsOf info = Some (hv, lv) →
  decoder.decode (constants.PORT2_RESP :: 0 :: body)
  = if (hv <? constants.LOWEST_VERSION) || (lv >? constants.HIGHEST_VERSION)
    then Throw (decoder.VersionRangeError hv lv)
    else Ok (DResponse (mkResponse constants.PORT2_RESP info)).
Proof.
  intros Hread Hversions.
  unfold decoder.decode. cbn [decoder.readUInt8 mbind result_bind].
  change ((constants.PORT2_RESP =? constants.ALIVE_RESP)
          || (constants.PORT2_RESP =? constants.ALIVE2_X_RESP)) with false.
  change (constants.PORT2_RESP =? constants.PORT2_RESP) with true.
  change (0 =? 0) with true. cbv iota.
  unfold decoder.decodePort2. rewrite Hread. cbn [mbind result_bind].
  unfold decoder.checkVersions. rewrite Hversions.
  by destruct ((hv <? constants.LOWEST_VERSION) || (lv >? constants.HIGHEST_VERSION)).
Qed.

Lemma decode_port2_range (body : Buffer.t) (info : ResponseData) (hv lv : Z) :
  decoder.readPort2 body = Ok info →
  decoder.versionsOf info = Some (hv, lv) →
  (decoder.decode (constants.PORT2_RESP :: 0 :: body)
     = Throw (decoder.VersionRangeError hv lv)
   ↔ hv < constants.LOWEST_VERSION ∨ lv > constants.HIGHEST_VERSION)
  ∧ ((∃ e, decoder.decode (constants.PORT2_RESP :: 0 :: body) = Throw e)
     ↔ hv < constants.LOWEST_VERSION ∨ lv > constants.HIGHEST_VERSION)
  ∧ (¬ (hv < constants.LOWEST_VERSION ∨ lv > constants.HIGHEST_VERSION) →
     decoder.decode (constants.PORT2_RESP :: 0 :: body)
     = Ok (DResponse (mkResponse constants.PORT2_RESP info))).
Proof.
  intros Hread Hversions. rewrite (decode_port2_versions body info hv lv) by done.
  destruct (Z.ltb_spec hv constants.LOWEST_VERSION) as [Hhv|Hhv]; simpl.
  { split; [|split]; [split; [lia | done] | split; [lia | by eexists] | lia]. }
  destruct (Z.gtb_spec lv constants.HIGHEST_VERSION) as [Hlv|Hlv]; simpl.
  { split; [|split]; [split; [lia | done] | split; [lia | by eexists] | lia]. }
  split; [|split].
  - split; [intros Hc; discriminate Hc | lia].
  - split; [intros [e He]; discriminate He | lia].
  - reflexivity.
Qed.

(** C3: a PORT2_RESP with status byte 0 whose fields can be read fails
    with a version-range error exactly when the advertised highest
    version is below 5 or the advertised lowest version is above 6, and
    decodes to its fields otherwise; so do the frames the tests build
    with [createPort2Resp]. *)
Theorem C3_version_range :
  (∀ (body : Buffer.t) (info : ResponseData) (hv lv : Z),
     decoder.readPort2 body = Ok info →
     decoder.versionsOf info = Some (hv, lv) →
     (decoder.decode (constants.PORT2_RESP :: 0 :: body)
        = Throw (decoder.VersionRangeError hv lv)
      ↔ hv < constants.LOWEST_VERSION ∨ lv > constants.HIGHEST_VERSION)
     ∧ ((∃ e, decoder.decode (constants.PORT2_RESP :: 0 :: body) = Throw e)
        ↔ hv < constants.LOWEST_VERSION ∨ lv > constants.HIGHEST_VERSION)
     ∧ (¬ (hv < constants.LOWEST_VERSION ∨ lv > constants.HIGHEST_VERSION) →
        decoder.decode (constants.PORT2_RESP :: 0 :: body)
        = Ok (DResponse (mkResponse constants.PORT2_RESP info))))
  ∧ (∀ (nodeName : jsstring) (port hv lv : Z),
       0 ≤ port ≤ 65535 → 0 ≤ hv ≤ 65535 → 0 ≤ lv ≤ 65535 →
       Buffer.byteLength nodeName ≤ 65535 →
       ∃ frame,
         test.createPort2Resp 0 nodeName port hv lv = Ok frame
         ∧ (decoder.decode frame = Throw (decoder.VersionRangeError hv lv)
            ↔ hv < 5 ∨ lv > 6)
         ∧ (¬ (hv < 5 ∨ lv > 6) →
            decoder.decode frame
            = Ok (DResponse (mkResponse 119
                    (PortInfo port 77 0 hv lv (utf8.toString (utf8Bytes nodeName)) []))))).
Proof.
  split; [exact decode_port2_range|].
  intros nodeName port hv lv Hport Hhv Hlv Hlen. eexists.
  split; [by apply createPort2Resp_ok|].
  destruct (decode_port2_range _ _ hv lv
              (readPort2_frame nodeName port 77 0 hv lv Hport Hhv Hlv Hlen) eq_refl)
    as (Hiff & _ & Hok).
  split; [exact Hiff | exact Hok].
Qed.

Lemma C3_witness :
  (∃ frame,
     test.createPort2Resp 0 (js "testing") 1337 0 5 = Ok frame
     ∧ decoder.decode frame = Throw (decoder.VersionRangeError 0 5))
  ∧ (∃ frame,
       test.createPort2Resp 0 (js "testing") 1337 6 10 = Ok frame
       ∧ decoder.decode frame = Throw (decoder.VersionRangeError 6 10))
  ∧ (∃ frame,
       test.createPort2Resp 0 (js "testing") 1337 6 5 = Ok frame
       ∧ decoder.decode frame
         = Ok (DResponse (mkResponse 119
                 (PortInfo 1337 77 0 6 5 (utf8.toString (utf8Bytes (js "testing"))) []))))
  ∧ (decoder.decode
       (constants.PORT2_RESP :: 0 ::
        [5; 57; 77; 0; 0; 0; 0; 5; 0; 7; 116; 101; 115; 116; 105; 110; 103; 0; 0])
     = Throw (decoder.VersionRangeError 0 5)).
Proof.
  assert (Hname : Buffer.byteLength (js "testing") ≤ 65535) by (vm_compute; discriminate).
  split; [|split; [|split]].
  - destruct (proj2 C3_version_range (js "testing") 1337 0 5) as (frame & Hframe & Hiff & _);
      [lia.. | exact Hname |].
    exists frame. split; [exact Hframe|]. apply Hiff. lia.
  - destruct (proj2 C3_version_range (js "testing") 1337 6 10) as (frame & Hframe & Hiff & _);
      [lia.. | exact Hname |].
    exists frame. split; [exact Hframe|]. apply Hiff. lia.
  - destruct (proj2 C3_version_range (js "testing") 1337 6 5) as (frame & Hframe & _ & Hok);
      [lia.. | exact Hname |].
    exists frame. split; [exact Hframe|]. apply Hok. lia.
  - refine (proj2 (proj1 (proj1 C3_version_range
      [5; 57; 77; 0; 0; 0; 0; 5; 0; 7; 116; 101; 115; 116; 105; 110; 103; 0; 0]
      (PortInfo 1337 77 0 0 5 (js "testing") []) 0 5 _ _)) _);
      [vm_compute; reflexivity | reflexivity | left; vm_compute; reflexivity].
Defined.

Lemma C7_witness :
  index._onData linked.thrown linked.decode linked.noListeners [121; 0; 0; 1] linked.fresh
  = (index.mkWorld
       (Client.mkClient (js "localhost") 4369 None
          [(Some "alive"%string,
            Client.Value (DResponse (mkResponse 121 (AliveAck [0; 1]))))])
       false [] index.Pending, None)
  ∧ index._onData linked.thrown linked.decode linked.noListeners
      (119 :: 0 :: [5; 57; 77; 0; 0; 6; 0; 5; 0; 7] ++ utf8Bytes (js "testing") ++ [0; 0])
      linked.fresh
    = (index.mkWorld
         (Client.mkClient (js "localhost") 4369 None
            [(Some "node"%string,
              Client.Value (DResponse (mkResponse 119
                (PortInfo 1337 77 0 6 5 (js "testing") []))))])
         false [] index.Pending, None)
  ∧ index._onData linked.thrown linked.decode linked.noListeners
      (test.createNamesOrDumpResp [js "name test at port 342"]) linked.fresh
    = (index.mkWorld
         (Client.mkClient (js "localhost") 4369 None
            [(Some "nodeinfo"%string,
              Client.Value (DNodeList [mkNodeEntry (js "test") 342 None]))])
         false [] index.Pending, None)
  ∧ index._onData linked.thrown linked.decode linked.noListeners [121; 1; 0; 1] linked.fresh
    = index.emit linked.thrown linked.noListeners (Some "error"%string)
        (Some (Client.Error (inr (decoder.ProtocolStatusError 121 1)))) linked.fresh.
Proof.
  pose proof (C7_dispatch linked.thrown linked.decode linked.noListeners) as H.
  assert (Hquiet : ∀ event payload, event ≠ Some "error"%string →
            index.try (index.emit linked.thrown linked.noListeners event (Some payload))
              (λ e, index.emit linked.thrown linked.noListeners (Some "error"%string)
                      (Some (Client.Error e))) linked.fresh
            = (index.mkWorld
                 (Client.mkClient (js "localhost") 4369 None [(event, payload)])
                 false [] index.Pending, None)).
  { intros event payload Hevent.
    destruct (H [] linked.fresh) as (_ & _ & _ & _ & Hone & Hemit).
    apply Hone. by rewrite (Hemit event payload eq_refl Hevent). }
  assert (H1 : linked.decode [121; 0; 0; 1]
               = Ok (DResponse (mkResponse 121 (AliveAck [0; 1]))))
    by (vm_compute; reflexivity).
  assert (H2 : linked.decode
            (119 :: 0 :: [5; 57; 77; 0; 0; 6; 0; 5; 0; 7] ++ utf8Bytes (js "testing")
             ++ [0; 0])
          = Ok (DResponse (mkResponse 119 (PortInfo 1337 77 0 6 5 (js "testing") []))))
    by (vm_compute; reflexivity).
  assert (H3 : linked.decode (test.createNamesOrDumpResp [js "name test at port 342"])
          = Ok (DNodeList [mkNodeEntry (js "test") 342 None]))
    by (vm_compute; reflexivity).
  assert (H4 : linked.decode [121; 1; 0; 1]
               = Throw (inr (decoder.ProtocolStatusError 121 1)))
    by (vm_compute; reflexivity).
  split; [|split; [|split]].
  - rewrite (proj1 (H [121; 0; 0; 1] linked.fresh) _ H1 (or_introl eq_refl)).
    by apply Hquiet.
  - rewrite (proj1 (proj2 (H _ linked.fresh)) _ H2 eq_refl). by apply Hquiet.
  - rewrite (proj1 (proj2 (proj2 (H _ linked.fresh))) _ H3). by apply Hquiet.
  - exact (proj1 (proj2 (proj2 (proj2 (H [121; 1; 0; 1] linked.fresh)))) _ H4).
Defined.

(** ** The node-line grammar *)

Section regexp_facts.
Import RegExp.

Implicit Types (r : RegExp.t) (s t m : jsstring) (caps : gmap nat jsstring)
  (p : Z → bool).

Lemma firstly_Empty s caps : firstly Empty s caps s caps.
Proof. by exists []. Qed.

Lemma firstly_Char p c s caps : p c = true → firstly (Char p) (c :: s) caps s caps.
Proof. intros Hp. exists []. simpl. by rewrite Hp. Qed.

Lemma firstly_Seq r1 r2 s caps s1 caps1 s2 caps2 :
  firstly r1 s caps s1 caps1 → firstly r2 s1 caps1 s2 caps2 →
  firstly (Seq r1 r2) s caps s2 caps2.
Proof.
  intros [o1 H1] [o2 H2]. unfold firstly. cbn [run]. rewrite H1.
  simpl. rewrite H2. simpl. by eexists.
Qed.

Lemma firstly_Opt r s caps s' caps' :
  firstly r s caps s' caps' → firstly (Opt r) s caps s' caps'.
Proof. intros [o H]. unfold firstly. cbn [run]. rewrite H. by eexists. Qed.

Lemma firstly_Opt_skip r s caps :
  run r s caps = [] → firstly (Opt r) s caps s caps.
Proof. intros H. unfold firstly. cbn [run]. rewrite H. by eexists. Qed.

Lemma firstly_Group n r m s caps caps' :
  firstly r (m ++ s) caps s caps' →
  firstly (Group n r) (m ++ s) caps s (<[n := m]> caps').
Proof.
  intros [o H]. unfold firstly. cbn [run]. rewrite H. simpl. eexists. do 2 f_equal.
  rewrite length_app. replace (length m + length s - length s)%nat with (length m) by lia.
  by rewrite take_app_length.
Qed.

Lemma firstly_Group_all n r m caps caps' :
  firstly r m caps [] caps' → firstly (Group n r) m caps [] (<[n := m]> caps').
Proof.
  intros H. rewrite <-(app_nil_r m) at 1. apply firstly_Group. by rewrite app_nil_r.
Qed.

(** A literal matches itself. *)
Lemma ci_refl c : ci c c = true.
Proof. unfold ci. apply Z.eqb_refl. Qed.

Lemma run_lit l s caps : run (lit l) (l ++ s) caps = [(s, caps)].
Proof.
  induction l as [|c l IH]; [reflexivity|].
  cbn [lit run app]. rewrite ci_refl. simpl. rewrite IH. reflexivity.
Qed.

Lemma firstly_lit l s caps : firstly (lit l) (l ++ s) caps s caps.
Proof. exists []. apply run_lit. Qed.

(** A literal does not match where its first character differs. *)
Lemma run_lit_head_nil c l s caps :
  match s with [] => True | x :: _ => ci c x = false end →
  run (lit (c :: l)) s caps = [].
Proof. simpl. destruct s as [|x s]; [done|]. by intros ->. Qed.

(** [star] lists suffixes of its input, the input itself last. *)
Lemma star_suffix p s t : t ∈ star p s → t `suffix_of` s.
Proof.
  revert t. induction s as [|c s IH]; intros t; simpl.
  - intros ->%list_elem_of_singleton. done.
  - destruct (p c).
    + rewrite elem_of_app, list_elem_of_singleton. intros [H| ->]; [|done].
      by apply suffix_cons_r, IH.
    + by intros ->%list_elem_of_singleton.
Qed.

Lemma star_last p s : ∃ shorter, star p s = shorter ++ [s] ∧
  ∀ t, t ∈ shorter → t `suffix_of` s ∧ t ≠ s.
Proof.
  destruct s as [|c s]; simpl.
  - exists []. split; [done|]. intros t Ht. by apply elem_of_nil in Ht.
  - destruct (p c).
    + exists (star p s). split; [done|]. intros t Ht%star_suffix. split.
      * by apply suffix_cons_r.
      * intros ->. apply suffix_length in Ht. simpl in Ht. lia.
    + exists []. split; [done|]. intros t Ht. by apply elem_of_nil in Ht.
Qed.

(** A greedy star over a run of class characters that ends before
    [t]: the preferred match takes the whole run. *)
Lemma star_greedy p m t :
  Forall (λ x, p x = true) m →
  match t with [] => True | x :: _ => p x = false end →
  ∃ others, star p (m ++ t) = t :: others.
Proof.
  intros Hm Ht. induction Hm as [|x m Hx Hm IH]; simpl.
  - destruct t as [|x t]; simpl; [by eexists|]. rewrite Ht. by eexists.
  - rewrite Hx. destruct IH as [o ->]. by eexists.
Qed.

Lemma firstly_Star p m t caps :
  Forall (λ x, p x = true) m →
  match t with [] => True | x :: _ => p x = false end →
  firstly (Star p) (m ++ t) caps t caps.
Proof.
  intros Hm Ht. destruct (star_greedy p m t Hm Ht) as [o Ho].
  unfold firstly. cbn [run]. rewrite Ho. by eexists.
Qed.

Lemma firstly_Plus p m t caps :
  m ≠ [] → Forall (λ x, p x = true) m →
  match t with [] => True | x :: _ => p x = false end →
  firstly (Plus p) (m ++ t) caps t caps.
Proof.
  intros Hne Hm Ht. destruct Hm as [|x m Hx Hm]; [done|].
  apply firstly_Seq with (m ++ t) caps.
  - by apply firstly_Char.
  - by apply firstly_Star.
Qed.

Lemma firstly_Star_all p m caps :
  Forall (λ x, p x = true) m → firstly (Star p) m caps [] caps.
Proof. intros H. rewrite <-(app_nil_r m) at 1. by apply firstly_Star. Qed.

Lemma firstly_Plus_all p m caps :
  m ≠ [] → Forall (λ x, p x = true) m → firstly (Plus p) m caps [] caps.
Proof. intros ? H. rewrite <-(app_nil_r m) at 1. by apply firstly_Plus. Qed.

(** Binding over the results of a star: the suffixes that give nothing
    are skipped. *)
Lemma bind_all_nil {A B} (f : A → list B) (l : list A) :
  (∀ x, x ∈ l → f x = []) → l ≫= f = [].
Proof.
  induction l as [|x l IH]; intros H; [done|]. rewrite bind_cons.
  rewrite (H x) by left. simpl. apply IH. intros y Hy. apply H. by right.
Qed.

(** A search [p* r]: when [r] matches at [s] and at no later position,
    the preferred match of [p* r] on [pre ++ s] is the one at [s]. *)
Lemma firstly_search p r pre s caps s' caps' :
  Forall (λ x, p x = true) pre →
  (∀ t, t `suffix_of` s → t ≠ s → run r t caps = []) →
  firstly r s caps s' caps' →
  firstly (Seq (Star p) r) (pre ++ s) caps s' caps'.
Proof.
  intros Hpre Hlater [o Ho]. unfold firstly. cbn [run].
  assert (Hsplit : ∃ longer, star p (pre ++ s) = star p s ++ longer).
  { clear -Hpre. induction Hpre as [|x pre Hx Hpre IH]; simpl.
    - exists []. by rewrite app_nil_r.
    - rewrite Hx. destruct IH as [l ->]. eexists. by rewrite <-app_assoc. }
  destruct Hsplit as [longer ->].
  destruct (star_last p s) as (shorter & -> & Hshorter).
  rewrite !fmap_app, !bind_app.
  rewrite (bind_all_nil _ ((λ s'0, (s'0, caps)) <$> shorter)).
  - simpl. rewrite Ho. simpl. by eexists.
  - intros [t c] (t' & [= -> ->] & Ht')%list_elem_of_fmap.
    destruct (Hshorter _ Ht'). by apply Hlater.
Qed.

End regexp_facts.

Section grammar_facts.
Import RegExp grammar.

Implicit Types (r : RegExp.t) (l s t u : jsstring) (caps : gmap nat jsstring).



Lemma exec_firstly r s s' caps :
  firstly r s ∅ s' caps → exec r s = Some caps.
Proof. intros [o H]. destruct s; simpl; by rewrite H. Qed.

Lemma run_Seq_nil r1 r2 s caps : run r1 s caps = [] → run (Seq r1 r2) s caps = [].
Proof. intros H. cbn [run]. by rewrite H. Qed.

(** A literal matches only where it is a prefix. *)
Lemma run_lit_nil l s caps : prefix_ci l s = false → run (lit l) s caps = [].
Proof.
  revert s. induction l as [|c l IH]; intros s; [done|].
  destruct s as [|x s]; [done|]. cbn [prefix_ci lit run].
  destruct (ci c x); [|done]. intros H. rewrite bind_singleton. by apply IH.
Qed.

Lemma prefix_ci_occurs l s t :
  t `suffix_of` s → prefix_ci l t = true → occurs l s = true.
Proof.
  intros [k ->]. induction k as [|x k IH]; intros H.
  - destruct t; simpl; by rewrite H.
  - simpl. rewrite (IH H). apply orb_true_r.
Qed.

(** Characters that cannot start [l] are skipped by the search. *)
Lemma occurs_skip c l u s :
  Forall (λ x, ci c x = false) u → occurs (c :: l) (u ++ s) = occurs (c :: l) s.
Proof.
  induction 1 as [|x u Hx Hu IH]; [done|].
  cbn [app occurs prefix_ci]. by rewrite Hx, IH.
Qed.

(** A prefix of [u ++ s] is a prefix of [u] or runs over into [s]. *)
Lemma prefix_ci_app l u s :
  prefix_ci l (u ++ s) = true →
  prefix_ci l u = true
  ∨ ∃ l1 c l2, l = l1 ++ c :: l2 ∧ length l1 = length u
      ∧ match s with x :: _ => ci c x = true | [] => False end.
Proof.
  revert u. induction l as [|c l IH]; intros u H; [by left|].
  destruct u as [|x u].
  - right. exists [], c, l. split; [done|]. split; [done|].
    destruct s as [|y s]; [done|]. simpl in H. by apply andb_true_iff in H as [? _].
  - cbn [app prefix_ci] in *. apply andb_true_iff in H as [Hx H].
    destruct (IH u H) as [Hu | (l1 & d & l2 & -> & Hlen & Hs)].
    + left. by rewrite Hx, Hu.
    + right. exists (c :: l1), d, l2. split; [done|]. split; [simpl; lia | done].
Qed.

(** [name] does not occur in a token followed by text that has no [n]
    and starts with none of [a], [m], [e]. *)
Lemma occurs_name_app token rest :
  occurs (js "name") token = false →
  Forall (λ x, ci (chr "n") x = false) rest →
  match rest with
  | x :: _ => ci (chr "a") x = false ∧ ci (chr "m") x = false ∧ ci (chr "e") x = false
  | [] => True
  end →
  occurs (js "name") (token ++ rest) = false.
Proof.
  intros Htok Hrest Hhead. induction token as [|x token IH].
  - cbn [app]. rewrite <-(app_nil_r rest). change (js "name") with (chr "n" :: js "ame").
    by rewrite (occurs_skip _ _ rest []).
  - cbn [occurs] in Htok. apply orb_false_iff in Htok as [Hpre Htok].
    cbn [app occurs]. rewrite (IH Htok), orb_false_r.
    destruct (prefix_ci (js "name") (x :: token ++ rest)) eqn:Hp; [|done].
    apply (prefix_ci_app _ (x :: token)) in Hp as [Hp | (l1 & c & l2 & Hl & Hlen & Hc)];
      [congruence|].
    destruct rest as [|y rest]; [done|]. destruct Hhead as (Ha & Hm & He).
    assert (c = chr "a" ∨ c = chr "m" ∨ c = chr "e") as [-> | [-> | ->]];
      [|congruence..].
    change (js "name") with [110; 97; 109; 101] in Hl.
    destruct l1 as [|? [|? [|? [|? l1]]]]; [done|..]; cbn [app] in Hl; simplify_eq;
      [by left | by right; left | by right; right | by destruct l1].
Qed.

Lemma suffix_proper_cons {A} (t s : list A) x :
  t `suffix_of` x :: s → t ≠ x :: s → t `suffix_of` s.
Proof. intros [[|y k] E] Hne; simplify_eq/=. by eexists. Qed.

Lemma suffix_head {A} (P : A → Prop) (s t : list A) :
  Forall P s → t `suffix_of` s → match t with [] => True | x :: _ => P x end.
Proof.
  intros H [k ->]. apply Forall_app in H as [_ H].
  destruct t; [done|]. by apply Forall_cons in H as [? _].
Qed.

(** *** Character classes *)

Lemma upper_other c : ¬ (0x61 ≤ c ≤ 0x7A) → upper c = c.
Proof.
  intros H. unfold upper.
  destruct (Z.leb_spec 0x61 c), (Z.leb_spec c 0x7A); simpl; lia.
Qed.

Lemma upper_letter c : 0x61 ≤ c ≤ 0x7A → upper c = c - 0x20.
Proof.
  intros H. unfold upper.
  destruct (Z.leb_spec 0x61 c), (Z.leb_spec c 0x7A); simpl; lia.
Qed.

(** A pattern letter matches its two cases and nothing else. *)
Lemma ci_letter c x :
  0x61 ≤ c ≤ 0x7A → ci c x = true ↔ x = c ∨ x = c - 0x20.
Proof.
  intros Hc. unfold ci. rewrite (upper_letter c) by done. rewrite Z.eqb_eq.
  destruct (decide (0x61 ≤ x ≤ 0x7A)).
  - rewrite upper_letter by done. lia.
  - rewrite upper_other by done. lia.
Qed.

(** A pattern character that is no letter matches itself only. *)
Lemma ci_other c x :
  ¬ (0x41 ≤ c ≤ 0x5A) → ¬ (0x61 ≤ c ≤ 0x7A) → ci c x = true ↔ x = c.
Proof.
  intros Hc1 Hc2. unfold ci. rewrite (upper_other c) by done. rewrite Z.eqb_eq.
  destruct (decide (0x61 ≤ x ≤ 0x7A)).
  - rewrite upper_letter by done. lia.
  - rewrite upper_other by done. lia.
Qed.

Lemma space_spec c :
  space c = true ↔
  0x09 ≤ c ≤ 0x0D ∨ c = 0x20 ∨ c = 0xA0 ∨ c = 0x1680 ∨ 0x2000 ≤ c ≤ 0x200A
  ∨ c = 0x2028 ∨ c = 0x2029 ∨ c = 0x202F ∨ c = 0x205F ∨ c = 0x3000 ∨ c = 0xFEFF.
Proof.
  unfold space. rewrite !orb_true_iff, !andb_true_iff, !Z.leb_le, !Z.eqb_eq. tauto.
Qed.

Lemma digit_spec c : digit c = true ↔ 0x30 ≤ c ≤ 0x39.
Proof. unfold digit. by rewrite andb_true_iff, !Z.leb_le. Qed.

Lemma tokenChar_spec c :
  tokenChar c = true ↔ space c = false ∧ c ≠ 0x3C ∧ c ≠ 0x3E.
Proof.
  unfold tokenChar. rewrite !andb_true_iff, !negb_true_iff, !Z.eqb_neq. tauto.
Qed.

(** No letter of a pattern matches white space or a digit. *)
Lemma ci_letter_space c x : 0x61 ≤ c ≤ 0x7A → space x = true → ci c x = false.
Proof.
  intros Hc Hx%space_spec. apply not_true_is_false. rewrite ci_letter by done. lia.
Qed.

Lemma ci_letter_digit c x : 0x61 ≤ c ≤ 0x7A → digit x = true → ci c x = false.
Proof.
  intros Hc Hx%digit_spec. apply not_true_is_false. rewrite ci_letter by done. lia.
Qed.

(** *** The preferred match of [NODE_REGEXP] on a listing line *)

Local Infix ">>>" := Seq (at level 60, right associativity).

(** The parts of [NODE_REGEXP]: from the optional fd clause on, from
    [at port] on, and from [name] on. *)
Local Abbreviation R_fd :=
  (Opt (Group 3 (lit (js ", fd = ") >>> Group 4 (Plus digit))) >>> Star dot).
Local Abbreviation R_port := (lit (js "at port ") >>> Group 2 (Plus digit) >>> R_fd).
Local Abbreviation R_name :=
  (lit (js "name") >>> Star space >>> Opt (Char (ci (chr "<"))) >>>
   Group 1 (Plus (λ c, negb ((c =? chr ">") || space c))) >>>
   Opt (Char (ci (chr ">"))) >>> Char space >>> Star dot >>> R_port).

Lemma NODE_REGEXP_parts : constants_regexp.NODE_REGEXP = Star dot >>> R_name.
Proof. reflexivity. Qed.

Lemma firstly_fd clause fd caps :
  FdClause clause fd → caps !! 4%nat = None →
  ∃ caps', firstly R_fd clause caps [] caps'
    ∧ decoder.parseDecimal <$> caps' !! 4%nat = fd
    ∧ caps' !! 1%nat = caps !! 1%nat ∧ caps' !! 2%nat = caps !! 2%nat.
Proof.
  intros [|digits Hne Hdigits] Hcaps.
  - exists caps. split; [|by rewrite Hcaps].
    eapply firstly_Seq; [by apply firstly_Opt_skip|].
    by apply firstly_Star_all.
  - exists (<[3%nat := js ", fd = " ++ digits]> (<[4%nat := digits]> caps)).
    split; [|by simplify_map_eq].
    eapply firstly_Seq; [|by apply (firstly_Star_all dot [])].
    apply firstly_Opt, firstly_Group_all.
    eapply firstly_Seq; [apply firstly_lit|].
    by apply firstly_Group_all, firstly_Plus_all.
Qed.

Lemma FdClause_no_letter c clause fd :
  0x61 ≤ c ≤ 0x7A → c ≠ chr "f" → c ≠ chr "d" →
  FdClause clause fd → Forall (λ x, ci c x = false) clause.
Proof.
  intros Hc Hf Hd [|digits _ Hdigits]; [constructor|].
  apply Forall_app_2.
  - change (js ", fd = ") with [44; 32; chr "f"; chr "d"; 32; 61; 32].
    repeat (apply Forall_cons; split); try constructor;
      apply not_true_is_false; rewrite ci_letter by done;
      unfold chr in *; simpl in *; lia.
  - eapply Forall_impl; [exact Hdigits|]. intros x Hx. by apply ci_letter_digit.
Qed.

Lemma FdClause_head_not_digit clause fd :
  FdClause clause fd →
  match clause with [] => True | x :: _ => digit x = false end.
Proof. by intros [|digits _ _]. Qed.

Lemma firstly_port digits clause fd caps :
  digits ≠ [] → Forall (λ c, digit c = true) digits → FdClause clause fd →
  caps !! 4%nat = None →
  ∃ caps', firstly R_port (js "at port " ++ digits ++ clause) caps [] caps'
    ∧ caps' !! 2%nat = Some digits
    ∧ decoder.parseDecimal <$> caps' !! 4%nat = fd
    ∧ caps' !! 1%nat = caps !! 1%nat.
Proof.
  intros Hne Hdigits Hfd Hcaps.
  destruct (firstly_fd clause fd (<[2%nat := digits]> caps) Hfd)
    as (caps' & Hfirst & H4 & H1 & H2); [by simplify_map_eq|].
  exists caps'. split; [|by simplify_map_eq].
  eapply firstly_Seq; [apply firstly_lit|].
  eapply firstly_Seq; [|exact Hfirst].
  apply firstly_Group, firstly_Plus; [done..|].
  by eapply FdClause_head_not_digit.
Qed.

Lemma later_port_nil digits clause fd caps t :
  Forall (λ c, digit c = true) digits → FdClause clause fd →
  t `suffix_of` js "at port " ++ digits ++ clause →
  t ≠ js "at port " ++ digits ++ clause →
  run R_port t caps = [].
Proof.
  intros Hdigits Hfd Hsuffix Hne. apply run_Seq_nil.
  change (js "at port ") with (chr "a" :: js "t port ") in *.
  apply run_lit_head_nil.
  apply (suffix_head (λ x, ci (chr "a") x = false) (js "t port " ++ digits ++ clause));
    [|by eapply suffix_proper_cons].
  apply Forall_app_2; [by repeat constructor|]. apply Forall_app_2.
  - eapply Forall_impl; [exact Hdigits|]. intros x Hx. by apply ci_letter_digit.
  - by eapply FdClause_no_letter.
Qed.

Lemma firstly_Opt_Char c o s caps :
  o = [] ∨ o = [c] →
  match s with [] => True | x :: _ => ci c x = false end →
  firstly (Opt (Char (ci c))) (o ++ s) caps s caps.
Proof.
  intros [-> | ->] Hs.
  - apply firstly_Opt_skip. destruct s as [|x s]; [done|]. simpl. by rewrite Hs.
  - apply firstly_Opt, firstly_Char, ci_refl.
Qed.

Section node_line.
Context (ws lt token gt digits clause : jsstring) (fd : option Z).
Context (Hws : Forall (λ c, space c = true) ws).
Context (Hlt : lt = [] ∨ lt = js "<") (Hgt : gt = [] ∨ gt = js ">").
Context (Htoken : token ≠ []) (Hchars : Forall (λ c, tokenChar c = true) token).
Context (Hname : occurs (js "name") token = false).
Context (Hdigits : digits ≠ []) (Hdigit : Forall (λ c, digit c = true) digits).
Context (Hfd : FdClause clause fd).

Local Abbreviation after_token := (afterToken gt digits clause).

Lemma after_token_head :
  match after_token with
  | [] => True
  | x :: _ => space x = true ∨ x = chr ">"
  end.
Proof. unfold afterToken. destruct Hgt as [-> | ->]; [left | right]; reflexivity. Qed.

Lemma after_token_no_n : Forall (λ x, ci (chr "n") x = false) after_token.
Proof.
  unfold afterToken. apply Forall_app_2.
  { destruct Hgt as [-> | ->]; by repeat constructor. }
  apply Forall_app_2; [by repeat constructor|]. apply Forall_app_2.
  - eapply Forall_impl; [exact Hdigit|]. intros x Hx. by apply ci_letter_digit.
  - by eapply FdClause_no_letter.
Qed.

Lemma token_head :
  match lt ++ token ++ after_token with
  | [] => True
  | x :: _ => space x = false
  end.
Proof.
  destruct Hlt as [-> | ->]; [|reflexivity].
  destruct Hchars as [|x token' Hx _]; [done|]. by apply tokenChar_spec in Hx as [? _].
Qed.

Lemma firstly_name :
  ∃ caps', firstly R_name (js "name" ++ ws ++ lt ++ token ++ after_token) ∅ [] caps'
    ∧ caps' !! 1%nat = Some token
    ∧ caps' !! 2%nat = Some digits
    ∧ decoder.parseDecimal <$> caps' !! 4%nat = fd.
Proof.
  destruct (firstly_port digits clause fd (<[1%nat := token]> ∅) Hdigits Hdigit Hfd)
    as (caps' & Hfirst & H2 & H4 & H1); [by simplify_map_eq|].
  exists caps'. split; [|by simplify_map_eq].
  eapply firstly_Seq; [apply firstly_lit|].
  eapply firstly_Seq; [apply firstly_Star; [exact Hws | exact token_head]|].
  eapply firstly_Seq.
  { apply firstly_Opt_Char; [exact Hlt|].
    destruct Hchars as [|x token' Hx _]; [done|]. apply tokenChar_spec in Hx.
    apply not_true_is_false. rewrite ci_other by (unfold chr; simpl; lia).
    unfold chr; simpl; lia. }
  eapply firstly_Seq.
  { apply firstly_Group, firstly_Plus; [done| |].
    - eapply Forall_impl; [exact Hchars|]. intros x Hx%tokenChar_spec.
      destruct Hx as (-> & _ & Hx). apply Z.eqb_neq in Hx.
      change (chr ">") with 0x3E. by rewrite Hx.
    - pose proof after_token_head as Hhead.
      destruct after_token as [|x rest]; [done|].
      destruct Hhead as [-> | ->]; [by rewrite orb_true_r | reflexivity]. }
  unfold afterToken.
  eapply firstly_Seq.
  { apply firstly_Opt_Char; [exact Hgt | reflexivity]. }
  change (js " at port ") with (0x20 :: js "at port "). cbn [app].
  eapply firstly_Seq; [by apply firstly_Char|].
  apply (firstly_search dot _ []); [constructor | | exact Hfirst].
  intros t Ht Hne. by eapply later_port_nil.
Qed.

Lemma later_name_nil t caps :
  t `suffix_of` js "name" ++ ws ++ lt ++ token ++ after_token →
  t ≠ js "name" ++ ws ++ lt ++ token ++ after_token →
  run R_name t caps = [].
Proof.
  intros Hsuffix Hne. apply run_Seq_nil, run_lit_nil, not_true_is_false. intros Hprefix.
  assert (Htail : t `suffix_of` js "ame" ++ ws ++ lt ++ token ++ after_token).
  { apply (suffix_proper_cons _ _ (chr "n")); [exact Hsuffix | exact Hne]. }
  apply (prefix_ci_occurs _ _ _ Htail) in Hprefix.
  rewrite 2!(app_assoc _ _ (token ++ _)) in Hprefix.
  change (js "name") with (chr "n" :: js "ame") in Hprefix.
  rewrite occurs_skip in Hprefix.
  - change (chr "n" :: js "ame") with (js "name") in Hprefix.
    rewrite occurs_name_app in Hprefix; [done | exact Hname | exact after_token_no_n |].
    pose proof after_token_head as Hhead.
    destruct after_token as [|x rest]; [done|].
    destruct Hhead as [Hx | ->]; [|by repeat split].
    repeat split; apply ci_letter_space; (done || unfold chr; simpl; lia).
  - apply Forall_app_2; [|apply Forall_app_2].
    + by repeat constructor.
    + eapply Forall_impl; [exact Hws|]. intros x Hx.
      apply ci_letter_space; [unfold chr; simpl; lia | done].
    + destruct Hlt as [-> | ->]; by repeat constructor.
Qed.

End node_line.


(** The condition on the token is needed: the search for [name] prefers
    the last place from which the rest still matches, so a token that
    contains [name] before further characters loses its beginning. *)
Example parseNodeLine_name_in_token :
  decoder.parseNodeLine (js "name name1 at port 342")
  = Some (mkNodeEntry (js "1") 342 None)
  ∧ decoder.parseNodeLine (js "name hostname at port 342")
    = Some (mkNodeEntry (js "hostname") 342 None).
Proof. split; vm_compute; reflexivity. Qed.

End grammar_facts.

(** ** The text listing *)

Section listing_facts.
Import RegExp grammar.

Implicit Types (s line : jsstring) (lines : list jsstring).










(** ASCII text is its own UTF-8 encoding. *)
Lemma utf8Bytes_ascii s : Forall (λ c, c < 0x80) s → utf8Bytes s = s.
Proof.
  unfold utf8Bytes. induction 1 as [|c s Hc Hs IH]; [reflexivity|].
  cbn [utf8Chars]. unfold isLeadSurrogate, isTrailSurrogate, utf8CodePoint.
  destruct (Z.leb_spec 0xD800 c); [lia|]. destruct (Z.leb_spec 0xDC00 c); [lia|].
  destruct (Z.ltb_spec c 0x80); [|lia]. simpl. by rewrite IH.
Qed.

Lemma toString_ascii s : Forall (λ c, c < 0x80) s → utf8.toString s = s.
Proof.
  unfold utf8.toString. induction 1 as [|c s Hc Hs IH]; [reflexivity|].
  cbn [utf8.decodeFrom]. unfold utf8.step, utf8.start. cbn [utf8.needed utf8.init].
  change (0 =? 0) with true. cbv iota.
  destruct (Z.leb_spec c 0x7F); [|lia]. simpl. by rewrite IH.
Qed.

Lemma join_ascii lines :
  Forall (Forall (λ c, c < 0x80)) lines → Forall (λ c, c < 0x80) (test.join lines).
Proof.
  induction 1 as [|line lines Hline Hlines IH]; [constructor|].
  destruct lines as [|line' lines]; [done|].
  change (test.join (line :: line' :: lines))
    with (line ++ 0x0A :: test.join (line' :: lines)).
  apply Forall_app_2; [done|]. by constructor.
Qed.


End listing_facts.

(** ** Every entry comes from a line of the grammar *)

Section soundness.
Import RegExp grammar.

Implicit Types (r : RegExp.t) (s t m : jsstring) (caps : gmap nat jsstring)
  (p : Z → bool).

Lemma star_sound p s t :
  t ∈ star p s → ∃ m, s = m ++ t ∧ Forall (λ c, p c = true) m.
Proof.
  revert t. induction s as [|c s IH]; intros t; cbn [star].
  - intros ->%list_elem_of_singleton. by exists [].
  - destruct (p c) eqn:Hc.
    + rewrite elem_of_app, list_elem_of_singleton. intros [Ht | ->].
      * destruct (IH t Ht) as (m & -> & Hm). exists (c :: m). by split; [|constructor].
      * by exists [].
    + intros ->%list_elem_of_singleton. by exists [].
Qed.

(** Whatever [run] lists is a match. *)
Lemma run_sound r s caps s' caps' :
  (s', caps') ∈ run r s caps → ∃ m, s = m ++ s' ∧ Matches r m caps caps'.
Proof.
  revert s caps s' caps'.
  induction r as [|p|r1 IH1 r2 IH2|p|r IH|n r IH]; intros s caps s' caps'; cbn [run].
  - intros [= -> ->]%list_elem_of_singleton. exists []. split; [done | constructor].
  - destruct s as [|c s]; [by intros ?%elem_of_nil|].
    destruct (p c) eqn:Hc; [|by intros ?%elem_of_nil].
    intros [= -> ->]%list_elem_of_singleton. exists [c]. split; [done | by constructor].
  - intros ([s1 caps1] & H2 & H1)%list_elem_of_bind.
    destruct (IH1 _ _ _ _ H1) as (m1 & -> & Hm1).
    destruct (IH2 _ _ _ _ H2) as (m2 & -> & Hm2).
    exists (m1 ++ m2). split; [by rewrite app_assoc | by econstructor].
  - intros (t & [= -> ->] & Ht)%list_elem_of_fmap.
    destruct (star_sound _ _ _ Ht) as (m & -> & Hm).
    exists m. split; [done | by constructor].
  - rewrite elem_of_app, list_elem_of_singleton. intros [H | [= -> ->]].
    + destruct (IH _ _ _ _ H) as (m & -> & Hm). exists m. split; [done | by constructor].
    + exists []. split; [done | constructor].
  - intros ([t caps0] & [= -> ->] & H)%list_elem_of_fmap.
    destruct (IH _ _ _ _ H) as (m & -> & Hm). exists m. split; [done|].
    rewrite length_app.
    replace (length m + length t - length t)%nat with (length m) by lia.
    rewrite take_app_length. by constructor.
Qed.

Lemma exec_sound r s caps :
  exec r s = Some caps → ∃ pre m post, s = pre ++ m ++ post ∧ Matches r m ∅ caps.
Proof.
  induction s as [|x s IH]; cbn [exec].
  - destruct (run r [] ∅) as [|[s' caps'] others] eqn:Hrun; [done|]. intros [= ->].
    destruct (run_sound r [] ∅ s' caps) as (m & Hm & HM); [rewrite Hrun; left|].
    by exists [], m, s'.
  - destruct (run r (x :: s) ∅) as [|[s' caps'] others] eqn:Hrun.
    + intros (pre & m & post & -> & HM)%IH. by exists (x :: pre), m, post.
    + intros [= ->].
      destruct (run_sound r (x :: s) ∅ s' caps) as (m & Hm & HM); [rewrite Hrun; left|].
      by exists [], m, s'.
Qed.

(** *** Inversion of matches *)

Lemma Matches_Char_inv p m caps caps' :
  Matches (Char p) m caps caps' → ∃ c, m = [c] ∧ p c = true ∧ caps' = caps.
Proof. inversion 1; subst. by eexists. Qed.

Lemma Matches_Seq_inv r1 r2 m caps caps'' :
  Matches (Seq r1 r2) m caps caps'' →
  ∃ m1 m2 caps', m = m1 ++ m2 ∧ Matches r1 m1 caps caps' ∧ Matches r2 m2 caps' caps''.
Proof. inversion 1; subst. by eexists _, _, _. Qed.

Lemma Matches_Star_inv p m caps caps' :
  Matches (Star p) m caps caps' → Forall (λ c, p c = true) m ∧ caps' = caps.
Proof. by inversion 1; subst. Qed.

Lemma Matches_Opt_inv r m caps caps' :
  Matches (Opt r) m caps caps' → (m = [] ∧ caps' = caps) ∨ Matches r m caps caps'.
Proof. inversion 1; subst; auto. Qed.

Lemma Matches_Group_inv n r m caps caps' :
  Matches (Group n r) m caps caps' →
  ∃ caps0, Matches r m caps caps0 ∧ caps' = <[n := m]> caps0.
Proof. inversion 1; subst. by eexists. Qed.

Lemma Matches_Plus_inv p m caps caps' :
  Matches (Plus p) m caps caps' →
  m ≠ [] ∧ Forall (λ c, p c = true) m ∧ caps' = caps.
Proof.
  intros (m1 & m2 & caps1 & -> & H1 & H2)%Matches_Seq_inv.
  apply Matches_Char_inv in H1 as (c & -> & Hc & ->).
  apply Matches_Star_inv in H2 as [Hm2 ->]. split; [done|]. split; [by constructor | done].
Qed.

Lemma Matches_lit_inv l m caps caps' :
  Matches (lit l) m caps caps' → same_ci l m ∧ caps' = caps.
Proof.
  revert m caps. induction l as [|c l IH]; intros m caps; cbn [lit].
  - inversion 1; subst. split; [constructor | done].
  - intros (m1 & m2 & caps1 & -> & H1 & H2)%Matches_Seq_inv.
    apply Matches_Char_inv in H1 as (x & -> & Hx & ->).
    apply IH in H2 as [Hm2 ->]. split; [by constructor | done].
Qed.

Lemma Matches_Opt_Char_inv c m caps caps' :
  ¬ (0x41 ≤ c ≤ 0x5A) → ¬ (0x61 ≤ c ≤ 0x7A) →
  Matches (Opt (Char (ci c))) m caps caps' → (m = [] ∨ m = [c]) ∧ caps' = caps.
Proof.
  intros Hc1 Hc2 [[-> ->] | H]%Matches_Opt_inv; [by split; [left|]|].
  apply Matches_Char_inv in H as (x & -> & Hx & ->).
  apply ci_other in Hx as ->; [|done..]. by split; [right|].
Qed.

Local Infix ">>>" := Seq (at level 60, right associativity).




(** *** Every line of that shape gives an entry *)








End soundness.

(** * Further properties of the code *)

(** ** The encoder on every input *)

Section encoder_total.

Implicit Types (req : Buffer.t) (nodeName : jsstring).

Lemma writeUInt8_value_range v offset buf :
  ¬ (0 ≤ v ≤ 255) → Buffer.writeUInt8 v offset buf = Throw ERR_OUT_OF_RANGE.
Proof.
  intros Hv. unfold Buffer.writeUInt8.
  destruct (Z.gtb_spec v 255); [reflexivity|]. destruct (Z.ltb_spec v 0); [reflexivity | lia].
Qed.

Lemma writeUInt16BE_value_bad v offset buf :
  ¬ (0 ≤ v ≤ 65535) → Buffer.writeUInt16BE v offset buf = Throw ERR_OUT_OF_RANGE.
Proof.
  intros Hv. unfold Buffer.writeUInt16BE.
  destruct (Z.gtb_spec v 65535); [reflexivity|]. destruct (Z.ltb_spec v 0); [reflexivity | lia].
Qed.

(** A port that does not fit a u16 is rejected by the second write. *)
Lemma alive2Request_bad_port port nodeName :
  ¬ (0 ≤ port ≤ 65535) → encoder.alive2Request port nodeName = Throw ERR_OUT_OF_RANGE.
Proof.
  intros Hport. pose proof (byteLength_nonneg nodeName) as Hnn.
  unfold encoder.alive2Request. cbv zeta.
  set (L := Buffer.byteLength nodeName) in *.
  change (Buffer.alloc 0) with (Ok (E:=JsError) (@nil Z)).
  cbn [mbind result_bind]. change (Buffer.length []) with 0.
  replace (1 + 2 + 1 + 1 + 2 + 2 + 2 + L + 2 + 0) with (1 + (L + 12)) by lia.
  rewrite alloc_split by lia. change (Z.to_nat 1) with 1%nat.
  cbn [replicate app mbind result_bind].
  rewrite_frame (writeUInt8_at constants.ALIVE2_REQ 0 [] 0
    (replicate (Z.to_nat (L + 12)) 0) eq_refl ltac:(unfold constants.ALIVE2_REQ; lia)).
  cbn [mbind result_bind]. by rewrite writeUInt16BE_value_bad.
Qed.

(** A name whose length does not fit a u16 is rejected by the write of
    the length field. *)
Lemma alive2Request_long_name port nodeName :
  0 ≤ port ≤ 65535 → 65535 < Buffer.byteLength nodeName →
  encoder.alive2Request port nodeName = Throw ERR_OUT_OF_RANGE.
Proof.
  intros Hport Hlen. unfold encoder.alive2Request. cbv zeta.
  set (L := Buffer.byteLength nodeName) in *.
  change (Buffer.alloc 0) with (Ok (E:=JsError) (@nil Z)).
  cbn [mbind result_bind]. change (Buffer.length []) with 0.
  replace (1 + 2 + 1 + 1 + 2 + 2 + 2 + L + 2 + 0) with (11 + (L + 2)) by lia.
  rewrite alloc_split by lia. change (Z.to_nat 11) with 11%nat.
  cbn [replicate app mbind result_bind].
  set (post := replicate (Z.to_nat (L + 2)) 0).
  rewrite_frame (writeUInt8_at constants.ALIVE2_REQ 0 [] 0
    (0 :: 0 :: 0 :: 0 :: 0 :: 0 :: 0 :: 0 :: 0 :: 0 :: post)
    eq_refl ltac:(unfold constants.ALIVE2_REQ; lia)).
  cbn [mbind result_bind].
  rewrite_frame (writeUInt16BE_at port 1 [constants.ALIVE2_REQ] 0 0
    (0 :: 0 :: 0 :: 0 :: 0 :: 0 :: 0 :: 0 :: post) eq_refl Hport).
  cbn [mbind result_bind].
  rewrite_frame (writeUInt8_at constants.NODE_TYPE_NORMAL 3
    [constants.ALIVE2_REQ; port / 256; port mod 256] 0
    (0 :: 0 :: 0 :: 0 :: 0 :: 0 :: 0 :: post)
    eq_refl ltac:(unfold constants.NODE_TYPE_NORMAL; lia)).
  cbn [mbind result_bind].
  rewrite_frame (writeUInt8_at constants.PROTOCOL_IPV4 4
    [constants.ALIVE2_REQ; port / 256; port mod 256; constants.NODE_TYPE_NORMAL] 0
    (0 :: 0 :: 0 :: 0 :: 0 :: 0 :: post)
    eq_refl ltac:(unfold constants.PROTOCOL_IPV4; lia)).
  cbn [mbind result_bind].
  rewrite_frame (writeUInt16BE_at 6 5
    [constants.ALIVE2_REQ; port / 256; port mod 256; constants.NODE_TYPE_NORMAL;
     constants.PROTOCOL_IPV4] 0 0
    (0 :: 0 :: 0 :: 0 :: post) eq_refl ltac:(lia)).
  cbn [mbind result_bind].
  rewrite_frame (writeUInt16BE_at 5 7
    [constants.ALIVE2_REQ; port / 256; port mod 256; constants.NODE_TYPE_NORMAL;
     constants.PROTOCOL_IPV4; 6 / 256; 6 mod 256] 0 0
    (0 :: 0 :: post) eq_refl ltac:(lia)).
  cbn [mbind result_bind]. rewrite writeUInt16BE_value_bad by lia. reflexivity.
Qed.

End encoder_total.

(** X1: [alive2Request] on every port and name: it returns the
    registration layout when the port and the byte length of the name
    fit a u16 each (the empty name included), and throws
    ERR_OUT_OF_RANGE otherwise. *)
Theorem X1_alive2Request_every_input (port : Z) (nodeName : jsstring) :
  encoder.alive2Request port nodeName
  = if (0 <=? port) && (port <=? 65535) && (Buffer.byteLength nodeName <=? 65535)
    then Ok ([120; port / 256; port mod 256; 77; 0; 0; 6; 0; 5;
              Buffer.byteLength nodeName / 256; Buffer.byteLength nodeName mod 256]
             ++ utf8Bytes nodeName ++ [0; 0])
    else Throw ERR_OUT_OF_RANGE.
Proof.
  destruct (Z.leb_spec 0 port); simpl; [|apply alive2Request_bad_port; lia].
  destruct (Z.leb_spec port 65535); simpl; [|apply alive2Request_bad_port; lia].
  destruct (Z.leb_spec (Buffer.byteLength nodeName) 65535).
  - by apply alive2Request_ok.
  - by apply alive2Request_long_name.
Qed.

(** X2: frames are self-delimiting: when a frame of [requestWrapper]
    followed by any bytes equals another such frame followed by any
    bytes, the two payloads are the same and so is what follows. *)
Theorem X2_requestWrapper_self_delimiting (p q frame frame' s t : Buffer.t) :
  encoder.requestWrapper p = Ok frame →
  encoder.requestWrapper q = Ok frame' →
  frame ++ s = frame' ++ t →
  p = q ∧ s = t.
Proof.
  intros Hp Hq Heq.
  assert (Hparts : ∀ r f, encoder.requestWrapper r = Ok f →
            ∃ b0 b1, f = b0 :: b1 :: r ∧ 0 ≤ b1 < 256 ∧ 256 * b0 + b1 = Buffer.length r).
  { intros r f Hr. destruct (Z.le_gt_cases (Buffer.length r) 65535) as [Hle|Hgt].
    - destruct (requestWrapper_prefix r Hle) as (b0 & b1 & Hf & _ & ? & ?).
      rewrite Hf in Hr. injection Hr as <-. by exists b0, b1.
    - rewrite requestWrapper_too_long in Hr by lia. discriminate. }
  destruct (Hparts p frame Hp) as (b0 & b1 & -> & Hb1 & Hlen).
  destruct (Hparts q frame' Hq) as (c0 & c1 & -> & Hc1 & Hlen').
  cbn [app] in Heq. injection Heq as -> -> Heq.
  apply app_inj_1 in Heq; [done|]. unfold Buffer.length in *. lia.
Qed.

Lemma X2_witness :
  encoder.requestWrapper [107] = Ok [0; 1; 107]
  ∧ encoder.requestWrapper [107] = Ok [0; 1; 107]
  ∧ [0; 1; 107] ++ [0; 1; 110] = [0; 1; 107] ++ [0; 1; 110]
  ∧ ([107] = [107] ∧ [0; 1; 110] = [0; 1; 110]).
Proof.
  assert (H : encoder.requestWrapper [107] = Ok [0; 1; 107]) by (vm_compute; reflexivity).
  split; [exact H|]. split; [exact H|]. split; [reflexivity|].
  exact (X2_requestWrapper_self_delimiting [107] [107] _ _ [0; 1; 110] [0; 1; 110]
           H H eq_refl).
Defined.

(** ** The requests of a client, on the wire *)

Section client_wire.
Context {E : Type}.
Implicit Types (this : Client.t E) (sock : Client.Socket) (nodeName name : jsstring).

Lemma length_alive2_layout port nodeName :
  Buffer.length ([120; port / 256; port mod 256; 77; 0; 0; 6; 0; 5;
                  Buffer.byteLength nodeName / 256; Buffer.byteLength nodeName mod 256]
                 ++ utf8Bytes nodeName ++ [0; 0])
  = 13 + Buffer.byteLength nodeName.
Proof.
  rewrite !length_app_Z. fold (Buffer.byteLength nodeName).
  change (Buffer.length [120; _; _; 77; 0; 0; 6; 0; 5; _; _]) with 11.
  change (Buffer.length [0; 0]) with 2. lia.
Qed.

Lemma _send_result req sock this :
  Client.client this = Some sock →
  Client._send req this
  = if Buffer.length req <=? 65535
    then Ok (sent (Buffer.length req / 256 :: Buffer.length req mod 256 :: req) sock this)
    else Throw ERR_OUT_OF_RANGE.
Proof.
  intros Hsock. rewrite (_send_connected req sock) by done.
  destruct (Z.leb_spec (Buffer.length req) 65535).
  - by rewrite requestWrapper_ok.
  - by rewrite requestWrapper_too_long.
Qed.

Lemma register_accepts port name sock this :
  Client.client this = Some sock →
  0 ≤ port ≤ 65535 → Buffer.byteLength name ≤ 65522 →
  Client.register port name this
  = Ok (sent ([(13 + Buffer.byteLength name) / 256;
               (13 + Buffer.byteLength name) mod 256;
               120; port / 256; port mod 256; 77; 0; 0; 6; 0; 5;
               Buffer.byteLength name / 256; Buffer.byteLength name mod 256]
              ++ utf8Bytes name ++ [0; 0]) sock this).
Proof.
  intros Hsock Hport Hlen. unfold Client.register.
  rewrite alive2Request_ok by lia. cbn [mbind result_bind].
  rewrite (_send_result _ sock) by done. rewrite length_alive2_layout.
  destruct (Z.leb_spec (13 + Buffer.byteLength name) 65535); [reflexivity | lia].
Qed.

Lemma register_rejects port name sock this :
  Client.client this = Some sock →
  ¬ (0 ≤ port ≤ 65535) ∨ 65522 < Buffer.byteLength name →
  Client.register port name this = Throw ERR_OUT_OF_RANGE.
Proof.
  intros Hsock Hbad. unfold Client.register.
  destruct (decide (0 ≤ port ≤ 65535)) as [Hport|Hport];
    [|by rewrite alive2Request_bad_port].
  destruct Hbad as [|Hlen]; [done|].
  destruct (Z.le_gt_cases (Buffer.byteLength name) 65535).
  - rewrite alive2Request_ok by lia. cbn [mbind result_bind].
    rewrite (_send_result _ sock) by done. rewrite length_alive2_layout.
    destruct (Z.leb_spec (13 + Buffer.byteLength name) 65535); [lia | reflexivity].
  - by rewrite alive2Request_long_name by lia.
Qed.

Lemma getNode_accepts name sock this :
  Client.client this = Some sock → Buffer.byteLength name ≤ 65534 →
  Client.getNode name this
  = Ok (sent ([(1 + Buffer.byteLength name) / 256;
               (1 + Buffer.byteLength name) mod 256; 122] ++ utf8Bytes name)
          sock this).
Proof.
  intros Hsock Hlen. unfold Client.getNode. rewrite portPleaseRequest_ok.
  cbn [mbind result_bind]. rewrite (_send_result _ sock) by done.
  rewrite length_cons_Z. fold (Buffer.byteLength name).
  destruct (Z.leb_spec (1 + Buffer.byteLength name) 65535); [reflexivity | lia].
Qed.

Lemma getNode_rejects name sock this :
  Client.client this = Some sock → 65534 < Buffer.byteLength name →
  Client.getNode name this = Throw ERR_OUT_OF_RANGE.
Proof.
  intros Hsock Hlen. unfold Client.getNode. rewrite portPleaseRequest_ok.
  cbn [mbind result_bind]. rewrite (_send_result _ sock) by done.
  rewrite length_cons_Z. fold (Buffer.byteLength name).
  destruct (Z.leb_spec (1 + Buffer.byteLength name) 65535); [lia | reflexivity].
Qed.

End client_wire.

(** X3: [register] on a connected client hands the socket one chunk, the
    registration payload behind its length, exactly when the port fits a
    u16 and the name has at most 65522 UTF-8 bytes; otherwise it throws
    ERR_OUT_OF_RANGE and nothing is written.  A name of 65523 to 65535
    bytes still encodes, and is then refused by the wrapper. *)
Theorem X3_register_on_the_wire {E : Type} (this : Client.t E) (sock : Client.Socket)
    (port : Z) (name : jsstring) :
  Client.client this = Some sock →
  Client.register port name this
  = if (0 <=? port) && (port <=? 65535) && (Buffer.byteLength name <=? 65522)
    then Ok (sent ([(13 + Buffer.byteLength name) / 256;
                    (13 + Buffer.byteLength name) mod 256;
                    120; port / 256; port mod 256; 77; 0; 0; 6; 0; 5;
                    Buffer.byteLength name / 256; Buffer.byteLength name mod 256]
                   ++ utf8Bytes name ++ [0; 0]) sock this)
    else Throw ERR_OUT_OF_RANGE.
Proof.
  intros Hsock.
  destruct (Z.leb_spec 0 port); simpl;
    [|by apply (register_rejects _ _ sock); [|left; lia]].
  destruct (Z.leb_spec port 65535); simpl;
    [|by apply (register_rejects _ _ sock); [|left; lia]].
  destruct (Z.leb_spec (Buffer.byteLength name) 65522).
  - by apply register_accepts.
  - apply (register_rejects _ _ sock); [done | by right].
Qed.

Lemma X3_witness :
  Client.client connected = Some (Client.mkSocket [])
  ∧ Client.register 1337 (js "testing") connected
    = Ok (sent ([0; 20; 120; 5; 57; 77; 0; 0; 6; 0; 5; 0; 7]
                ++ utf8Bytes (js "testing") ++ [0; 0]) (Client.mkSocket []) connected)
  ∧ Client.register 65536 (js "testing") connected = Throw ERR_OUT_OF_RANGE.
Proof.
  assert (H : Client.client connected = Some (Client.mkSocket [])) by reflexivity.
  split; [exact H|]. split.
  - exact (X3_register_on_the_wire connected _ 1337 (js "testing") H).
  - exact (X3_register_on_the_wire connected _ 65536 (js "testing") H).
Defined.

(** X4: [getNode] on a connected client hands the socket one chunk, the
    length, the opcode 122 and the whole UTF-8 name, exactly when the
    name has at most 65534 bytes; otherwise it throws ERR_OUT_OF_RANGE
    and nothing is written. *)
Theorem X4_getNode_on_the_wire {E : Type} (this : Client.t E) (sock : Client.Socket)
    (name : jsstring) :
  Client.client this = Some sock →
  Client.getNode name this
  = if Buffer.byteLength name <=? 65534
    then Ok (sent ([(1 + Buffer.byteLength name) / 256;
                    (1 + Buffer.byteLength name) mod 256; 122] ++ utf8Bytes name)
               sock this)
    else Throw ERR_OUT_OF_RANGE.
Proof.
  intros Hsock. destruct (Z.leb_spec (Buffer.byteLength name) 65534).
  - by apply getNode_accepts.
  - by apply (getNode_rejects _ sock).
Qed.

Lemma X4_witness :
  Client.client connected = Some (Client.mkSocket [])
  ∧ Client.getNode (js "testing") connected
    = Ok (sent ([0; 8; 122] ++ utf8Bytes (js "testing")) (Client.mkSocket []) connected)
  ∧ Client.getNode [] connected
    = Ok (sent [0; 1; 122] (Client.mkSocket []) connected).
Proof.
  assert (H : Client.client connected = Some (Client.mkSocket [])) by reflexivity.
  split; [exact H|]. split.
  - exact (X4_getNode_on_the_wire connected _ (js "testing") H).
  - exact (X4_getNode_on_the_wire connected _ [] H).
Defined.

(** X5: on a connected client [getAllNodes], [dumpEpmd] and [killEpmd]
    never fail: each hands the socket the three bytes 0, 1 and its
    opcode, whatever was written or emitted before. *)
Theorem X5_plain_requests_on_the_wire {E : Type} (this : Client.t E)
    (sock : Client.Socket) :
  Client.client this = Some sock →
  Client.getAllNodes this = Ok (sent [0; 1; constants.NAMES_REQ] sock this)
  ∧ Client.dumpEpmd this = Ok (sent [0; 1; constants.DUMP_REQ] sock this)
  ∧ Client.killEpmd this = Ok (sent [0; 1; constants.KILL_REQ] sock this).
Proof.
  intros Hsock. unfold Client.getAllNodes, Client.dumpEpmd, Client.killEpmd.
  change encoder.namesRequest with (Ok (E:=JsError) [constants.NAMES_REQ]).
  change encoder.dumpRequest with (Ok (E:=JsError) [constants.DUMP_REQ]).
  change encoder.killRequest with (Ok (E:=JsError) [constants.KILL_REQ]).
  cbn [mbind result_bind]. rewrite !(_send_result _ sock) by done.
  repeat split.
Qed.

Lemma X5_witness :
  Client.client connected = Some (Client.mkSocket [])
  ∧ Client.getAllNodes connected = Ok (sent [0; 1; 110] (Client.mkSocket []) connected)
  ∧ Client.dumpEpmd connected = Ok (sent [0; 1; 100] (Client.mkSocket []) connected)
  ∧ Client.killEpmd connected = Ok (sent [0; 1; 107] (Client.mkSocket []) connected).
Proof.
  assert (H : Client.client connected = Some (Client.mkSocket [])) by reflexivity.
  split; [exact H|]. exact (X5_plain_requests_on_the_wire connected _ H).
Defined.

(** X6: a client that has not connected never sends: every request
    throws, with the error of the encoder or of the wrapper when the
    frame cannot be built and with TypeError otherwise. *)
Theorem X6_no_request_before_connect {E : Type} (this : Client.t E) (r : Request) :
  Client.client this = None →
  (∀ this', issue r this ≠ Ok this')
  ∧ (∀ frame, (payload ← encode r; encoder.requestWrapper payload) = Ok frame →
       issue r this = Throw TypeError)
  ∧ (∀ e, (payload ← encode r; encoder.requestWrapper payload) = Throw e →
       issue r this = Throw e).
Proof.
  intros Hnone. rewrite issue_unfold.
  destruct (encode r) as [payload|e] eqn:Hencode; cbn [mbind result_bind].
  - unfold Client._send, Client.write. rewrite Hnone.
    destruct (encoder.requestWrapper payload) as [frame|e]; cbn [mbind result_bind].
    + split; [done|]. split; [done | intros e [=]].
    + split; [done|]. split; [intros frame [=] | by intros e' [= ->]].
  - split; [done|]. split; [intros frame [=] | by intros e' [= ->]].
Qed.

Lemma X6_witness :
  Client.client idle = None
  ∧ issue Kill idle = Throw TypeError
  ∧ issue (Register 65536 (js "testing")) idle = Throw ERR_OUT_OF_RANGE.
Proof.
  assert (H : Client.client idle = None) by reflexivity.
  split; [exact H|]. split.
  - refine (proj1 (proj2 (X6_no_request_before_connect idle Kill H)) [0; 1; 107] _).
    vm_compute; reflexivity.
  - refine (proj2 (proj2 (X6_no_request_before_connect idle
              (Register 65536 (js "testing")) H)) ERR_OUT_OF_RANGE _).
    vm_compute; reflexivity.
Defined.

(** ** The table of events *)

Lemma TYPE_EVENT_MAP_lookup (c : Z) :
  TYPE_EVENT_MAP !! c
  = if c =? constants.PORT2_RESP then Some "node"%string
    else if (c =? constants.ALIVE2_X_RESP) || (c =? constants.ALIVE_RESP)
    then Some "alive"%string
    else None.
Proof.
  unfold TYPE_EVENT_MAP.
  destruct (Z.eqb_spec c constants.PORT2_RESP) as [->|H1]; [by simplify_map_eq|].
  destruct (Z.eqb_spec c constants.ALIVE2_X_RESP) as [->|H2]; [by simplify_map_eq|].
  destruct (Z.eqb_spec c constants.ALIVE_RESP) as [->|H3]; by simplify_map_eq.
Qed.

(** ** The dispatcher and its listeners *)

(** X7: what [_onData] does around its one [emit], whatever the
    listeners are.  When the decoder returns [false] nothing is emitted
    and no listener runs.  An exception that leaves the [emit] of a
    decoded value is caught and emitted as "error", in the state that
    the listeners left, and this second [emit] is outside the [try].
    An "error" event that has no listener is recorded and thrown, so
    with no listener of "error" a failure of the decoder leaves
    [_onData]. *)
Theorem X7_onData_catch_path {E : Type} (thrown : index.RuntimeError → E)
    (decode : Buffer.t → result E Decoded) (on : index.Listeners)
    (data : Buffer.t) (w : index.World) :
  (decode data = Ok DFalse → index._onData thrown decode on data w = (w, None))
  ∧ (∀ resp e w',
     decode data = Ok resp → resp ≠ DFalse →
     index.emit thrown on
       (if Client.truthy (Client.codeOf resp)
        then c ← Client.codeOf resp; TYPE_EVENT_MAP !! c
        else Some "nodeinfo"%string)
       (Some (Client.Value resp)) w
     = (w', Some e) →
     index._onData thrown decode on data w
     = index.emit thrown on (Some "error"%string) (Some (Client.Error e)) w')
  ∧ (∀ e w',
     on (Some "error"%string) = [] →
     index.emit thrown on (Some "error"%string) (Some (Client.Error e)) w'
     = (index.mkWorld
          (Client.mkClient (Client.host (index.c w')) (Client.port (index.c w'))
             (Client.client (index.c w'))
             (Client.emitted (index.c w') ++ [(Some "error"%string, Client.Error e)]))
          (index.destroyed w') (index.signals w') (index.promise w'), Some e))
  ∧ (∀ e,
     decode data = Throw e → on (Some "error"%string) = [] →
     index._onData thrown decode on data w
     = (index.mkWorld
          (Client.mkClient (Client.host (index.c w)) (Client.port (index.c w))
             (Client.client (index.c w))
             (Client.emitted (index.c w) ++ [(Some "error"%string, Client.Error e)]))
          (index.destroyed w) (index.signals w) (index.promise w), Some e)).
Proof.
  assert (Hunhandled : ∀ e w',
    on (Some "error"%string) = [] →
    index.emit thrown on (Some "error"%string) (Some (Client.Error e)) w'
    = (index.mkWorld
         (Client.mkClient (Client.host (index.c w')) (Client.port (index.c w'))
            (Client.client (index.c w'))
            (Client.emitted (index.c w') ++ [(Some "error"%string, Client.Error e)]))
         (index.destroyed w') (index.signals w') (index.promise w'), Some e)).
  { intros e w' Hon. unfold index.emit, index.seq. rewrite Hon. reflexivity. }
  unfold index._onData. split; [|split; [|split]].
  - by intros ->.
  - intros resp e w' -> Hresp Hemit. unfold index.try.
    destruct resp as [|resp|entries]; [done| |];
      destruct (Client.truthy _); by rewrite Hemit.
  - exact Hunhandled.
  - intros e -> Hon. by apply Hunhandled.
Qed.

Lemma X7_witness :
  index._onData linked.thrown linked.decode linked.failing [121; 0; 0; 1] linked.fresh
  = (index.mkWorld
       (Client.mkClient (js "localhost") 4369 None
          [(Some "alive"%string,
            Client.Value (DResponse (mkResponse 121 (AliveAck [0; 1]))));
           (Some "error"%string, Client.Error (linked.thrown (index.Js TypeError)))])
       false [] index.Pending, Some (linked.thrown (index.Js TypeError)))
  ∧ index._onData linked.thrown (λ _, Ok DFalse) linked.failing [] linked.fresh
    = (linked.fresh, None)
  ∧ index._onData linked.thrown linked.decode linked.failing [121; 1; 0; 1] linked.fresh
    = (index.mkWorld
         (Client.mkClient (js "localhost") 4369 None
            [(Some "error"%string,
              Client.Error (inr (decoder.ProtocolStatusError 121 1)))])
         false [] index.Pending, Some (inr (decoder.ProtocolStatusError 121 1))).
Proof.
  assert (H1 : linked.decode [121; 0; 0; 1]
               = Ok (DResponse (mkResponse 121 (AliveAck [0; 1]))))
    by (vm_compute; reflexivity).
  assert (H3 : linked.decode [121; 1; 0; 1]
               = Throw (inr (decoder.ProtocolStatusError 121 1)))
    by (vm_compute; reflexivity).
  split; [|split].
  - destruct (X7_onData_catch_path linked.thrown linked.decode linked.failing
                [121; 0; 0; 1] linked.fresh)
      as (_ & Hcatch & Hunhandled & _).
    rewrite (Hcatch _ (linked.thrown (index.Js TypeError))
               (index.mkWorld
                  (Client.mkClient (js "localhost") 4369 None
                     [(Some "alive"%string,
                       Client.Value (DResponse (mkResponse 121 (AliveAck [0; 1]))))])
                  false [] index.Pending)
               H1 ltac:(discriminate) ltac:(vm_compute; reflexivity)).
    exact (Hunhandled _ _ eq_refl).
  - exact (proj1 (X7_onData_catch_path linked.thrown (λ _, Ok DFalse) linked.failing []
                    linked.fresh) eq_refl).
  - exact (proj2 (proj2 (proj2 (X7_onData_catch_path linked.thrown linked.decode linked.failing
                                  [121; 1; 0; 1] linked.fresh))) _ H3 eq_refl).
Defined.

(** X8: the event of a response object is read off its code alone,
    whatever the listeners are: code 0 is falsy and goes out as
    "nodeinfo"; 119 as "node"; 118 and 121 as "alive"; any other code
    has no entry in TYPE_EVENT_MAP, and the response is emitted under
    the event name [undefined]. *)
Theorem X8_onData_event_of_code {E : Type} (thrown : index.RuntimeError → E)
    (decode : Buffer.t → result E Decoded) (on : index.Listeners)
    (data : Buffer.t) (w : index.World) (resp : Response) :
  decode data = Ok (DResponse resp) →
  index._onData thrown decode on data w
  = index.try
      (index.emit thrown on
         (if code resp =? 0 then Some "nodeinfo"%string
          else if code resp =? 119 then Some "node"%string
          else if (code resp =? 118) || (code resp =? 121) then Some "alive"%string
          else None)
         (Some (Client.Value (DResponse resp))))
      (λ e, index.emit thrown on (Some "error"%string) (Some (Client.Error e))) w.
Proof.
  intros Hdecode. unfold index._onData. rewrite Hdecode.
  cbn [Client.codeOf Client.truthy mbind option_bind].
  destruct (Z.eqb_spec (code resp) 0) as [H0|H0]; cbn [negb]; [reflexivity|].
  by rewrite TYPE_EVENT_MAP_lookup.
Qed.

Lemma X8_witness :
  index._onData linked.thrown (λ _, Ok (DResponse (mkResponse 5 (AliveAck []))))
    linked.noListeners [5] linked.fresh
  = (index.mkWorld
       (Client.mkClient (js "localhost") 4369 None
          [(None, Client.Value (DResponse (mkResponse 5 (AliveAck []))))])
       false [] index.Pending, None)
  ∧ index._onData linked.thrown (λ _, Ok (DResponse (mkResponse 0 (AliveAck []))))
      linked.noListeners [0] linked.fresh
    = (index.mkWorld
         (Client.mkClient (js "localhost") 4369 None
            [(Some "nodeinfo"%string,
              Client.Value (DResponse (mkResponse 0 (AliveAck []))))])
         false [] index.Pending, None).
Proof.
  split.
  - exact (X8_onData_event_of_code linked.thrown
             (λ _, Ok (DResponse (mkResponse 5 (AliveAck [])))) linked.noListeners [5]
             linked.fresh
             (mkResponse 5 (AliveAck [])) eq_refl).
  - exact (X8_onData_event_of_code linked.thrown
             (λ _, Ok (DResponse (mkResponse 0 (AliveAck [])))) linked.noListeners [0]
             linked.fresh
             (mkResponse 0 (AliveAck [])) eq_refl).
Defined.

(** ** Names by their length in UTF-16 code units *)

Section name_length.

Implicit Types (s : jsstring) (c d : Z).

(** Induction along the characters of a string, one or two code units
    at a time. *)
Lemma jsstring_pair_ind (P : jsstring → Prop) :
  P [] → (∀ c, P [c]) → (∀ c d s, P s → P (d :: s) → P (c :: d :: s)) →
  ∀ s, P s.
Proof.
  intros Hnil Hone Hstep s.
  enough (P s ∧ ∀ c, P (c :: s)) by tauto.
  induction s as [|d s [IH1 IH2]]; [by split|].
  split; [apply IH2|]. intros c. by apply Hstep.
Qed.

Lemma length_utf8CodePoint c :
  1 ≤ Buffer.length (utf8CodePoint c)
  ∧ (c < 0x10000 → Buffer.length (utf8CodePoint c) ≤ 3)
  ∧ Buffer.length (utf8CodePoint c) ≤ 4.
Proof.
  unfold utf8CodePoint.
  destruct (Z.ltb_spec c 0x80); [by vm_compute|].
  destruct (Z.ltb_spec c 0x800); [by vm_compute|].
  destruct (Z.ltb_spec c 0x10000); [by vm_compute|].
  split; [by vm_compute|]. split; [lia | by vm_compute].
Qed.

Lemma utf8Chars_pair c d s :
  utf8Chars (c :: d :: s)
  = if isLeadSurrogate c then
      if isTrailSurrogate d
      then utf8CodePoint (0x10000 + (c - 0xD800) * 1024 + (d - 0xDC00)) :: utf8Chars s
      else utf8Replacement :: utf8Chars (d :: s)
    else if isTrailSurrogate c then utf8Replacement :: utf8Chars (d :: s)
    else utf8CodePoint c :: utf8Chars (d :: s).
Proof. reflexivity. Qed.

Lemma byteLength_chars char s' s :
  utf8Chars s = char :: utf8Chars s' →
  Buffer.byteLength s = Buffer.length char + Buffer.byteLength s'.
Proof.
  intros Hs. unfold Buffer.byteLength, utf8Bytes. rewrite Hs. cbn [concat].
  apply length_app_Z.
Qed.

Lemma length_utf8CodePoint_pair c d :
  isLeadSurrogate c = true → isTrailSurrogate d = true →
  Buffer.length (utf8CodePoint (0x10000 + (c - 0xD800) * 1024 + (d - 0xDC00))) = 4.
Proof.
  intros [?%Z.leb_le ?%Z.leb_le]%andb_true_iff [?%Z.leb_le ?%Z.leb_le]%andb_true_iff.
  unfold utf8CodePoint.
  destruct (Z.ltb_spec (0x10000 + (c - 0xD800) * 1024 + (d - 0xDC00)) 0x80); [lia|].
  destruct (Z.ltb_spec (0x10000 + (c - 0xD800) * 1024 + (d - 0xDC00)) 0x800); [lia|].
  destruct (Z.ltb_spec (0x10000 + (c - 0xD800) * 1024 + (d - 0xDC00)) 0x10000); [lia|].
  reflexivity.
Qed.

(** A string takes at least one byte for each of its code units and at
    most three. *)
Lemma byteLength_bounds s :
  Forall (λ c, c < 0x10000) s →
  Buffer.length s ≤ Buffer.byteLength s ≤ 3 * Buffer.length s.
Proof.
  induction s as [| c | c d s IH1 IH2] using jsstring_pair_ind; intros Hs.
  - by vm_compute.
  - apply Forall_cons in Hs as [Hc _].
    destruct (length_utf8CodePoint c) as (H1 & H3 & _). specialize (H3 Hc).
    unfold Buffer.byteLength, utf8Bytes. cbn [utf8Chars].
    destruct (isLeadSurrogate c); [by vm_compute|].
    destruct (isTrailSurrogate c); [by vm_compute|].
    cbn [concat]. rewrite app_nil_r. change (Buffer.length [c]) with 1. lia.
  - apply Forall_cons in Hs as [Hc Hds].
    pose proof Hds as Hds'. apply Forall_cons in Hds' as [Hd Hs].
    specialize (IH1 Hs). specialize (IH2 Hds).
    destruct (length_utf8CodePoint c) as (H1 & H3 & _). specialize (H3 Hc).
    pose proof (utf8Chars_pair c d s) as Hchars.
    rewrite !length_cons_Z in *.
    destruct (isLeadSurrogate c) eqn:Hlead; [destruct (isTrailSurrogate d) eqn:Htrail|
      destruct (isTrailSurrogate c)];
      rewrite (byteLength_chars _ _ _ Hchars).
    + rewrite length_utf8CodePoint_pair by done. lia.
    + change (Buffer.length utf8Replacement) with 3. lia.
    + change (Buffer.length utf8Replacement) with 3. lia.
    + lia.
Qed.

End name_length.

(** X9: the limits on a name, in UTF-16 code units as [name.length]
    counts them: on a connected client and with a port that fits,
    [register] takes every name of at most 21840 code units and refuses
    every name of more than 65522; [getNode] takes every name of at
    most 21844 and refuses every name of more than 65534.  In between,
    it depends on the characters. *)
Theorem X9_name_length_limits {E : Type} (this : Client.t E) (sock : Client.Socket)
    (port : Z) (name : jsstring) :
  Client.client this = Some sock →
  0 ≤ port ≤ 65535 →
  Forall (λ c, c < 0x10000) name →
  (Z.of_nat (length name) ≤ 21840 → ∃ this', Client.register port name this = Ok this')
  ∧ (65522 < Z.of_nat (length name) →
     Client.register port name this = Throw ERR_OUT_OF_RANGE)
  ∧ (Z.of_nat (length name) ≤ 21844 → ∃ this', Client.getNode name this = Ok this')
  ∧ (65534 < Z.of_nat (length name) →
     Client.getNode name this = Throw ERR_OUT_OF_RANGE).
Proof.
  intros Hsock Hport Hname. pose proof (byteLength_bounds name Hname) as Hbounds.
  unfold Buffer.length in Hbounds. split; [|split; [|split]]; intros Hlen.
  - eexists. apply register_accepts; [done | done | lia].
  - apply (register_rejects _ _ sock); [done | right; lia].
  - eexists. apply getNode_accepts; [done | lia].
  - apply (getNode_rejects _ sock); [done | lia].
Qed.

Lemma X9_witness :
  Client.client connected = Some (Client.mkSocket [])
  ∧ 0 ≤ 1337 ≤ 65535
  ∧ Forall (λ c, c < 0x10000) (js "testing")
  ∧ (∃ this', Client.register 1337 (js "testing") connected = Ok this')
  ∧ (∃ this', Client.getNode (js "testing") connected = Ok this').
Proof.
  assert (H1 : Client.client connected = Some (Client.mkSocket [])) by reflexivity.
  assert (H2 : 0 ≤ 1337 ≤ 65535) by lia.
  assert (H3 : Forall (λ c, c < 0x10000) (js "testing"))
    by (vm_compute; repeat constructor).
  split; [exact H1|]. split; [exact H2|]. split; [exact H3|].
  pose proof (X9_name_length_limits connected _ 1337 (js "testing") H1 H2 H3)
    as (Hreg & _ & Hget & _).
  split; [apply Hreg | apply Hget]; vm_compute; discriminate.
Defined.

(** ** The frames of the tests, on every input *)

Section test_builders.

Implicit Types (nodeName : jsstring).

(** What a successful [alive2Request] says of its arguments. *)
Lemma alive2Request_Ok_inv port nodeName req :
  encoder.alive2Request port nodeName = Ok req →
  0 ≤ port ≤ 65535 ∧ Buffer.byteLength nodeName ≤ 65535
  ∧ req = [120; port / 256; port mod 256; 77; 0; 0; 6; 0; 5;
           Buffer.byteLength nodeName / 256; Buffer.byteLength nodeName mod 256]
          ++ utf8Bytes nodeName ++ [0; 0].
Proof.
  intros Hreq.
  destruct (decide (0 ≤ port ≤ 65535)) as [Hport|Hport];
    [|by rewrite alive2Request_bad_port in Hreq].
  destruct (Z.le_gt_cases (Buffer.byteLength nodeName) 65535) as [Hlen|Hlen];
    [|by rewrite alive2Request_long_name in Hreq by lia].
  rewrite alive2Request_ok in Hreq by done. by injection Hreq as <-.
Qed.

End test_builders.

(** X10: [createAliveResp] on every response code: the four bytes 121,
    the code, 0 and 1 when the code is a byte, and ERR_OUT_OF_RANGE
    otherwise. *)
Theorem X10_createAliveResp_every_code (responseCode : Z) :
  test.createAliveResp responseCode
  = if (0 <=? responseCode) && (responseCode <=? 255)
    then Ok [constants.ALIVE_RESP; responseCode; 0; 1]
    else Throw ERR_OUT_OF_RANGE.
Proof.
  destruct (Z.leb_spec 0 responseCode), (Z.leb_spec responseCode 255); simpl;
    try (by apply createAliveResp_ok);
    unfold test.createAliveResp;
    change (Buffer.alloc 4) with (Ok (E:=JsError) [0; 0; 0; 0]);
    cbn [mbind result_bind];
    change (Buffer.writeUInt8 constants.ALIVE_RESP 0 [0; 0; 0; 0])
      with (Ok (E:=JsError) [121; 0; 0; 0]);
    cbn [mbind result_bind];
    by rewrite writeUInt8_value_range by lia.
Qed.

(** X11: the PORT2_RESP frame that the tests build for a node is the
    registration request of that node with its first byte replaced by
    the opcode 119 and the result code: whenever [alive2Request] accepts
    a port and a name, [createPort2Resp] accepts them with the versions
    6 and 5, and the two buffers agree from the port field on. *)
Theorem X11_createPort2Resp_echoes_alive2Request (responseCode port : Z)
    (nodeName : jsstring) (req : Buffer.t) :
  0 ≤ responseCode ≤ 255 →
  encoder.alive2Request port nodeName = Ok req →
  test.createPort2Resp responseCode nodeName port
    constants.HIGHEST_VERSION constants.LOWEST_VERSION
  = Ok (constants.PORT2_RESP :: responseCode :: drop 1 req).
Proof.
  intros Hcode (Hport & Hlen & ->)%alive2Request_Ok_inv.
  rewrite createPort2Resp_ok by (unfold constants.HIGHEST_VERSION,
    constants.LOWEST_VERSION; lia).
  reflexivity.
Qed.

Lemma X11_witness :
  0 ≤ 0 ≤ 255
  ∧ encoder.alive2Request 1337 (js "testing")
    = Ok ([120; 5; 57; 77; 0; 0; 6; 0; 5; 0; 7] ++ utf8Bytes (js "testing") ++ [0; 0])
  ∧ test.createPort2Resp 0 (js "testing") 1337 6 5
    = Ok ([119; 0; 5; 57; 77; 0; 0; 6; 0; 5; 0; 7] ++ utf8Bytes (js "testing") ++ [0; 0]).
Proof.
  assert (H1 : 0 ≤ 0 ≤ 255) by lia.
  assert (H2 : encoder.alive2Request 1337 (js "testing")
    = Ok ([120; 5; 57; 77; 0; 0; 6; 0; 5; 0; 7] ++ utf8Bytes (js "testing") ++ [0; 0]))
    by (vm_compute; reflexivity).
  split; [exact H1|]. split; [exact H2|].
  exact (X11_createPort2Resp_echoes_alive2Request 0 1337 (js "testing") _ H1 H2).
Defined.

(** ** [NODE_REGEXP] on its own *)

Section node_regexp.
Import RegExp grammar.

Implicit Types (s t m line : jsstring) (caps : gmap nat jsstring).

Local Infix ">>>" := Seq (at level 60, right associativity).

(** The groups 3 and 4 after a match of the optional fd clause and what
    follows it. *)
Lemma Matches_fd_groups m caps caps' :
  caps !! 3%nat = None → caps !! 4%nat = None →
  Matches (Opt (Group 3 (lit (js ", fd = ") >>> Group 4 (Plus digit))) >>> Star dot)
    m caps caps' →
  caps' !! 1%nat = caps !! 1%nat ∧ caps' !! 2%nat = caps !! 2%nat
  ∧ ((caps' !! 3%nat = None ∧ caps' !! 4%nat = None)
     ∨ ∃ kw fd, caps' !! 3%nat = Some (kw ++ fd) ∧ same_ci (js ", fd = ") kw
         ∧ caps' !! 4%nat = Some fd ∧ fd ≠ [] ∧ Forall (λ c, digit c = true) fd).
Proof.
  intros Hcaps3 Hcaps4 (m1 & m2 & caps1 & -> & Hopt & Hrest)%Matches_Seq_inv.
  apply Matches_Star_inv in Hrest as [_ ->].
  apply Matches_Opt_inv in Hopt as [[-> ->] | Hgroup].
  { split; [done|]. split; [done|]. by left. }
  apply Matches_Group_inv in Hgroup as (caps3 & Hseq & ->).
  apply Matches_Seq_inv in Hseq as (kw & digits & caps2 & -> & Hkw & Hdigits).
  apply Matches_lit_inv in Hkw as [Hkw ->].
  apply Matches_Group_inv in Hdigits as (caps4 & Hdigits & ->).
  apply Matches_Plus_inv in Hdigits as (Hne & Hdigits & ->).
  split; [by simplify_map_eq|]. split; [by simplify_map_eq|].
  right. exists kw, digits. by simplify_map_eq.
Qed.

Lemma tokenChar_dot c : tokenChar c = true → dot c = true.
Proof.
  intros (Hspace & _ & _)%tokenChar_spec. unfold dot.
  apply negb_true_iff, orb_false_iff. split; [apply orb_false_iff; split;
    [apply orb_false_iff; split|]|]; apply Z.eqb_neq; intros ->; by vm_compute in Hspace.
Qed.

End node_regexp.

(** X12: what the groups of a match of [NODE_REGEXP] hold, on any
    input: group 1 is a non-empty piece of the line without [>] and
    without white space, group 2 a non-empty run of decimal digits that
    follows it in the line, and groups 3 and 4 are either both unset or
    hold [, fd = ] (in either case) with its digits and those digits,
    again not empty. *)
Theorem X12_NODE_REGEXP_groups (line : jsstring) (caps : gmap nat jsstring) :
  RegExp.exec constants_regexp.NODE_REGEXP line = Some caps →
  ∃ token digits pre mid post,
    line = pre ++ token ++ mid ++ digits ++ post
    ∧ caps !! 1%nat = Some token
    ∧ token ≠ []
    ∧ Forall (λ c, c ≠ RegExp.chr ">" ∧ RegExp.space c = false) token
    ∧ caps !! 2%nat = Some digits
    ∧ digits ≠ []
    ∧ Forall (λ c, RegExp.digit c = true) digits
    ∧ ((caps !! 3%nat = None ∧ caps !! 4%nat = None)
       ∨ ∃ kw fd, caps !! 3%nat = Some (kw ++ fd)
           ∧ grammar.same_ci (js ", fd = ") kw
           ∧ caps !! 4%nat = Some fd
           ∧ fd ≠ [] ∧ Forall (λ c, RegExp.digit c = true) fd).
Proof.
  intros (pre & m & post & -> & HM)%exec_sound.
  rewrite NODE_REGEXP_parts in HM.
  apply Matches_Seq_inv in HM as (skipped & m0 & caps0 & -> & Hskipped & HM).
  apply Matches_Star_inv in Hskipped as [_ ->].
  apply Matches_Seq_inv in HM as (kw & m1 & caps1 & -> & Hkw & HM).
  apply Matches_lit_inv in Hkw as [Hkw ->].
  apply Matches_Seq_inv in HM as (ws & m2 & caps2 & -> & Hws & HM).
  apply Matches_Star_inv in Hws as [Hws ->].
  apply Matches_Seq_inv in HM as (lt & m3 & caps3 & -> & Hlt & HM).
  apply Matches_Opt_Char_inv in Hlt as [Hlt ->]; [|unfold RegExp.chr; simpl; lia..].
  apply Matches_Seq_inv in HM as (token & m4 & caps4 & -> & Htoken & HM).
  apply Matches_Group_inv in Htoken as (caps4' & Htoken & ->).
  apply Matches_Plus_inv in Htoken as (Hne & Htoken & ->).
  apply Matches_Seq_inv in HM as (gt & m5 & caps5 & -> & Hgt & HM).
  apply Matches_Opt_Char_inv in Hgt as [Hgt ->]; [|unfold RegExp.chr; simpl; lia..].
  apply Matches_Seq_inv in HM as (sp & m6 & caps6 & -> & Hsp & HM).
  apply Matches_Char_inv in Hsp as (c & -> & Hsp & ->).
  apply Matches_Seq_inv in HM as (mid & m7 & caps7 & -> & Hmid & HM).
  apply Matches_Star_inv in Hmid as [Hmid ->].
  apply Matches_Seq_inv in HM as (at_port & m8 & caps8 & -> & Hat & HM).
  apply Matches_lit_inv in Hat as [Hat ->].
  apply Matches_Seq_inv in HM as (digits & m9 & caps9 & -> & Hdigits & HM).
  apply Matches_Group_inv in Hdigits as (caps9' & Hdigits & ->).
  apply Matches_Plus_inv in Hdigits as (Hdne & Hdigits & ->).
  apply Matches_fd_groups in HM as (H1 & H2 & Hfd); [|by simplify_map_eq..].
  rewrite lookup_insert_ne, lookup_insert_eq in H1 by done.
  rewrite lookup_insert_eq in H2.
  exists token, digits, (pre ++ skipped ++ kw ++ ws ++ lt),
    (gt ++ [c] ++ mid ++ at_port), (m9 ++ post).
  split; [by repeat (rewrite <-app_assoc || rewrite <-app_comm_cons)|].
  split; [done|]. split; [done|]. split; [|done].
  eapply Forall_impl; [exact Htoken|]. intros x Hx%negb_true_iff%orb_false_iff.
  destruct Hx as [Hx%Z.eqb_neq ?]. done.
Qed.

Lemma X12_witness :
  ∃ caps,
    RegExp.exec constants_regexp.NODE_REGEXP (js "name test at port 342, fd = 5")
    = Some caps
    ∧ ∃ token digits pre mid post,
        js "name test at port 342, fd = 5" = pre ++ token ++ mid ++ digits ++ post
        ∧ caps !! 1%nat = Some token
        ∧ token ≠ []
        ∧ Forall (λ c, c ≠ RegExp.chr ">" ∧ RegExp.space c = false) token
        ∧ caps !! 2%nat = Some digits
        ∧ digits ≠ []
        ∧ Forall (λ c, RegExp.digit c = true) digits
        ∧ ((caps !! 3%nat = None ∧ caps !! 4%nat = None)
           ∨ ∃ kw fd, caps !! 3%nat = Some (kw ++ fd)
               ∧ grammar.same_ci (js ", fd = ") kw
               ∧ caps !! 4%nat = Some fd
               ∧ fd ≠ [] ∧ Forall (λ c, RegExp.digit c = true) fd).
Proof.
  destruct (RegExp.exec constants_regexp.NODE_REGEXP (js "name test at port 342, fd = 5"))
    as [caps|] eqn:Hexec; [|vm_compute in Hexec; discriminate].
  exists caps. split; [reflexivity|].
  exact (X12_NODE_REGEXP_groups _ caps Hexec).
Defined.

(** X13: a name that contains [name] loses its beginning.  In a line
    [name t1namet2 at port N], where [t1] and [t2] are made of token
    characters, [t2] is not empty and does not itself contain [name],
    the leading [.*] runs up to the last [name], and group 1 is [t2]
    instead of the whole name. *)
Theorem X13_NODE_REGEXP_name_in_name (t1 t2 digits : jsstring) :
  Forall (λ c, grammar.tokenChar c = true) t1 →
  t2 ≠ [] →
  Forall (λ c, grammar.tokenChar c = true) t2 →
  grammar.occurs (js "name") t2 = false →
  digits ≠ [] →
  Forall (λ c, RegExp.digit c = true) digits →
  ∃ caps,
    RegExp.exec constants_regexp.NODE_REGEXP
      (js "name " ++ t1 ++ js "name" ++ t2 ++ js " at port " ++ digits)
    = Some caps
    ∧ caps !! 1%nat = Some t2
    ∧ caps !! 2%nat = Some digits.
Proof.
  intros Ht1 Hne Ht2 Hname Hdne Hdigits.
  destruct (firstly_name [] [] t2 [] digits [] None)
    as (caps & Hfirst & H1 & H2 & _); try done; [by left | by left | constructor|].
  exists caps. split; [|done].
  apply (exec_firstly _ _ []). rewrite NODE_REGEXP_parts.
  replace (js "name " ++ t1 ++ js "name" ++ t2 ++ js " at port " ++ digits)
    with ((js "name " ++ t1) ++ js "name" ++ [] ++ [] ++ t2
          ++ grammar.afterToken [] digits [])
    by (unfold grammar.afterToken; rewrite app_nil_r, <-app_assoc; reflexivity).
  apply firstly_search; [| |done].
  - apply Forall_app. split; [by vm_compute; repeat constructor|].
    eapply Forall_impl; [exact Ht1|]. apply tokenChar_dot.
  - intros t Ht Hneq.
    eapply (later_name_nil [] [] t2 [] digits [] None); try done;
      first [by left | constructor].
Qed.

Lemma X13_witness :
  Forall (λ c, grammar.tokenChar c = true) (js "host")
  ∧ js "1" ≠ []
  ∧ Forall (λ c, grammar.tokenChar c = true) (js "1")
  ∧ grammar.occurs (js "name") (js "1") = false
  ∧ js "4369" ≠ []
  ∧ Forall (λ c, RegExp.digit c = true) (js "4369")
  ∧ ∃ caps,
      RegExp.exec constants_regexp.NODE_REGEXP
        (js "name " ++ js "host" ++ js "name" ++ js "1" ++ js " at port " ++ js "4369")
      = Some caps
      ∧ caps !! 1%nat = Some (js "1")
      ∧ caps !! 2%nat = Some (js "4369").
Proof.
  assert (H1 : Forall (λ c, grammar.tokenChar c = true) (js "host"))
    by (vm_compute; repeat constructor).
  assert (H2 : js "1" ≠ []) by discriminate.
  assert (H3 : Forall (λ c, grammar.tokenChar c = true) (js "1"))
    by (vm_compute; repeat constructor).
  assert (H4 : grammar.occurs (js "name") (js "1") = false) by reflexivity.
  assert (H5 : js "4369" ≠ []) by discriminate.
  assert (H6 : Forall (λ c, RegExp.digit c = true) (js "4369"))
    by (vm_compute; repeat constructor).
  split; [exact H1|]. split; [exact H2|]. split; [exact H3|]. split; [exact H4|].
  split; [exact H5|]. split; [exact H6|].
  exact (X13_NODE_REGEXP_name_in_name (js "host") (js "1") (js "4369")
           H1 H2 H3 H4 H5 H6).
Defined.

(** ** Names and the requests that carry them *)

Section utf8_round_trip.

Implicit Types (s : jsstring) (c d cp : Z) (rest : list Z).

Lemma land_low n a b :
  0 ≤ n → 0 ≤ b < 2 ^ n → Z.land (a * 2 ^ n + b) (Z.ones n) = b.
Proof.
  intros Hn Hb. rewrite Z.land_ones by done.
  rewrite Z.add_comm, Z.mod_add by lia. apply Z.mod_small. lia.
Qed.

Lemma decodeFrom_cons st b rest :
  utf8.decodeFrom st (b :: rest)
  = (utf8.step st b).2 ++ utf8.decodeFrom (utf8.step st b).1 rest.
Proof. cbn [utf8.decodeFrom]. by destruct (utf8.step st b). Qed.

Lemma land_lead2 a : 0 ≤ a < 32 → Z.land (0xC0 + a) 0x1F = a.
Proof.
  intros. change 0x1F with (Z.ones 5).
  replace (0xC0 + a) with (6 * 2 ^ 5 + a) by lia. apply land_low; lia.
Qed.

Lemma land_lead3 a : 0 ≤ a < 16 → Z.land (0xE0 + a) 0xF = a.
Proof.
  intros. change 0xF with (Z.ones 4).
  replace (0xE0 + a) with (14 * 2 ^ 4 + a) by lia. apply land_low; lia.
Qed.

Lemma land_lead4 a : 0 ≤ a < 8 → Z.land (0xF0 + a) 0x7 = a.
Proof.
  intros. change 0x7 with (Z.ones 3).
  replace (0xF0 + a) with (30 * 2 ^ 3 + a) by lia. apply land_low; lia.
Qed.

Lemma land_trail a : 0 ≤ a < 64 → Z.land (0x80 + a) 0x3F = a.
Proof.
  intros. change 0x3F with (Z.ones 6).
  replace (0x80 + a) with (2 * 2 ^ 6 + a) by lia. apply land_low; lia.
Qed.

Lemma step_start b : utf8.step utf8.init b = utf8.start b.
Proof. reflexivity. Qed.

(** A byte in the range the state expects carries six more bits. *)
Lemma step_trail cp0 n lo hi a :
  0 < n → lo ≤ 0x80 + a ≤ hi → 0 ≤ a < 64 →
  utf8.step (utf8.State cp0 n lo hi) (0x80 + a)
  = if n =? 1 then (utf8.init, utf8.emit (cp0 * 64 + a))
    else (utf8.State (cp0 * 64 + a) (n - 1) 0x80 0xBF, []).
Proof.
  intros Hn Hb Ha. unfold utf8.step. cbn [utf8.needed utf8.lower utf8.upper utf8.codePoint].
  destruct (Z.eqb_spec n 0); [lia|].
  destruct (Z.leb_spec lo (0x80 + a)); [|lia].
  destruct (Z.leb_spec (0x80 + a) hi); [|lia].
  cbn [andb]. by rewrite land_trail.
Qed.

(** The bytes of a code point decode to it, whatever follows. *)
Lemma decodeFrom_utf8CodePoint cp rest :
  0 ≤ cp < 0x110000 → ¬ (0xD800 ≤ cp ≤ 0xDFFF) →
  utf8.decodeFrom utf8.init (utf8CodePoint cp ++ rest)
  = utf8.emit cp ++ utf8.decodeFrom utf8.init rest.
Proof.
  intros Hcp Hsur. unfold utf8CodePoint.
  pose proof (Z.div_mod cp 64 ltac:(lia)) as H64.
  pose proof (Z.mod_pos_bound cp 64 ltac:(lia)) as Hr0.
  destruct (Z.ltb_spec cp 0x80).
  { cbn [app]. rewrite decodeFrom_cons, step_start. unfold utf8.start.
    destruct (Z.leb_spec cp 0x7F); [|lia]. cbn [fst snd].
    unfold utf8.emit. destruct (Z.ltb_spec cp 0x10000); [done | lia]. }
  destruct (Z.ltb_spec cp 0x800).
  { assert (2 ≤ cp / 64 < 32) as Ha by lia.
    cbn [app]. rewrite decodeFrom_cons, step_start. unfold utf8.start.
    destruct (Z.leb_spec (0xC0 + cp / 64) 0x7F); [lia|].
    destruct (Z.leb_spec 0xC2 (0xC0 + cp / 64)); [|lia].
    destruct (Z.leb_spec (0xC0 + cp / 64) 0xDF); [|lia].
    cbn [andb fst snd app]. rewrite land_lead2 by lia.
    rewrite decodeFrom_cons, step_trail by lia. cbn [Z.eqb Pos.eqb fst snd].
    by replace (cp / 64 * 64 + cp mod 64) with cp by lia. }
  pose proof (Z.div_mod (cp / 64) 64 ltac:(lia)) as H4096.
  pose proof (Z.mod_pos_bound (cp / 64) 64 ltac:(lia)) as Hr1.
  assert (cp / 4096 = cp / 64 / 64) as Hdiv by (rewrite Z.div_div by lia; reflexivity).
  destruct (Z.ltb_spec cp 0x10000).
  { assert (0 ≤ cp / 4096 < 16) as Ha by lia.
    cbn [app]. rewrite decodeFrom_cons, step_start. unfold utf8.start.
    destruct (Z.leb_spec (0xE0 + cp / 4096) 0x7F); [lia|].
    destruct (Z.leb_spec 0xC2 (0xE0 + cp / 4096)); [|lia].
    destruct (Z.leb_spec (0xE0 + cp / 4096) 0xDF); [lia|].
    destruct (Z.leb_spec 0xE0 (0xE0 + cp / 4096)); [|lia].
    destruct (Z.leb_spec (0xE0 + cp / 4096) 0xEF); [|lia].
    cbn [andb fst snd app]. rewrite land_lead3 by lia.
    rewrite decodeFrom_cons, step_trail;
      [|lia| |lia].
    2:{ destruct (Z.eqb_spec (0xE0 + cp / 4096) 0xE0),
                 (Z.eqb_spec (0xE0 + cp / 4096) 0xED); lia. }
    cbn [Z.eqb Pos.eqb fst snd app].
    rewrite decodeFrom_cons, step_trail by lia. cbn [Z.sub Z.eqb Pos.eqb fst snd].
    change (2 - 1 =? 1) with true. cbn iota.
    by replace ((cp / 4096 * 64 + cp / 64 mod 64) * 64 + cp mod 64) with cp by lia. }
  pose proof (Z.div_mod (cp / 4096) 64 ltac:(lia)) as H262144.
  pose proof (Z.mod_pos_bound (cp / 4096) 64 ltac:(lia)) as Hr2.
  assert (cp / 262144 = cp / 4096 / 64) as Hdiv' by (rewrite Z.div_div by lia; reflexivity).
  assert (0 ≤ cp / 262144 ≤ 4) as Ha by lia.
  cbn [app]. rewrite decodeFrom_cons, step_start. unfold utf8.start.
  destruct (Z.leb_spec (0xF0 + cp / 262144) 0x7F); [lia|].
  destruct (Z.leb_spec 0xC2 (0xF0 + cp / 262144)); [|lia].
  destruct (Z.leb_spec (0xF0 + cp / 262144) 0xDF); [lia|].
  destruct (Z.leb_spec 0xE0 (0xF0 + cp / 262144)); [|lia].
  destruct (Z.leb_spec (0xF0 + cp / 262144) 0xEF); [lia|].
  destruct (Z.leb_spec 0xF0 (0xF0 + cp / 262144)); [|lia].
  destruct (Z.leb_spec (0xF0 + cp / 262144) 0xF4); [|lia].
  cbn [andb fst snd app]. rewrite land_lead4 by lia.
  rewrite decodeFrom_cons, step_trail; [|lia| |lia].
  2:{ destruct (Z.eqb_spec (0xF0 + cp / 262144) 0xF0),
               (Z.eqb_spec (0xF0 + cp / 262144) 0xF4); lia. }
  change (3 =? 1) with false. cbn iota. cbn [fst snd app].
  rewrite decodeFrom_cons, step_trail by lia.
  change (3 - 1 =? 1) with false. cbn iota. cbn [fst snd app].
  rewrite decodeFrom_cons, step_trail by lia.
  change (3 - 1 - 1 =? 1) with true. cbn iota. cbn [fst snd].
  by replace (((cp / 262144 * 64 + cp / 4096 mod 64) * 64 + cp / 64 mod 64) * 64
              + cp mod 64) with cp by lia.
Qed.

Lemma emit_pair c d :
  isLeadSurrogate c = true → isTrailSurrogate d = true →
  utf8.emit (0x10000 + (c - 0xD800) * 1024 + (d - 0xDC00)) = [c; d].
Proof.
  intros [?%Z.leb_le ?%Z.leb_le]%andb_true_iff [?%Z.leb_le ?%Z.leb_le]%andb_true_iff.
  unfold utf8.emit.
  destruct (Z.ltb_spec (0x10000 + (c - 0xD800) * 1024 + (d - 0xDC00)) 0x10000); [lia|].
  replace (0x10000 + (c - 0xD800) * 1024 + (d - 0xDC00) - 0x10000)
    with ((c - 0xD800) * 1024 + (d - 0xDC00)) by lia.
  assert (((c - 0xD800) * 1024 + (d - 0xDC00)) / 1024 = c - 0xD800) as ->
    by (symmetry; apply (Z.div_unique _ _ _ (d - 0xDC00)); lia).
  assert (((c - 0xD800) * 1024 + (d - 0xDC00)) mod 1024 = d - 0xDC00) as ->
    by (symmetry; apply (Z.mod_unique _ _ (c - 0xD800)); lia).
  f_equal; [lia | f_equal; lia].
Qed.

Lemma emit_unit c : c < 0x10000 → utf8.emit c = [c].
Proof. intros Hc. unfold utf8.emit. by destruct (Z.ltb_spec c 0x10000); [|lia]. Qed.

Lemma utf8Bytes_chars char s' s :
  utf8Chars s = char :: utf8Chars s' → utf8Bytes s = char ++ utf8Bytes s'.
Proof. intros Hs. unfold utf8Bytes. by rewrite Hs. Qed.

(** Encoding a well-formed string and decoding the bytes gives the
    string back. *)
Lemma toString_utf8Bytes s : wellFormed s = true → utf8.toString (utf8Bytes s) = s.
Proof.
  unfold utf8.toString.
  induction s as [| c | c d s IH1 IH2] using jsstring_pair_ind; intros Hs.
  - reflexivity.
  - cbn [wellFormed] in Hs. destruct (isLeadSurrogate c) eqn:Hlead; [done|].
    apply andb_true_iff in Hs as [Hs _]. apply andb_true_iff in Hs as [Hs ?%Z.ltb_lt].
    apply andb_true_iff in Hs as [Htrail%negb_true_iff ?%Z.leb_le].
    unfold utf8Bytes. cbn [utf8Chars]. rewrite Hlead, Htrail. cbn [concat].
    rewrite decodeFrom_utf8CodePoint, emit_unit by
      (first [lia | apply andb_false_iff in Hlead, Htrail; lia]).
    reflexivity.
  - pose proof (utf8Chars_pair c d s) as Hchars.
    change (wellFormed (c :: d :: s))
      with (if isLeadSurrogate c then isTrailSurrogate d && wellFormed s
            else negb (isTrailSurrogate c) && (0 <=? c) && (c <? 0x10000)
                 && wellFormed (d :: s)) in Hs.
    destruct (isLeadSurrogate c) eqn:Hlead.
    + apply andb_true_iff in Hs as [Htrail Hs]. rewrite Htrail in Hchars.
      rewrite (utf8Bytes_chars _ _ _ Hchars).
      pose proof Hlead as Hlead'. pose proof Htrail as Htrail'.
      apply andb_true_iff in Hlead' as [?%Z.leb_le ?%Z.leb_le].
      apply andb_true_iff in Htrail' as [?%Z.leb_le ?%Z.leb_le].
      rewrite decodeFrom_utf8CodePoint, emit_pair, IH1 by (done || lia).
      reflexivity.
    + apply andb_true_iff in Hs as [Hc Hs]. apply andb_true_iff in Hc as [Hc ?%Z.ltb_lt].
      apply andb_true_iff in Hc as [Htrail%negb_true_iff ?%Z.leb_le].
      rewrite Htrail in Hchars. rewrite (utf8Bytes_chars _ _ _ Hchars).
      rewrite decodeFrom_utf8CodePoint, emit_unit, IH2 by
        (first [done | lia | apply andb_false_iff in Hlead, Htrail; lia]).
      reflexivity.
Qed.

Lemma utf8Bytes_inj s t :
  wellFormed s = true → wellFormed t = true → utf8Bytes s = utf8Bytes t → s = t.
Proof.
  intros Hs Ht Heq. rewrite <-(toString_utf8Bytes s), <-(toString_utf8Bytes t) by done.
  by rewrite Heq.
Qed.

(** An unpaired trail surrogate is encoded as U+FFFD is. *)
Lemma utf8Bytes_trail c s :
  isTrailSurrogate c = true → utf8Bytes (c :: s) = utf8Bytes (0xFFFD :: s).
Proof.
  intros Htrail. unfold utf8Bytes. cbn [utf8Chars]. rewrite Htrail.
  assert (isLeadSurrogate c = false) as ->.
  { apply andb_true_iff in Htrail as [?%Z.leb_le ?%Z.leb_le].
    apply andb_false_iff. right. apply Z.leb_gt. lia. }
  reflexivity.
Qed.

End utf8_round_trip.

(** X14: requests tell well-formed names apart.  Two registrations
    that give the same buffer have the same port and, when both names
    are well-formed strings, the same name; likewise for two queries.
    Well-formedness is needed: a name that starts with an unpaired
    trail surrogate is sent exactly as the name with U+FFFD in its
    place. *)
Theorem X14_requests_tell_names_apart (port port' : Z) (name name' : jsstring) :
  wellFormed name = true → wellFormed name' = true →
  (∀ req, encoder.alive2Request port name = Ok req →
     encoder.alive2Request port' name' = Ok req → port = port' ∧ name = name')
  ∧ (encoder.portPleaseRequest name = encoder.portPleaseRequest name' → name = name')
  ∧ (∀ c s, isTrailSurrogate c = true →
       encoder.portPleaseRequest (c :: s) = encoder.portPleaseRequest (0xFFFD :: s)).
Proof.
  intros Hname Hname'. split; [|split].
  - intros req (Hport & Hlen & ->)%alive2Request_Ok_inv
      (Hport' & Hlen' & Heq)%alive2Request_Ok_inv.
    injection Heq as Hp0 Hp1 _ _ Hrest.
    split.
    + rewrite (Z.div_mod port 256), (Z.div_mod port' 256) by lia. congruence.
    + apply app_inv_tail in Hrest. by apply utf8Bytes_inj.
  - rewrite !portPleaseRequest_ok. intros [= Heq]. by apply utf8Bytes_inj.
  - intros c s Htrail. by rewrite !portPleaseRequest_ok, utf8Bytes_trail.
Qed.

Lemma X14_witness :
  wellFormed (js "testing") = true
  ∧ wellFormed (js "testing") = true
  ∧ encoder.alive2Request 1337 (js "testing")
    = Ok ([120; 5; 57; 77; 0; 0; 6; 0; 5; 0; 7] ++ utf8Bytes (js "testing") ++ [0; 0])
  ∧ (1337 = 1337 ∧ js "testing" = js "testing").
Proof.
  assert (H : wellFormed (js "testing") = true) by reflexivity.
  assert (Hreq : encoder.alive2Request 1337 (js "testing")
    = Ok ([120; 5; 57; 77; 0; 0; 6; 0; 5; 0; 7] ++ utf8Bytes (js "testing") ++ [0; 0]))
    by (vm_compute; reflexivity).
  split; [exact H|]. split; [exact H|]. split; [exact Hreq|].
  exact (proj1 (X14_requests_tell_names_apart 1337 1337 (js "testing") (js "testing") H H)
           _ Hreq Hreq).
Defined.

(** ** Connections and the module-level requests *)

Section index_facts.
Import index.
Context {E : Type} (thrown : RuntimeError → E) (decode : Buffer.t → result E Decoded).

Implicit Types (w : World (E:=E)) (on : Listeners (E:=E)) (arg : option (Client.Payload E))
  (event : option string) (sock : Client.Socket).

Lemma emit_listeners on event arg w f fs :
  on event = f :: fs →
  emit thrown on event arg w = callAll (f :: fs) arg (record event arg w).
Proof. intros Hon. unfold emit, seq. by rewrite Hon. Qed.

Lemma emit_no_listener on event arg w :
  on event = [] → event ≠ Some "error"%string →
  emit thrown on event arg w = (record event arg w, None).
Proof.
  intros Hon Hevent. unfold emit, seq. rewrite Hon.
  by destruct (decide (event = Some "error"%string)).
Qed.

(** The listener of the answer and of ['error'], on a client that has
    a socket. *)
Lemma end_then_settle (p : Promise (E:=E)) w sock :
  Client.client (c w) = Some sock →
  seq (seq (end_ thrown) (λ w, (settle p w, None))) skip w
  = (settle p (mkWorld (c w) true (signals w) (promise w)), None).
Proof. intros Hsock. unfold seq, end_, skip. by rewrite Hsock. Qed.

(** The client after a chunk of data: the event that [_onData] emits
    first is added to its events. *)
Local Abbreviation logged data this :=
  (Client.mkClient (Client.host this) (Client.port this) (Client.client this)
     (Client.emitted this
      ++ match decode data with
         | Throw e => [(Some "error"%string, Client.Error e)]
         | Ok DFalse => []
         | Ok (DNodeList entries) =>
           [(Some "nodeinfo"%string, Client.Value (DNodeList entries))]
         | Ok (DResponse resp) =>
           [(if code resp =? 0 then Some "nodeinfo"%string
             else if code resp =? 119 then Some "node"%string
             else if (code resp =? 118) || (code resp =? 121) then Some "alive"%string
             else None,
             Client.Value (DResponse resp))]
         end)).

(** One chunk of data for a request that is answered by ['node']. *)
Lemma _onData_node on data w sock :
  on (Some "node"%string) = [λ node, seq (end_ thrown) (resolve node)] →
  on (Some "error"%string) = [λ err, seq (end_ thrown) (reject err)] →
  on (Some "nodeinfo"%string) = [] → on (Some "alive"%string) = [] → on None = [] →
  Client.client (c w) = Some sock →
  _onData thrown decode on data w
  = let verdict :=
      match decode data with
      | Throw e => Some (Rejected (Some (Client.Error e)))
      | Ok (DResponse resp) =>
        if code resp =? constants.PORT2_RESP
        then Some (Fulfilled (Some (Client.Value (DResponse resp))))
        else None
      | Ok _ => None
      end in
    (mkWorld (logged data (c w))
       (match verdict with Some _ => true | None => destroyed w end)
       (signals w)
       (match promise w, verdict with
        | Pending, Some p => p
        | p, _ => p
        end), None).
Proof.
  intros Hnode Herror Hinfo Halive Hnone Hsock. unfold _onData.
  destruct (decode data) as [[|resp|entries]|e]; cbv zeta.
  - rewrite app_nil_r. by destruct w as [[] ? ? []].
  - cbn [Client.codeOf Client.truthy mbind option_bind].
    rewrite TYPE_EVENT_MAP_lookup.
    unfold constants.PORT2_RESP, constants.ALIVE2_X_RESP, constants.ALIVE_RESP.
    destruct (Z.eqb_spec (code resp) 0) as [H0|H0]; cbn [negb].
    + unfold try. rewrite emit_no_listener by done.
      destruct (Z.eqb_spec (code resp) 119) as [H119|_];
        [rewrite H0 in H119; discriminate|].
      by destruct w as [? ? ? []].
    + destruct (Z.eqb_spec (code resp) 119) as [H119|H119].
      * unfold try. rewrite (emit_listeners _ _ _ _ _ [] Hnode).
        cbn [callAll]. unfold resolve.
        rewrite (end_then_settle _ _ sock) by done.
        by destruct w as [? ? ? []].
      * unfold try. destruct (_ || _); rewrite emit_no_listener by done;
          by destruct w as [? ? ? []].
  - cbn [Client.codeOf Client.truthy]. unfold try.
    rewrite emit_no_listener by done. by destruct w as [? ? ? []].
  - rewrite (emit_listeners _ _ _ _ _ [] Herror). cbn [callAll]. unfold reject.
    rewrite (end_then_settle _ _ sock) by done.
    by destruct w as [? ? ? []].
Qed.

(** One chunk of data for a request that is answered by ['nodeinfo']. *)
Lemma _onData_nodeinfo on data w sock :
  on (Some "nodeinfo"%string) = [λ nodes, seq (end_ thrown) (resolve nodes)] →
  on (Some "error"%string) = [λ err, seq (end_ thrown) (reject err)] →
  on (Some "node"%string) = [] → on (Some "alive"%string) = [] → on None = [] →
  Client.client (c w) = Some sock →
  _onData thrown decode on data w
  = let verdict :=
      match decode data with
      | Throw e => Some (Rejected (Some (Client.Error e)))
      | Ok (DResponse resp) =>
        if code resp =? 0
        then Some (Fulfilled (Some (Client.Value (DResponse resp))))
        else None
      | Ok (DNodeList entries) =>
        Some (Fulfilled (Some (Client.Value (DNodeList entries))))
      | Ok DFalse => None
      end in
    (mkWorld (logged data (c w))
       (match verdict with Some _ => true | None => destroyed w end)
       (signals w)
       (match promise w, verdict with
        | Pending, Some p => p
        | p, _ => p
        end), None).
Proof.
  intros Hinfo Herror Hnode Halive Hnone Hsock. unfold _onData.
  destruct (decode data) as [[|resp|entries]|e]; cbv zeta.
  - rewrite app_nil_r. by destruct w as [[] ? ? []].
  - cbn [Client.codeOf Client.truthy mbind option_bind].
    rewrite TYPE_EVENT_MAP_lookup.
    unfold constants.PORT2_RESP, constants.ALIVE2_X_RESP, constants.ALIVE_RESP.
    destruct (Z.eqb_spec (code resp) 0) as [H0|H0]; cbn [negb].
    + unfold try. rewrite (emit_listeners _ _ _ _ _ [] Hinfo).
      cbn [callAll]. unfold resolve. rewrite (end_then_settle _ _ sock) by done.
      by destruct w as [? ? ? []].
    + unfold try.
      destruct (Z.eqb_spec (code resp) 119);
        [|destruct (_ || _)]; rewrite emit_no_listener by done;
        by destruct w as [? ? ? []].
  - cbn [Client.codeOf Client.truthy]. unfold try.
    rewrite (emit_listeners _ _ _ _ _ [] Hinfo).
    cbn [callAll]. unfold resolve. rewrite (end_then_settle _ _ sock) by done.
    by destruct w as [? ? ? []].
  - rewrite (emit_listeners _ _ _ _ _ [] Herror). cbn [callAll]. unfold reject.
    rewrite (end_then_settle _ _ sock) by done.
    by destruct w as [? ? ? []].
Qed.

(** The callback of the connection runs the request. *)
Lemma _onConnect_request on request w :
  on (Some "connect"%string) = [λ _, method thrown request] →
  _onConnect thrown on w
  = match request (c w) with
    | Ok this =>
      (mkWorld this (destroyed w) (signals w ++ [Some "connect"%string]) (promise w), None)
    | Throw e =>
      (mkWorld (c w) (destroyed w) (signals w ++ [Some "connect"%string]) (promise w),
       Some (thrown (Js e)))
    end.
Proof.
  intros Hon. unfold _onConnect. rewrite (emit_listeners _ _ _ _ _ [] Hon).
  cbn [callAll record]. unfold seq, method, skip. cbn [c destroyed signals promise].
  by destruct (request (c w)).
Qed.

Lemma _onEnd_no_listener on w :
  on (Some "end"%string) = [] →
  _onEnd thrown on w
  = (mkWorld (c w) (destroyed w) (signals w ++ [Some "end"%string]) (promise w), None).
Proof. intros Hon. unfold _onEnd. by rewrite emit_no_listener. Qed.

(** The state in which each module-level request returns. *)
Lemma newPromise_connect host epmdPort :
  newPromise host epmdPort (connect thrown)
  = if (0 <=? epmdPort) && (epmdPort <? 65536)
    then mkWorld (Client.mkClient host epmdPort (Some (Client.mkSocket [])) [])
           false [] Pending
    else mkWorld (Client.mkClient host epmdPort None []) false []
           (Rejected (Some (Client.Error (thrown ERR_SOCKET_BAD_PORT)))).
Proof.
  unfold newPromise, try, connect. cbn [c Client.port].
  by destruct ((0 <=? epmdPort) && (epmdPort <? 65536)).
Qed.

(** A request of the client keeps the socket. *)
Lemma _send_keeps_socket req (this this' : Client.t E) sock :
  Client.client this = Some sock → Client._send req this = Ok this' →
  ∃ sock', Client.client this' = Some sock'.
Proof.
  intros Hsock. rewrite (_send_connected req sock) by done.
  destruct (encoder.requestWrapper req); [|done]. intros [= <-]. by eexists.
Qed.

Section wrapper.
Context (on : Listeners (E:=E)) (request : Client.t E → result JsError (Client.t E)).
Context (answer : string).
Hypothesis Hanswer : answer = "node"%string ∨ answer = "nodeinfo"%string.
Hypothesis Hon : ∀ event,
  on event
  = if decide (event = Some "connect"%string) then [λ _, method thrown request]
    else if decide (event = Some answer) then [λ value, seq (end_ thrown) (resolve value)]
    else if decide (event = Some "error"%string)
    then [λ err, seq (end_ thrown) (reject err)]
    else [].
Hypothesis Hrequest : ∀ this this' sock,
  Client.client this = Some sock → request this = Ok this' →
  ∃ sock', Client.client this' = Some sock'.

(** What one callback can do to the promise and to the socket. *)
Lemma callback_step ev w sock :
  Client.client (c w) = Some sock →
  (∃ sock', Client.client (c (callback thrown decode on ev w).1) = Some sock')
  ∧ (promise w ≠ Pending → promise (callback thrown decode on ev w).1 = promise w)
  ∧ ((∀ data, ev ≠ Data data) → promise (callback thrown decode on ev w).1 = promise w)
  ∧ (promise (callback thrown decode on ev w).1 = promise w
     ∨ destroyed (callback thrown decode on ev w).1 = true)
  ∧ (destroyed w = true → destroyed (callback thrown decode on ev w).1 = true).
Proof.
  intros Hsock. destruct ev as [|data|]; cbn [callback].
  - rewrite (_onConnect_request _ request) by (by rewrite Hon).
    destruct (request (c w)) as [this|e] eqn:Hreq; cbn [fst c promise destroyed].
    + split; [by eapply Hrequest|]. by repeat split; [..|left|].
    + split; [by eexists|]. by repeat split; [..|left|].
  - assert (∃ w', _onData thrown decode on data w = (w', None)
                ∧ Client.client (c w') = Some sock
                ∧ (promise w ≠ Pending → promise w' = promise w)
                ∧ (promise w' = promise w ∨ destroyed w' = true)
                ∧ (destroyed w = true → destroyed w' = true))
      as (w' & -> & ? & ? & ? & ?).
    { destruct Hanswer as [-> | ->].
      - rewrite (_onData_node _ _ _ sock) by (done || by rewrite Hon).
        eexists. split; [reflexivity|]. cbn [c promise destroyed].
        split; [done|].
        match goal with
        | |- context [match ?v with Some _ => true | None => _ end] => generalize v
        end.
        intros verdict.
        destruct (promise w), verdict; repeat split; intros;
          first [done | by left | by right].
      - rewrite (_onData_nodeinfo _ _ _ sock) by (done || by rewrite Hon).
        eexists. split; [reflexivity|]. cbn [c promise destroyed].
        split; [done|].
        match goal with
        | |- context [match ?v with Some _ => true | None => _ end] => generalize v
        end.
        intros verdict.
        destruct (promise w), verdict; repeat split; intros;
          first [done | by left | by right]. }
    cbn [fst]. split; [by eexists|]. split; [done|]. split; [|done].
    intros Hev. by destruct (Hev data).
  - rewrite _onEnd_no_listener by (rewrite Hon; by destruct Hanswer as [-> | ->]).
    cbn [fst c promise destroyed]. split; [by eexists|]. by repeat split; [..|left|].
Qed.

(** Over any run of callbacks: a settled promise stays as it is, only
    data settles a promise, and a promise is settled only with the
    socket destroyed. *)
Lemma run_promise evs w sock :
  Client.client (c w) = Some sock →
  (promise w ≠ Pending → promise (run thrown decode on evs w).1 = promise w)
  ∧ (Forall (λ ev, ∀ data, ev ≠ Data data) evs →
     promise (run thrown decode on evs w).1 = promise w)
  ∧ (promise (run thrown decode on evs w).1 = promise w
     ∨ destroyed (run thrown decode on evs w).1 = true)
  ∧ (destroyed w = true → destroyed (run thrown decode on evs w).1 = true).
Proof.
  revert w sock. induction evs as [|ev evs IH]; intros w sock Hsock.
  { cbn [run]. unfold skip. cbn [fst]. by repeat split; [..|left|]. }
  destruct (callback_step ev w sock Hsock) as ((sock' & Hsock') & Hkeep & Hdata & Hdone & Hdes).
  cbn [run]. unfold seq.
  destruct (callback thrown decode on ev w) as [w' [e|]]; cbn [fst] in *.
  { split; [done|]. split; [|done]. intros [Hev _]%Forall_cons. by apply Hdata. }
  destruct (IH w' sock' Hsock') as (IHkeep & IHdata & IHdone & IHdes).
  split; [|split; [|split]].
  - intros Hsettled. rewrite IHkeep; [by apply Hkeep|]. by rewrite Hkeep.
  - intros [Hev Hevs]%Forall_cons. rewrite IHdata by done. by apply Hdata.
  - destruct IHdone as [->|]; [|by right]. destruct Hdone as [->|Hd]; [by left|].
    right. by apply IHdes.
  - intros Hd. by apply IHdes, Hdes.
Qed.

End wrapper.

End index_facts.

(** X15: each module-level request sends its request once the socket
    reports the connection, and nothing before.  With a port that
    [net.connect] accepts, the call returns with a socket, a pending
    promise and nothing written; on connect [getNode] writes the frame
    of its query when the name has at most 65534 UTF-8 bytes, and
    otherwise ERR_OUT_OF_RANGE leaves the callback with the promise
    still pending; [getAllNodes] and [dumpEpmd] write the three bytes
    of their request.  With any other port the promise is rejected with
    ERR_SOCKET_BAD_PORT before the call returns and there is no
    socket. *)
Theorem X15_request_on_connect {E : Type} (thrown : index.RuntimeError → E)
    (decode : Buffer.t → result E Decoded) (host : jsstring) (epmdPort : Z)
    (name : jsstring) :
  (0 ≤ epmdPort < 65536 →
   index.run thrown decode (index.getNode_on thrown name) [index.Connected]
     (index.getNode thrown host epmdPort name)
   = (if Buffer.byteLength name <=? 65534
      then (index.mkWorld
              (Client.mkClient host epmdPort
                 (Some (Client.mkSocket
                    [[(1 + Buffer.byteLength name) / 256;
                      (1 + Buffer.byteLength name) mod 256; 122] ++ utf8Bytes name])) [])
              false [Some "connect"%string] index.Pending, None)
      else (index.mkWorld
              (Client.mkClient host epmdPort (Some (Client.mkSocket [])) [])
              false [Some "connect"%string] index.Pending,
            Some (thrown (index.Js ERR_OUT_OF_RANGE))))
   ∧ index.run thrown decode (index.getAllNodes_on thrown) [index.Connected]
       (index.getAllNodes thrown host epmdPort)
     = (index.mkWorld
          (Client.mkClient host epmdPort
             (Some (Client.mkSocket [[0; 1; constants.NAMES_REQ]])) [])
          false [Some "connect"%string] index.Pending, None)
   ∧ index.run thrown decode (index.dumpEpmd_on thrown) [index.Connected]
       (index.dumpEpmd thrown host epmdPort)
     = (index.mkWorld
          (Client.mkClient host epmdPort
             (Some (Client.mkSocket [[0; 1; constants.DUMP_REQ]])) [])
          false [Some "connect"%string] index.Pending, None))
  ∧ (¬ (0 ≤ epmdPort < 65536) →
     index.getNode thrown host epmdPort name
     = index.mkWorld (Client.mkClient host epmdPort None []) false []
         (index.Rejected (Some (Client.Error (thrown index.ERR_SOCKET_BAD_PORT))))
     ∧ index.getAllNodes thrown host epmdPort
       = index.mkWorld (Client.mkClient host epmdPort None []) false []
           (index.Rejected (Some (Client.Error (thrown index.ERR_SOCKET_BAD_PORT))))
     ∧ index.dumpEpmd thrown host epmdPort
       = index.mkWorld (Client.mkClient host epmdPort None []) false []
           (index.Rejected (Some (Client.Error (thrown index.ERR_SOCKET_BAD_PORT))))).
Proof.
  unfold index.getNode, index.getAllNodes, index.dumpEpmd.
  rewrite newPromise_connect. split.
  - intros Hport.
    destruct (Z.leb_spec 0 epmdPort), (Z.ltb_spec epmdPort 65536); try lia.
    cbn [andb index.run index.callback]. unfold index.seq, index.skip.
    rewrite (_onConnect_request thrown (index.getNode_on thrown name)
               (Client.getNode name) _ eq_refl).
    rewrite (_onConnect_request thrown (index.getAllNodes_on thrown)
               Client.getAllNodes _ eq_refl).
    rewrite (_onConnect_request thrown (index.dumpEpmd_on thrown)
               Client.dumpEpmd _ eq_refl).
    cbn [index.c index.destroyed index.signals index.promise app].
    set (this := Client.mkClient host epmdPort (Some (Client.mkSocket [])) []).
    assert (Hsock : Client.client this = Some (Client.mkSocket [])) by reflexivity.
    split; [|split].
    + destruct (Z.leb_spec (Buffer.byteLength name) 65534).
      * by rewrite (getNode_accepts _ _ this Hsock).
      * by rewrite (getNode_rejects _ _ this Hsock).
    + unfold Client.getAllNodes.
      change encoder.namesRequest with (Ok (E:=JsError) [constants.NAMES_REQ]).
      cbn [mbind result_bind]. by rewrite (_send_result _ _ this Hsock).
    + unfold Client.dumpEpmd.
      change encoder.dumpRequest with (Ok (E:=JsError) [constants.DUMP_REQ]).
      cbn [mbind result_bind]. by rewrite (_send_result _ _ this Hsock).
  - intros Hport.
    by destruct (Z.leb_spec 0 epmdPort), (Z.ltb_spec epmdPort 65536); try lia.
Qed.

Lemma X15_witness :
  0 ≤ 4369 < 65536
  ∧ index.run (λ e, e) (λ _, Ok DFalse) (index.getNode_on (λ e, e) (js "testing"))
      [index.Connected] (index.getNode (λ e, e) (js "localhost") 4369 (js "testing"))
    = (index.mkWorld
         (Client.mkClient (js "localhost") 4369
            (Some (Client.mkSocket [[0; 8; 122] ++ utf8Bytes (js "testing")])) [])
         false [Some "connect"%string] index.Pending, None)
  ∧ ¬ (0 ≤ 65536 < 65536)
  ∧ index.getNode (λ e, e) (js "localhost") 65536 (js "testing")
    = index.mkWorld (Client.mkClient (js "localhost") 65536 None []) false []
        (index.Rejected (Some (Client.Error index.ERR_SOCKET_BAD_PORT))).
Proof.
  assert (H1 : 0 ≤ 4369 < 65536) by lia.
  assert (H2 : ¬ (0 ≤ 65536 < 65536)) by lia.
  split; [exact H1|]. split; [|split; [exact H2|]].
  - exact (proj1 (proj1 (X15_request_on_connect (λ e, e) (λ _, Ok DFalse)
                           (js "localhost") 4369 (js "testing")) H1)).
  - exact (proj1 (proj2 (X15_request_on_connect (λ e, e) (λ _, Ok DFalse)
                           (js "localhost") 65536 (js "testing")) H2)).
Defined.

(** X16: one chunk of data for [getNode], on a client that has a
    socket.  No exception leaves [_onData], and the event it emits
    is added to the events of the client: "error" with the error, or
    the name that goes with the code, with the decoded value; [false]
    adds none.  When the decoder throws, the socket is
    destroyed and the promise, if pending, is rejected with the error;
    when the chunk decodes to a response with code 119, the socket is
    destroyed and the promise, if pending, is resolved with the
    response; any other chunk leaves socket and promise as they
    are. *)
Theorem X16_getNode_answer {E : Type} (thrown : index.RuntimeError → E)
    (decode : Buffer.t → result E Decoded) (name : jsstring) (data : Buffer.t)
    (w : index.World) (sock : Client.Socket) :
  Client.client (index.c w) = Some sock →
  index._onData thrown decode (index.getNode_on thrown name) data w
  = let verdict :=
      match decode data with
      | Throw e => Some (index.Rejected (Some (Client.Error e)))
      | Ok (DResponse resp) =>
        if code resp =? constants.PORT2_RESP
        then Some (index.Fulfilled (Some (Client.Value (DResponse resp))))
        else None
      | Ok _ => None
      end in
    (index.mkWorld
       (Client.mkClient (Client.host (index.c w)) (Client.port (index.c w))
          (Client.client (index.c w))
          (Client.emitted (index.c w)
           ++ match decode data with
              | Throw e => [(Some "error"%string, Client.Error e)]
              | Ok DFalse => []
              | Ok (DNodeList entries) =>
                [(Some "nodeinfo"%string, Client.Value (DNodeList entries))]
              | Ok (DResponse resp) =>
                [(if code resp =? 0 then Some "nodeinfo"%string
                  else if code resp =? 119 then Some "node"%string
                  else if (code resp =? 118) || (code resp =? 121)
                  then Some "alive"%string
                  else None,
                  Client.Value (DResponse resp))]
              end))
       (match verdict with Some _ => true | None => index.destroyed w end)
       (index.signals w)
       (match index.promise w, verdict with
        | index.Pending, Some p => p
        | p, _ => p
        end), None).
Proof. intros Hsock. by apply (_onData_node thrown decode _ _ _ sock). Qed.

Lemma X16_witness :
  Client.client (index.c (index.getNode (λ e, e) (js "localhost") 4369 (js "testing")))
  = Some (Client.mkSocket [])
  ∧ index._onData (λ e, e)
      (λ _, Ok (DResponse (mkResponse 119 (PortInfo 1337 77 0 6 5 (js "testing") []))))
      (index.getNode_on (λ e, e) (js "testing")) [119; 0]
      (index.getNode (λ e, e) (js "localhost") 4369 (js "testing"))
    = (index.mkWorld
         (Client.mkClient (js "localhost") 4369 (Some (Client.mkSocket []))
            [(Some "node"%string,
              Client.Value
                (DResponse (mkResponse 119 (PortInfo 1337 77 0 6 5 (js "testing") []))))])
         true []
         (index.Fulfilled
            (Some (Client.Value
               (DResponse (mkResponse 119 (PortInfo 1337 77 0 6 5 (js "testing") [])))))),
       None).
Proof.
  assert (H : Client.client
                (index.c (index.getNode (λ e, e) (js "localhost") 4369 (js "testing")))
              = Some (Client.mkSocket [])) by reflexivity.
  split; [exact H|].
  exact (X16_getNode_answer (λ e, e)
           (λ _, Ok (DResponse (mkResponse 119 (PortInfo 1337 77 0 6 5 (js "testing") []))))
           (js "testing") [119; 0] _ _ H).
Defined.

(** X17: one chunk of data for [getAllNodes] and for [dumpEpmd], on a
    client that has a socket: the two behave alike.  No exception
    leaves [_onData], and the event it emits is added to the events of
    the client: "error" with the error, or the name that goes with the
    code, with the decoded value; [false] adds none.
    When the decoder throws, the socket is destroyed and the promise, if
    pending, is rejected with the error; when the chunk decodes to a
    list of nodes, or to a response whose code is 0, the socket is
    destroyed and the promise, if pending, is resolved with it; any
    other chunk leaves socket and promise as they are. *)
Theorem X17_listing_answer {E : Type} (thrown : index.RuntimeError → E)
    (decode : Buffer.t → result E Decoded) (data : Buffer.t)
    (w : index.World) (sock : Client.Socket) :
  Client.client (index.c w) = Some sock →
  let verdict :=
    match decode data with
    | Throw e => Some (index.Rejected (Some (Client.Error e)))
    | Ok (DResponse resp) =>
      if code resp =? 0
      then Some (index.Fulfilled (Some (Client.Value (DResponse resp))))
      else None
    | Ok (DNodeList entries) =>
      Some (index.Fulfilled (Some (Client.Value (DNodeList entries))))
    | Ok DFalse => None
    end in
  let after :=
    (index.mkWorld
       (Client.mkClient (Client.host (index.c w)) (Client.port (index.c w))
          (Client.client (index.c w))
          (Client.emitted (index.c w)
           ++ match decode data with
              | Throw e => [(Some "error"%string, Client.Error e)]
              | Ok DFalse => []
              | Ok (DNodeList entries) =>
                [(Some "nodeinfo"%string, Client.Value (DNodeList entries))]
              | Ok (DResponse resp) =>
                [(if code resp =? 0 then Some "nodeinfo"%string
                  else if code resp =? 119 then Some "node"%string
                  else if (code resp =? 118) || (code resp =? 121)
                  then Some "alive"%string
                  else None,
                  Client.Value (DResponse resp))]
              end))
       (match verdict with Some _ => true | None => index.destroyed w end)
       (index.signals w)
       (match index.promise w, verdict with
        | index.Pending, Some p => p
        | p, _ => p
        end), None) in
  index._onData thrown decode (index.getAllNodes_on thrown) data w = after
  ∧ index._onData thrown decode (index.dumpEpmd_on thrown) data w = after.
Proof.
  intros Hsock. split; by apply (_onData_nodeinfo thrown decode _ _ _ sock).
Qed.

Lemma X17_witness :
  Client.client (index.c (index.getAllNodes (λ e, e) (js "localhost") 4369))
  = Some (Client.mkSocket [])
  ∧ index._onData (λ e, e) (λ _, Ok (DNodeList [mkNodeEntry (js "test") 342 None]))
      (index.getAllNodes_on (λ e, e)) [110]
      (index.getAllNodes (λ e, e) (js "localhost") 4369)
    = (index.mkWorld
         (Client.mkClient (js "localhost") 4369 (Some (Client.mkSocket []))
            [(Some "nodeinfo"%string,
              Client.Value (DNodeList [mkNodeEntry (js "test") 342 None]))])
         true []
         (index.Fulfilled
            (Some (Client.Value (DNodeList [mkNodeEntry (js "test") 342 None])))),
       None).
Proof.
  assert (H : Client.client (index.c (index.getAllNodes (λ e, e) (js "localhost") 4369))
              = Some (Client.mkSocket [])) by reflexivity.
  split; [exact H|].
  exact (proj1 (X17_listing_answer (λ e, e)
                  (λ _, Ok (DNodeList [mkNodeEntry (js "test") 342 None]))
                  [110] _ _ H)).
Defined.

(** X18: over any run of callbacks of the socket, for each of the three
    module-level requests and a client that has a socket: a promise
    that is settled stays as it is; a run without data leaves the
    promise as it is, so a connection that closes before an answer
    leaves it pending for good; and whenever the run changes the
    promise, the socket has been destroyed. *)
Theorem X18_promise_over_a_run {E : Type} (thrown : index.RuntimeError → E)
    (decode : Buffer.t → result E Decoded) (on : index.Listeners)
    (evs : list index.NetEvent) (w : index.World) (sock : Client.Socket) :
  (∃ name, on = index.getNode_on thrown name)
  ∨ on = index.getAllNodes_on thrown ∨ on = index.dumpEpmd_on thrown →
  Client.client (index.c w) = Some sock →
  (index.promise w ≠ index.Pending →
   index.promise (index.run thrown decode on evs w).1 = index.promise w)
  ∧ (Forall (λ ev, ∀ data, ev ≠ index.Data data) evs →
     index.promise (index.run thrown decode on evs w).1 = index.promise w)
  ∧ (index.promise (index.run thrown decode on evs w).1 = index.promise w
     ∨ index.destroyed (index.run thrown decode on evs w).1 = true).
Proof.
  intros Hon Hsock.
  assert (∃ request answer,
            (answer = "node"%string ∨ answer = "nodeinfo"%string)
            ∧ (∀ event,
                 on event
                 = if decide (event = Some "connect"%string)
                   then [λ _, index.method thrown request]
                   else if decide (event = Some answer)
                   then [λ value, index.seq (index.end_ thrown) (index.resolve value)]
                   else if decide (event = Some "error"%string)
                   then [λ err, index.seq (index.end_ thrown) (index.reject err)]
                   else [])
            ∧ (∀ (this this' : Client.t E) sock,
                 Client.client this = Some sock → request this = Ok this' →
                 ∃ sock', Client.client this' = Some sock'))
    as (request & answer & Hanswer & Htable & Hrequest).
  { destruct Hon as [[name ->] | [-> | ->]].
    - exists (Client.getNode name), "node"%string. split; [by left|]. split; [done|].
      intros this this' sock' Hsock'. unfold Client.getNode.
      destruct (encoder.portPleaseRequest name); [|done]. by apply (_send_keeps_socket _ _ _ sock').
    - exists Client.getAllNodes, "nodeinfo"%string. split; [by right|]. split; [done|].
      intros this this' sock' Hsock'. unfold Client.getAllNodes.
      destruct encoder.namesRequest; [|done]. by apply (_send_keeps_socket _ _ _ sock').
    - exists Client.dumpEpmd, "nodeinfo"%string. split; [by right|]. split; [done|].
      intros this this' sock' Hsock'. unfold Client.dumpEpmd.
      destruct encoder.dumpRequest; [|done]. by apply (_send_keeps_socket _ _ _ sock'). }
  destruct (run_promise thrown decode on request answer Hanswer Htable Hrequest evs w sock
              Hsock) as (H1 & H2 & H3 & _).
  done.
Qed.

Lemma X18_witness :
  ((∃ name, index.getNode_on (E:=index.RuntimeError) (λ e, e) (js "testing")
            = index.getNode_on (λ e, e) name)
   ∨ index.getNode_on (λ e, e) (js "testing") = index.getAllNodes_on (λ e, e)
   ∨ index.getNode_on (λ e, e) (js "testing") = index.dumpEpmd_on (λ e, e))
  ∧ Client.client (index.c (index.getNode (λ e, e) (js "localhost") 4369 (js "testing")))
    = Some (Client.mkSocket [])
  ∧ Forall (λ ev, ∀ data, ev ≠ index.Data data) [index.Connected; index.Closed]
  ∧ index.promise
      (index.run (λ e, e) (λ _, Ok DFalse) (index.getNode_on (λ e, e) (js "testing"))
         [index.Connected; index.Closed]
         (index.getNode (λ e, e) (js "localhost") 4369 (js "testing"))).1
    = index.Pending.
Proof.
  assert (H1 : (∃ name, index.getNode_on (E:=index.RuntimeError) (λ e, e) (js "testing")
                        = index.getNode_on (λ e, e) name)
               ∨ index.getNode_on (λ e, e) (js "testing") = index.getAllNodes_on (λ e, e)
               ∨ index.getNode_on (λ e, e) (js "testing") = index.dumpEpmd_on (λ e, e))
    by (left; by exists (js "testing")).
  assert (H2 : Client.client
                 (index.c (index.getNode (λ e, e) (js "localhost") 4369 (js "testing")))
               = Some (Client.mkSocket [])) by reflexivity.
  assert (H3 : Forall (λ ev, ∀ data, ev ≠ index.Data data) [index.Connected; index.Closed])
    by (repeat constructor; discriminate).
  split; [exact H1|]. split; [exact H2|]. split; [exact H3|].
  exact (proj1 (proj2 (X18_promise_over_a_run (λ e, e) (λ _, Ok DFalse) _
                         [index.Connected; index.Closed] _ _ H1 H2)) H3).
Defined.

(** ** The first answer settles the promise *)

Section first_answer.
Import index.
Context {E : Type} (thrown : RuntimeError → E) (decode : Buffer.t → result E Decoded).
Context (on : Listeners (E:=E)) (request : Client.t E → result JsError (Client.t E)).
Context (verdict : Buffer.t → option (Promise (E:=E))).

Implicit Types (w : World (E:=E)) (sock : Client.Socket).

Hypothesis Hconnect : on (Some "connect"%string) = [λ _, method thrown request].
Hypothesis Hend : on (Some "end"%string) = [].
Hypothesis Hrequest : ∀ this sock,
  Client.client this = Some sock →
  ∃ this' sock', request this = Ok this' ∧ Client.client this' = Some sock'.
Hypothesis Hdata : ∀ data w sock,
  Client.client (c w) = Some sock →
  ∃ this,
    Client.client this = Some sock
    ∧ _onData thrown decode on data w
      = (mkWorld this
           (match verdict data with Some _ => true | None => destroyed w end)
           (signals w)
           (match promise w, verdict data with
            | Pending, Some p => p
            | p, _ => p
            end), None).

(** On a client with a socket a callback does not throw, and it
    changes the promise only as the verdict on its data says. *)
Lemma callback_verdict ev w sock :
  Client.client (c w) = Some sock →
  ∃ w' sock',
    callback thrown decode on ev w = (w', None)
    ∧ Client.client (c w') = Some sock'
    ∧ promise w'
      = match promise w, ev with
        | Pending, Data data =>
          match verdict data with Some p => p | None => Pending end
        | p, _ => p
        end
    ∧ destroyed w'
      = match ev with
        | Data data => match verdict data with Some _ => true | None => destroyed w end
        | _ => destroyed w
        end.
Proof.
  intros Hsock. destruct ev as [|data|]; cbn [callback].
  - rewrite (_onConnect_request _ _ request) by done.
    destruct (Hrequest _ _ Hsock) as (this' & sock' & -> & Hsock').
    eexists _, sock'. split; [reflexivity|]. cbn [c promise destroyed].
    split; [done|]. by destruct (promise w).
  - destruct (Hdata data w sock Hsock) as (this & Hthis & ->).
    eexists _, sock. split; [reflexivity|].
    cbn [c promise destroyed]. split; [done|].
    by destruct (promise w), (verdict data).
  - rewrite _onEnd_no_listener by done. eexists _, sock. split; [reflexivity|].
    cbn [c promise destroyed]. split; [done|]. by destruct (promise w).
Qed.

Lemma run_settled evs w sock :
  Client.client (c w) = Some sock → promise w ≠ Pending → destroyed w = true →
  ∃ w', run thrown decode on evs w = (w', None)
    ∧ promise w' = promise w ∧ destroyed w' = true.
Proof.
  revert w sock. induction evs as [|ev evs IH]; intros w sock Hsock Hp Hd.
  { by exists w. }
  destruct (callback_verdict ev w sock Hsock) as (w1 & sock1 & Hstep & Hsock1 & Hp1 & Hd1).
  assert (promise w1 = promise w) as Hp1' by (rewrite Hp1; by destruct (promise w)).
  assert (destroyed w1 = true) as Hd1'
    by (rewrite Hd1; destruct ev as [|data|]; [done| |done]; by destruct (verdict data)).
  destruct (IH w1 sock1 Hsock1) as (w' & Hrun & Hp' & Hd'); [by rewrite Hp1'|done|].
  exists w'. cbn [run]. unfold seq. rewrite Hstep, Hrun. split; [done|].
  split; [by rewrite Hp'|done].
Qed.

(** The first chunk of data on which there is a verdict settles the
    promise, whatever comes after it. *)
Lemma run_first_verdict pre data post p w sock :
  Client.client (c w) = Some sock → promise w = Pending →
  Forall (λ ev, ∀ data', ev = Data data' → verdict data' = None) pre →
  verdict data = Some p → p ≠ Pending →
  ∃ w', run thrown decode on (pre ++ Data data :: post) w = (w', None)
    ∧ promise w' = p ∧ destroyed w' = true.
Proof.
  intros Hsock Hp Hpre Hv Hne. revert w sock Hsock Hp.
  induction pre as [|ev pre IH]; intros w sock Hsock Hp.
  - cbn [app run].
    destruct (callback_verdict (Data data) w sock Hsock)
      as (w1 & sock1 & Hstep & Hsock1 & Hp1 & Hd1).
    rewrite Hp, Hv in Hp1. rewrite Hv in Hd1.
    destruct (run_settled post w1 sock1 Hsock1) as (w' & Hrun & Hp' & Hd');
      [by rewrite Hp1|done|].
    exists w'. unfold seq. rewrite Hstep, Hrun. split; [done|].
    split; [by rewrite Hp'|done].
  - apply Forall_cons in Hpre as [Hev Hpre]. cbn [app run].
    destruct (callback_verdict ev w sock Hsock)
      as (w1 & sock1 & Hstep & Hsock1 & Hp1 & _).
    assert (promise w1 = Pending) as Hp1'.
    { rewrite Hp1, Hp. destruct ev as [|data'|]; [done| |done].
      by rewrite (Hev data' eq_refl). }
    destruct (IH Hpre w1 sock1 Hsock1 Hp1') as (w' & Hrun & Hp' & Hd').
    exists w'. unfold seq. by rewrite Hstep, Hrun.
Qed.

End first_answer.

(** X19: [getNode] settles with the first answer.  With a port that
    [net.connect] accepts and a name of at most 65534 UTF-8 bytes, take
    any run of callbacks in which some chunk of data decodes to a
    response with code 119 or makes the decoder throw, and no chunk
    before it does: the run ends without an exception, the promise is
    resolved with that response, or rejected with that error, and the
    socket is destroyed, whatever the callbacks before and after it
    are. *)
Theorem X19_getNode_first_answer {E : Type} (thrown : index.RuntimeError → E)
    (decode : Buffer.t → result E Decoded) (host : jsstring) (epmdPort : Z)
    (name : jsstring) (pre post : list index.NetEvent) (data : Buffer.t)
    (p : index.Promise) :
  let verdict := λ data,
    match decode data with
    | Throw e => Some (index.Rejected (Some (Client.Error e)))
    | Ok (DResponse resp) =>
      if code resp =? constants.PORT2_RESP
      then Some (index.Fulfilled (Some (Client.Value (DResponse resp))))
      else None
    | Ok _ => None
    end in
  0 ≤ epmdPort < 65536 →
  Buffer.byteLength name ≤ 65534 →
  Forall (λ ev, ∀ data', ev = index.Data data' → verdict data' = None) pre →
  verdict data = Some p →
  ∃ w', index.run thrown decode (index.getNode_on thrown name)
          (pre ++ index.Data data :: post) (index.getNode thrown host epmdPort name)
        = (w', None)
    ∧ index.promise w' = p ∧ index.destroyed w' = true.
Proof.
  intros verdict Hport Hname Hpre Hdata.
  unfold index.getNode. rewrite newPromise_connect.
  destruct (Z.leb_spec 0 epmdPort), (Z.ltb_spec epmdPort 65536); try lia. cbn [andb].
  apply (run_first_verdict thrown decode (index.getNode_on thrown name)
           (Client.getNode name) verdict) with (sock := Client.mkSocket []);
    try done.
  - intros this sock Hsock. eexists _, _.
    split; [by apply getNode_accepts|reflexivity].
  - intros data' w sock Hsock. eexists.
    split; [|by apply (_onData_node thrown decode _ _ _ sock)]. done.
  - intros ->. subst verdict. cbv beta in Hdata.
    destruct (decode data) as [[|resp|entries]|e]; try done.
    by destruct (code resp =? constants.PORT2_RESP).
Qed.

Lemma X19_witness :
  0 ≤ 4369 < 65536
  ∧ Buffer.byteLength (js "testing") ≤ 65534
  ∧ ∃ w',
      index.run (λ e, e)
        (λ data, if decide (data = [119])
                 then Ok (DResponse (mkResponse 119 (AliveAck [])))
                 else Ok (DResponse (mkResponse 121 (AliveAck []))))
        (index.getNode_on (λ e, e) (js "testing"))
        ([index.Connected; index.Data [121]] ++ index.Data [119] :: [index.Closed])
        (index.getNode (λ e, e) (js "localhost") 4369 (js "testing"))
      = (w', None)
      ∧ index.promise w'
        = index.Fulfilled (Some (Client.Value (DResponse (mkResponse 119 (AliveAck [])))))
      ∧ index.destroyed w' = true.
Proof.
  assert (H1 : 0 ≤ 4369 < 65536) by lia.
  assert (H2 : Buffer.byteLength (js "testing") ≤ 65534) by (vm_compute; discriminate).
  split; [exact H1|]. split; [exact H2|].
  refine (X19_getNode_first_answer (λ e, e) _ (js "localhost") 4369 (js "testing")
            [index.Connected; index.Data [121]] [index.Closed] [119] _ H1 H2 _ _).
  - repeat constructor; intros data' [=]. by subst data'.
  - reflexivity.
Defined.

(** X20: [getAllNodes] and [dumpEpmd] settle with the first answer.
    With a port that [net.connect] accepts, take any run of callbacks
    in which some chunk of data decodes to a list of nodes or to a
    response with code 0, or makes the decoder throw, and no chunk
    before it does: the run ends without an exception, the promise is
    resolved with that value, or rejected with that error, and the
    socket is destroyed. *)
Theorem X20_listing_first_answer {E : Type} (thrown : index.RuntimeError → E)
    (decode : Buffer.t → result E Decoded) (host : jsstring) (epmdPort : Z)
    (pre post : list index.NetEvent) (data : Buffer.t) (p : index.Promise) :
  let verdict := λ data,
    match decode data with
    | Throw e => Some (index.Rejected (Some (Client.Error e)))
    | Ok (DResponse resp) =>
      if code resp =? 0
      then Some (index.Fulfilled (Some (Client.Value (DResponse resp))))
      else None
    | Ok (DNodeList entries) =>
      Some (index.Fulfilled (Some (Client.Value (DNodeList entries))))
    | Ok DFalse => None
    end in
  0 ≤ epmdPort < 65536 →
  Forall (λ ev, ∀ data', ev = index.Data data' → verdict data' = None) pre →
  verdict data = Some p →
  (∃ w', index.run thrown decode (index.getAllNodes_on thrown)
           (pre ++ index.Data data :: post) (index.getAllNodes thrown host epmdPort)
         = (w', None)
     ∧ index.promise w' = p ∧ index.destroyed w' = true)
  ∧ (∃ w', index.run thrown decode (index.dumpEpmd_on thrown)
             (pre ++ index.Data data :: post) (index.dumpEpmd thrown host epmdPort)
           = (w', None)
       ∧ index.promise w' = p ∧ index.destroyed w' = true).
Proof.
  intros verdict Hport Hpre Hdata.
  assert (p ≠ index.Pending) as Hp.
  { intros ->. subst verdict. cbv beta in Hdata.
    destruct (decode data) as [[|resp|entries]|e]; try done.
    by destruct (code resp =? 0). }
  unfold index.getAllNodes, index.dumpEpmd. rewrite newPromise_connect.
  destruct (Z.leb_spec 0 epmdPort), (Z.ltb_spec epmdPort 65536); try lia. cbn [andb].
  split.
  - apply (run_first_verdict thrown decode (index.getAllNodes_on thrown)
             Client.getAllNodes verdict) with (sock := Client.mkSocket []);
      try done.
    + intros this sock Hsock. eexists _, _. unfold Client.getAllNodes.
      change encoder.namesRequest with (Ok (E:=JsError) [constants.NAMES_REQ]).
      cbn [mbind result_bind]. rewrite (_send_result _ sock) by done.
      split; reflexivity.
    + intros data' w sock Hsock. eexists.
      split; [|by apply (_onData_nodeinfo thrown decode _ _ _ sock)]. done.
  - apply (run_first_verdict thrown decode (index.dumpEpmd_on thrown)
             Client.dumpEpmd verdict) with (sock := Client.mkSocket []);
      try done.
    + intros this sock Hsock. eexists _, _. unfold Client.dumpEpmd.
      change encoder.dumpRequest with (Ok (E:=JsError) [constants.DUMP_REQ]).
      cbn [mbind result_bind]. rewrite (_send_result _ sock) by done.
      split; reflexivity.
    + intros data' w sock Hsock. eexists.
      split; [|by apply (_onData_nodeinfo thrown decode _ _ _ sock)]. done.
Qed.

Lemma X20_witness :
  0 ≤ 4369 < 65536
  ∧ ∃ w',
      index.run (λ e, e)
        (λ data, if decide (data = [110])
                 then Ok (DNodeList [mkNodeEntry (js "test") 342 None])
                 else Ok DFalse)
        (index.getAllNodes_on (λ e, e))
        ([index.Connected; index.Data []] ++ index.Data [110] :: [index.Closed])
        (index.getAllNodes (λ e, e) (js "localhost") 4369)
      = (w', None)
      ∧ index.promise w'
        = index.Fulfilled (Some (Client.Value (DNodeList [mkNodeEntry (js "test") 342 None])))
      ∧ index.destroyed w' = true.
Proof.
  assert (H1 : 0 ≤ 4369 < 65536) by lia.
  split; [exact H1|].
  refine (proj1 (X20_listing_first_answer (λ e, e) _ (js "localhost") 4369
                   [index.Connected; index.Data []] [index.Closed] [110] _ H1 _ _)).
  - repeat constructor; intros data' [=]. by subst data'.
  - reflexivity.
Defined.

(** ** Claim about the text listing *)

Section listing_utf8.

Implicit Types (s t line : jsstring) (lines : list jsstring).




End listing_utf8.



